(** * Procedural network generators of the cocoon visualizer

    A shallow embedding of [js/generators.js] (the [Generators] object) and of
    the part of the [DataManager] catalogue it reads, followed by the
    properties of the generated networks.

    Conventions of the embedding.
    - Loop counters, node ids, array lengths and array indices are JavaScript
      numbers holding small non-negative integers; they are embedded as [nat]
      (as [Z] where the source subtracts).
    - Every other JavaScript number is a [num]: an exact rational, [NaN] or a
      signed infinity.  The sign of zero is not represented, and the
      arithmetic of [num] does not round.  Where rounding decides an integer
      the generators compute (the layer sizes of the funnel and of the
      hourglass) the expression is evaluated in binary64 as well (module
      [Double], generators [generateFunnelDouble] and
      [generateHourglassDouble]), and the statements about these sizes are
      made there.
    - A catalogue object is read as JavaScript reads a plain object: a name
      it has no key for may still be a member of [Object.prototype]
      ([property], [getProperty]).
    - [Math.cos], [Math.sin], [Math.acos], [Math.sqrt] and [Math.PI] are
      parameters of the development (record [MathLib]): every result holds
      for any interpretation of them.
    - [Math.random] reads an arbitrary but fixed sequence of draws
      [rand : nat -> Q]; the generators thread the number of draws made so
      far.  [console.error] has no effect on the returned value and is left
      out.
    - A generator returns an [outcome]: a value, a [TypeError] (property
      access on [undefined]) or [Timeout] (a loop that does not end). *)

From Stdlib Require Import ZArith QArith Qround Lia Lqa.
From Stdlib Require SpecFloat.
From stdpp Require Import gmap strings list fin_maps.

Local Open Scope nat_scope.

(** ** JavaScript numbers *)

Module JS.

Inductive num : Type :=
| Fin (q : Q)
| PInf
| NInf
| NaN.

Definition of_Z (n : Z) : num := Fin (inject_Z n).
Definition of_nat (n : nat) : num := of_Z (Z.of_nat n).

Definition inf (positive : bool) : num := if positive then PInf else NInf.

(** An infinity of sign [positive] multiplied by the finite [q]. *)
Definition scale_inf (positive : bool) (q : Q) : num :=
  match (q ?= 0)%Q with
  | Eq => NaN
  | Gt => inf positive
  | Lt => inf (negb positive)
  end.

Definition neg (a : num) : num :=
  match a with
  | Fin q => Fin (- q)
  | PInf => NInf
  | NInf => PInf
  | NaN => NaN
  end.

Definition add (a b : num) : num :=
  match a, b with
  | NaN, _ | _, NaN => NaN
  | Fin p, Fin q => Fin (p + q)
  | PInf, NInf | NInf, PInf => NaN
  | PInf, _ | _, PInf => PInf
  | NInf, _ | _, NInf => NInf
  end.

Definition sub (a b : num) : num := add a (neg b).

Definition mul (a b : num) : num :=
  match a, b with
  | NaN, _ | _, NaN => NaN
  | Fin p, Fin q => Fin (p * q)
  | PInf, Fin q | Fin q, PInf => scale_inf true q
  | NInf, Fin q | Fin q, NInf => scale_inf false q
  | PInf, PInf | NInf, NInf => PInf
  | PInf, NInf | NInf, PInf => NInf
  end.

(** [p / 0] is [NaN] for [p = 0] and an infinity of the sign of [p]
    otherwise. *)
Definition div (a b : num) : num :=
  match a, b with
  | NaN, _ | _, NaN => NaN
  | Fin p, Fin q => if Qeq_bool q 0 then scale_inf true p else Fin (p / q)
  | Fin _, (PInf | NInf) => Fin 0
  | PInf, Fin q => inf (Qle_bool 0 q)
  | NInf, Fin q => inf (negb (Qle_bool 0 q))
  | (PInf | NInf), (PInf | NInf) => NaN
  end.

(** [a ** 2] and [Math.pow(a, 2)]. *)
Definition sqr (a : num) : num := mul a a.

(** The remainder [a % b]: the sign of the dividend, [NaN] for a zero
    divisor. *)
Definition Qtrunc (q : Q) : Z := if Qle_bool 0 q then Qfloor q else Qceiling q.

Definition rem (a b : num) : num :=
  match a, b with
  | NaN, _ | _, NaN => NaN
  | (PInf | NInf), _ => NaN
  | Fin p, (PInf | NInf) => Fin p
  | Fin p, Fin q =>
      if Qeq_bool q 0 then NaN else Fin (p - q * inject_Z (Qtrunc (p / q)))
  end.

(** Comparisons: every comparison with [NaN] is false. *)
Definition lt (a b : num) : bool :=
  match a, b with
  | NaN, _ | _, NaN => false
  | Fin p, Fin q => negb (Qle_bool q p)
  | NInf, (Fin _ | PInf) => true
  | Fin _, PInf => true
  | _, _ => false
  end.

Definition gt (a b : num) : bool := lt b a.

(** [a === b] on numbers. *)
Definition strict_eq (a b : num) : bool :=
  match a, b with
  | Fin p, Fin q => Qeq_bool p q
  | PInf, PInf | NInf, NInf => true
  | _, _ => false
  end.

(** The array index a number denotes, if any: a non-negative integer. *)
Definition is_integer (q : Q) : bool := Qeq_bool q (inject_Z (Qfloor q)).

Definition index_of (v : num) : option nat :=
  match v with
  | Fin q =>
      if is_integer q && Qle_bool 0 q then Some (Z.to_nat (Qfloor q))
      else None
  | _ => None
  end.

(** An array subscript [l[v]]: the element when [v] is an index of the
    array, [undefined] ([None]) otherwise. *)
Definition subscript {A : Type} (l : list A) (v : num) : option A :=
  match index_of v with
  | Some i => l !! i
  | None => None
  end.

End JS.

Import JS.

Declare Scope num_scope.
Delimit Scope num_scope with num.
Bind Scope num_scope with num.
Infix "+" := add : num_scope.
Infix "-" := sub : num_scope.
Infix "*" := mul : num_scope.
Infix "/" := div : num_scope.
Infix "<?" := lt : num_scope.
Infix ">?" := gt : num_scope.

(** Integer literals and counters are read as numbers where the source
    computes with them; [lit n d] is the decimal literal [n/d]. *)
Coercion of_nat : nat >-> num.
Definition lit (n : Z) (d : positive) : num := Fin (Qmake n d).

(** ** The [Math] object *)

Record MathLib : Type := {
  Math_cos : num -> num;
  Math_sin : num -> num;
  Math_acos : num -> num;
  Math_sqrt : num -> num;
  Math_PI : num
}.

Definition Math_floor (a : num) : num :=
  match a with
  | Fin q => of_Z (Qfloor q)
  | other => other
  end.

(** [Math.round]: the nearest integer, halves rounded up. *)
Definition Math_round (a : num) : num :=
  match a with
  | Fin q => of_Z (Qfloor (q + (1 # 2)))
  | other => other
  end.

(** [Math.max] of two numbers: [NaN] as soon as one argument is. *)
Definition Math_max (a b : num) : num :=
  match a, b with
  | NaN, _ | _, NaN => NaN
  | _, _ => if (a <? b)%num then b else a
  end.

(** ** Outcomes and the generator monad *)

Inductive outcome (A : Type) : Type :=
| Ok (a : A)
| TypeError
| Timeout.

Arguments Ok {A} a.
Arguments TypeError {A}.
Arguments Timeout {A}.

(** A computation that may call [Math.random]: it reads the number of draws
    made so far and returns the new number with its value. *)
Definition Gen (A : Type) : Type := nat -> outcome (A * nat).

Definition ret {A : Type} (a : A) : Gen A := fun s => Ok (a, s).

Definition bind {A B : Type} (m : Gen A) (f : A -> Gen B) : Gen B :=
  fun s =>
    match m s with
    | Ok (a, s') => f a s'
    | TypeError => TypeError
    | Timeout => Timeout
    end.

Definition throw {A : Type} : Gen A := fun _ => TypeError.
Definition diverge {A : Type} : Gen A := fun _ => Timeout.

Declare Scope gen_scope.
Delimit Scope gen_scope with gen.
Notation "'let*' x ':=' m 'in' k" := (bind m (fun x => k))
  (at level 10, x pattern, m at level 100, k at level 200) : gen_scope.
Local Open Scope gen_scope.

(** Reading a property of a value that may be [undefined]. *)
Definition defined {A : Type} (v : option A) : Gen A :=
  match v with
  | Some a => ret a
  | None => throw
  end.

(** [for (const i of l) body], threading the variables the body assigns. *)
Fixpoint forEach {S : Type} (l : list nat) (body : nat -> S -> Gen S) (s : S)
  : Gen S :=
  match l with
  | [] => ret s
  | i :: l' => let* s' := body i s in forEach l' body s'
  end.

(** The number of rounds of [for (let i = 0; i < bound; i++)]: none when the
    test fails at once, [ceil bound] for a positive finite bound; the loop
    does not end for [Infinity]. *)
Definition tripCount (bound : num) : Gen nat :=
  match bound with
  | Fin q => ret (Z.to_nat (Qceiling q))
  | PInf => diverge
  | NInf | NaN => ret 0
  end.

Definition for_lt {S : Type} (bound : num) (body : nat -> S -> Gen S) (s : S)
  : Gen S :=
  let* n := tripCount bound in forEach (seq 0 n) body s.

(** [for (let i = a; i < b; i++)] over integers. *)
Definition for_range {S : Type} (a b : nat) (body : nat -> S -> Gen S) (s : S)
  : Gen S :=
  forEach (seq a (b - a)) body s.

(** ** Data model *)

Module Position.
Record t : Type := mk {
  x : num;
  y : num;
  z : num;
  layer : option nat;
  type : option string
}.
End Position.

(** [from] and [to] hold what the source stores there, read as a node index:
    [None] stands for a value that is no index ([undefined], [NaN], a
    fraction). *)
Module Connection.
Record t : Type := mk {
  from : option nat;
  to : option nat;
  weight : num
}.
End Connection.

(** An entry of [types]: a type name, or [undefined] when the subscript read
    past the list of names. *)
Definition NodeType : Type := option string.

Record NetworkDescription : Type := {
  positions : list Position.t;
  connections : list Connection.t;
  types : list NodeType;
  layers : option nat
}.

(** The result of the structure generators: no [types], no [layers]. *)
Module Structure.
Record t : Type := mk {
  positions : list Position.t;
  connections : list Connection.t
}.
End Structure.

Definition StructureDescription : Type := Structure.t.

Definition emptyNetwork : NetworkDescription :=
  {| positions := []; connections := []; types := []; layers := None |}.

Definition emptyStructure : StructureDescription :=
  Structure.mk [] [].

(** *** Catalogue records.  A parameter [p] of the JSON files is read as
    [p.default]; the records hold that value. *)

Record Spacing : Type := {
  layerHeight : num;
  baseRadius : num;
  layerRadius : num
}.

Record TypeDistribution : Type := {
  apex : list string;
  base : list string;
  middle : list string;
  input : list string;
  compress : list string;
  center : list string;
  expand : list string;
  output : list string
}.

Record Parameters : Type := {
  numLayers : nat;
  spiralOffset : option num;
  kNeighbors : nat;
  rewireProb : Q;
  endCocoons : nat;
  centerCocoons : nat
}.

Record Visualization : Type := {
  spacing : Spacing;
  typeDistribution : TypeDistribution;
  radius : num;
  heightVariance : num
}.

Record TopologyConfig : Type := {
  generator_type : string;
  parameters : Parameters;
  visualization : Visualization
}.

Record StructureConfig : Type := {
  nodeDistribution : string;
  distanceThreshold : num;
  connectionDensity : num
}.

(** [DataManager].  Of [DataManager.types] the generators read the keys only:
    [typeNames] is [Object.keys(DataManager.types)], in catalogue order. *)
Record DataManager : Type := {
  typeNames : list string;
  topologies : gmap string TopologyConfig;
  structures : gmap string StructureConfig
}.

(** The names every plain object inherits from [Object.prototype].  Read
    from an object that has no key of that name, each yields a function (the
    prototype object itself for "__proto__"): a truthy value without a
    [generator] property. *)
Definition objectPrototypeNames : list string :=
  ["constructor"; "__defineGetter__"; "__defineSetter__"; "hasOwnProperty";
   "__lookupGetter__"; "__lookupSetter__"; "isPrototypeOf";
   "propertyIsEnumerable"; "toString"; "valueOf"; "__proto__";
   "toLocaleString"].

Definition inherited (name : string) : bool :=
  existsb (String.eqb name) objectPrototypeNames.

(** What [object[name] || null] yields for a catalogue object whose own keys
    hold configs: the config of an own key, an inherited member, or [null]. *)
Inductive property (A : Type) : Type :=
| Own (a : A)
| Inherited
| Absent.
Arguments Own {A} a.
Arguments Inherited {A}.
Arguments Absent {A}.

Definition getProperty {A : Type} (object : gmap string A) (name : string)
  : property A :=
  match object !! name with
  | Some a => Own a
  | None => if inherited name then Inherited else Absent
  end.

(** [this.topologies[name] || null] *)
Definition getTopology (dm : DataManager) (name : string)
  : property TopologyConfig :=
  getProperty (topologies dm) name.

(** [this.structures[name] || null] *)
Definition getStructure (dm : DataManager) (name : string)
  : property StructureConfig :=
  getProperty (structures dm) name.

(** ** The variables of a generator call

    [positions], [connections], [types], [cocoonId] and [layerCocoonIds] of
    the source.  [layerCocoonIds] is an array of arrays filled by index; it
    is a finite map from the layer to its ids.  A generator that has no
    such variable leaves the field at its initial value. *)

Record Build : Type := {
  b_positions : list Position.t;
  b_connections : list Connection.t;
  b_types : list NodeType;
  cocoonId : nat;
  layerCocoonIds : gmap nat (list nat)
}.

Definition start : Build :=
  {| b_positions := []; b_connections := []; b_types := [];
     cocoonId := 0; layerCocoonIds := ∅ |}.

(** [positions.push(p)] *)
Definition push_position (p : Position.t) (st : Build) : Build :=
  {| b_positions := b_positions st ++ [p];
     b_connections := b_connections st;
     b_types := b_types st;
     cocoonId := cocoonId st;
     layerCocoonIds := layerCocoonIds st |}.

(** [connections.push(c)] *)
Definition push_connection (c : Connection.t) (st : Build) : Build :=
  {| b_positions := b_positions st;
     b_connections := b_connections st ++ [c];
     b_types := b_types st;
     cocoonId := cocoonId st;
     layerCocoonIds := layerCocoonIds st |}.

(** [types.push(t)] *)
Definition push_type (t : NodeType) (st : Build) : Build :=
  {| b_positions := b_positions st;
     b_connections := b_connections st;
     b_types := b_types st ++ [t];
     cocoonId := cocoonId st;
     layerCocoonIds := layerCocoonIds st |}.

(** [layerCocoonIds[layer] = ids] *)
Definition set_layer (layer : nat) (ids : list nat) (st : Build) : Build :=
  {| b_positions := b_positions st;
     b_connections := b_connections st;
     b_types := b_types st;
     cocoonId := cocoonId st;
     layerCocoonIds := <[layer := ids]> (layerCocoonIds st) |}.

(** [layerCocoonIds[layer].push(cocoonId)] *)
Definition push_layer_id (layer : nat) (st : Build) : Gen Build :=
  let* ids := defined (layerCocoonIds st !! layer) in
  ret (set_layer layer (ids ++ [cocoonId st]) st).

(** [cocoonId++] *)
Definition next_id (st : Build) : Build :=
  {| b_positions := b_positions st;
     b_connections := b_connections st;
     b_types := b_types st;
     cocoonId := S (cocoonId st);
     layerCocoonIds := layerCocoonIds st |}.

Definition topologyResult (st : Build) (n : nat) : NetworkDescription :=
  {| positions := b_positions st; connections := b_connections st;
     types := b_types st; layers := Some n |}.

Definition structureResult (st : Build) : StructureDescription :=
  Structure.mk (b_positions st) (b_connections st).

(** ** The generators *)

Section Generators.

Context (M : MathLib).
Variable rand : nat -> Q.
Variable dm : DataManager.

Abbreviation cos := (Math_cos M).
Abbreviation sin := (Math_sin M).
Abbreviation acos := (Math_acos M).
Abbreviation sqrt := (Math_sqrt M).
Abbreviation PI := (Math_PI M).

(** [Math.random()] *)
Definition random : Gen num := fun s => Ok (Fin (rand s), S s).

(** The block "Connect to previous layer" of [generateFunnel] and
    [generateHourglass]; the two differ in the weight step only ([0.2] and
    [0.15]). *)
Definition connectToPrevious (step : num) (layer i : nat) (count : num)
  (st : Build) : Gen Build :=
  if 0 <? layer then
    let* prevLayer := defined (layerCocoonIds st !! (layer - 1)) in
    if 0 <? length prevLayer then
      let numConns := Nat.min 3 (length prevLayer) in
      for_range 0 numConns (fun c st =>
        let prevIdx :=
          rem (Math_floor (i * length prevLayer / count) + c)%num
              (length prevLayer) in
        ret (push_connection
               {| Connection.from := subscript prevLayer prevIdx;
                  Connection.to := Some (cocoonId st);
                  Connection.weight := (1 - c * step)%num |} st)) st
    else ret st
  else ret st.

(** *** [generateFunnel] *)

(** [count] in the arithmetic of [num], which does not round.  The code
    rounds every operation to binary64, and the two values differ where
    rounding crosses an integer (8 layers, [targetCount = 148], layer 1: 4
    here, 3 in the code); [funnelCountDouble] is the value of the code. *)
Definition funnelCount (numLayers targetCount layer : nat) : num :=
  let ratio := (layer / (numLayers - 1))%num in
  Math_max 1 (Math_floor (1 + (targetCount - 1) * sqr ratio))%num.

Definition funnelNode (config : TopologyConfig) (layer : nat)
  (count y radius : num) (layerTypes : list string) (i : nat) (st : Build)
  : Gen Build :=
  let spiralOffset :=
    match spiralOffset (parameters config) with
    | Some v => v
    | None => lit 3 10
    end in
  let angle := ((i / count) * PI * 2 + layer * spiralOffset)%num in
  let x := (cos angle * radius)%num in
  let z := (sin angle * radius)%num in
  let st := push_position (Position.mk x y z (Some layer) None) st in
  let st :=
    push_type (subscript layerTypes (rem i (length layerTypes))) st in
  let* st := push_layer_id layer st in
  let* st := connectToPrevious (lit 1 5) layer i count st in
  ret (next_id st).

Definition funnelLayer (config : TopologyConfig) (targetCount : nat)
  (layer : nat) (st : Build) : Gen Build :=
  let numLayers := numLayers (parameters config) in
  let spacing := spacing (visualization config) in
  let typeDistribution := typeDistribution (visualization config) in
  let ratio := (layer / (numLayers - 1))%num in
  let count := funnelCount numLayers targetCount layer in
  let y := ((layer - numLayers / 2) * layerHeight spacing)%num in
  let radius := (lit 1 2 + ratio * baseRadius spacing)%num in
  let st := set_layer layer [] st in
  let layerTypes :=
    if layer =? 0 then apex typeDistribution
    else if (Z.of_nat layer =? Z.of_nat numLayers - 1)%Z
         then base typeDistribution
         else middle typeDistribution in
  for_lt count (funnelNode config layer count y radius layerTypes) st.

Definition generateFunnel (config : TopologyConfig) (targetCount : nat)
  : Gen NetworkDescription :=
  let numLayers := numLayers (parameters config) in
  let* st := for_range 0 numLayers (funnelLayer config targetCount) start in
  ret (topologyResult st numLayers).

(** *** [generateOnion] *)

Definition onionCount (targetCount layer : nat) : num :=
  Math_max 1 (Math_floor (targetCount * (layer + 1) / 10))%num.

Definition onionNode (layer : nat) (count radius : num) (i : nat)
  (st : Build) : Gen Build :=
  let phi := acos (of_Z (-1) + (2 * i) / count)%num in
  let theta := (sqrt (count * PI) * phi)%num in
  let x := (radius * cos theta * sin phi)%num in
  let y := (radius * sin theta * sin phi)%num in
  let z := (radius * cos phi)%num in
  let st := push_position (Position.mk x y z (Some layer) None) st in
  let* r := random in
  let st := push_type (subscript (typeNames dm) (Math_floor (r * 4)%num)) st in
  let* st := push_layer_id layer st in
  let* st :=
    if 0 <? layer then
      let* r := random in
      if (r <? lit 1 2)%num then
        let* prevLayer := defined (layerCocoonIds st !! (layer - 1)) in
        let* r := random in
        let prevIdx := Math_floor (r * length prevLayer)%num in
        ret (push_connection
               {| Connection.from := subscript prevLayer prevIdx;
                  Connection.to := Some (cocoonId st);
                  Connection.weight := lit 4 5 |} st)
      else ret st
    else ret st in
  ret (next_id st).

Definition onionLayer (config : TopologyConfig) (targetCount : nat)
  (layer : nat) (st : Build) : Gen Build :=
  let spacing := spacing (visualization config) in
  let count := onionCount targetCount layer in
  let radius := (1 + layer * layerRadius spacing)%num in
  let st := set_layer layer [] st in
  for_lt count (onionNode layer count radius) st.

Definition generateOnion (config : TopologyConfig) (targetCount : nat)
  : Gen NetworkDescription :=
  let numLayers := numLayers (parameters config) in
  let* st := for_range 0 numLayers (onionLayer config targetCount) start in
  ret (topologyResult st numLayers).

(** *** [generateSmallWorld] *)

(** [Math.floor(Math.random() * cocoonCount)] *)
Definition randomTarget (cocoonCount : nat) : Gen num :=
  let* r := random in
  ret (Math_floor (r * cocoonCount)%num).

(** [while (target === i) target = Math.floor(Math.random() * cocoonCount)]:
    at most [fuel] further draws, [Timeout] when they do not suffice. *)
Fixpoint redraw (fuel : nat) (cocoonCount i : nat) (target : num) : Gen num :=
  if strict_eq target i then
    match fuel with
    | 0 => diverge
    | S fuel' =>
        let* target := randomTarget cocoonCount in
        redraw fuel' cocoonCount i target
    end
  else ret target.

Definition smallWorldNode (config : TopologyConfig) (cocoonCount : nat)
  (i : nat) (st : Build) : Gen Build :=
  let viz := visualization config in
  let angle := ((i / cocoonCount) * PI * 2)%num in
  let* r := random in
  let x := (cos angle * radius viz + (r - lit 1 2) * 2)%num in
  let* r := random in
  let y := ((r - lit 1 2) * heightVariance viz)%num in
  let* r := random in
  let z := (sin angle * radius viz + (r - lit 1 2) * 2)%num in
  let st := push_position (Position.mk x y z (Some 0) None) st in
  if (i <? cocoonCount * lit 1 10)%num then
    ret (push_type (Some "sensor") st)
  else if (i >? cocoonCount * lit 9 10)%num then
    ret (push_type (Some "processor") st)
  else
    let* r := random in
    ret (push_type (subscript (typeNames dm) (Math_floor (r * 4)%num)) st).

(** The body of the loop on [j]; [j <= k / 2] holds for the integers
    [1 .. floor (k / 2)]. *)
Definition smallWorldEdge (fuel : nat) (config : TopologyConfig)
  (cocoonCount i : nat) (j : nat) (st : Build) : Gen Build :=
  let rewireProb := rewireProb (parameters config) in
  let target := rem (i + j)%num cocoonCount in
  let* r := random in
  let* target :=
    if (r <? Fin rewireProb)%num then
      let* target := randomTarget cocoonCount in
      redraw fuel cocoonCount i target
    else ret target in
  ret (push_connection
         {| Connection.from := Some i;
            Connection.to := index_of target;
            Connection.weight := lit 7 10 |} st).

Definition generateSmallWorld (fuel : nat) (config : TopologyConfig)
  (cocoonCount : nat) : Gen NetworkDescription :=
  let k := kNeighbors (parameters config) in
  let* st :=
    for_range 0 cocoonCount (smallWorldNode config cocoonCount) start in
  let* st :=
    for_range 0 cocoonCount (fun i st =>
      for_range 1 (k / 2 + 1) (smallWorldEdge fuel config cocoonCount i) st)
      st in
  ret (topologyResult st 1).

(** *** [generateHourglass] *)

(** [count] in the arithmetic of [num], which does not round;
    [hourglassCountDouble] is the value of the code in binary64 (44 layers,
    [endCocoons = 11], [centerCocoons = 0], layer 7: 8 here, 7 in the
    code). *)
Definition hourglassCount (config : TopologyConfig) (layer : nat) : num :=
  let numLayers := numLayers (parameters config) in
  let endCocoons := endCocoons (parameters config) in
  let centerCocoons := centerCocoons (parameters config) in
  let midLayer := numLayers / 2 in
  let distFromCenter := Z.abs_nat (Z.of_nat layer - Z.of_nat midLayer) in
  let maxDist := midLayer in
  let ratio := (distFromCenter / maxDist)%num in
  Math_round (centerCocoons + (endCocoons - centerCocoons) * ratio)%num.

Definition hourglassNode (layer : nat) (count y radius : num)
  (layerTypes : list string) (i : nat) (st : Build) : Gen Build :=
  let angle := ((i / count) * PI * 2)%num in
  let x := (cos angle * radius)%num in
  let z := (sin angle * radius)%num in
  let st := push_position (Position.mk x y z (Some layer) None) st in
  let st :=
    push_type (subscript layerTypes (rem i (length layerTypes))) st in
  let* st := push_layer_id layer st in
  let* st := connectToPrevious (lit 3 20) layer i count st in
  ret (next_id st).

Definition hourglassLayer (config : TopologyConfig) (layer : nat)
  (st : Build) : Gen Build :=
  let numLayers := numLayers (parameters config) in
  let endCocoons := endCocoons (parameters config) in
  let spacing := spacing (visualization config) in
  let typeDistribution := typeDistribution (visualization config) in
  let midLayer := numLayers / 2 in
  let count := hourglassCount config layer in
  let y := ((layer - midLayer) * layerHeight spacing)%num in
  let radius := (lit 1 2 + (count / endCocoons) * 3)%num in
  let st := set_layer layer [] st in
  let layerTypes :=
    if layer =? 0 then input typeDistribution
    else if layer <? midLayer then compress typeDistribution
    else if layer =? midLayer then center typeDistribution
    else if (Z.of_nat layer <? Z.of_nat numLayers - 1)%Z
         then expand typeDistribution
         else output typeDistribution in
  for_lt count (hourglassNode layer count y radius layerTypes) st.

Definition generateHourglass (config : TopologyConfig) (targetCount : nat)
  : Gen NetworkDescription :=
  let numLayers := numLayers (parameters config) in
  let* st := for_range 0 numLayers (hourglassLayer config) start in
  ret (topologyResult st numLayers).

(** *** [generateTopology]

    An inherited member passes the test [!topology]; it has no [generator],
    so [topology.generator.type] throws. *)

Definition generateTopology {B : Type} (fuel : nat) (topologyName : string)
  (cocoonCount : nat) (structure : B) : Gen NetworkDescription :=
  match getTopology dm topologyName with
  | Absent => ret emptyNetwork
  | Inherited => throw
  | Own topology =>
      let type := generator_type topology in
      if String.eqb type "funnel" then generateFunnel topology cocoonCount
      else if String.eqb type "onion" then generateOnion topology cocoonCount
      else if String.eqb type "smallworld"
           then generateSmallWorld fuel topology cocoonCount
      else if String.eqb type "hourglass"
           then generateHourglass topology cocoonCount
      else ret emptyNetwork
  end.

(** *** The structure generators *)

(** [i < 8 ? 'input' : i >= nodeCount - 8 ? 'output' : 'internal'] *)
Definition nodeTag (nodeCount i : nat) : string :=
  if i <? 8 then "input"
  else if (Z.of_nat i >=? Z.of_nat nodeCount - 8)%Z then "output"
  else "internal".

(** The coordinates are those of the arithmetic of [num], which does not
    round. *)
Definition sphereNode (nodeCount : nat) (i : nat) (st : Build) : Gen Build :=
  let phi := (PI * (3 - sqrt 5))%num in
  let y := (1 - (i / (nodeCount - 1)) * 2)%num in
  let radius := (sqrt (1 - y * y) * 3)%num in
  let theta := (phi * i)%num in
  ret (push_position
         (Position.mk (cos theta * radius)%num (y * 3)%num
            (sin theta * radius)%num None (Some (nodeTag nodeCount i))) st).

Definition distance (p q : Position.t) : num :=
  sqrt (sqr (Position.x p - Position.x q)
        + sqr (Position.y p - Position.y q)
        + sqr (Position.z p - Position.z q))%num.

(** The body of the loop on [j]; [&&] draws only when the distance test
    holds. *)
Definition spherePair (threshold : num) (i j : nat) (st : Build)
  : Gen Build :=
  let* pi := defined (b_positions st !! i) in
  let* pj := defined (b_positions st !! j) in
  let dist := distance pi pj in
  if (dist <? threshold * 4)%num then
    let* r := random in
    if (r <? lit 1 4)%num then
      ret (push_connection
             {| Connection.from := Some i;
                Connection.to := Some j;
                Connection.weight := (1 - dist / (threshold * 4))%num |} st)
    else ret st
  else ret st.

Definition generateSphereSurface (config : StructureConfig) (nodeCount : nat)
  : Gen StructureDescription :=
  let threshold := distanceThreshold config in
  let* st := for_range 0 nodeCount (sphereNode nodeCount) start in
  let* st :=
    for_range 0 (length (b_positions st)) (fun i st =>
      for_range (i + 1) (length (b_positions st)) (spherePair threshold i) st)
      st in
  ret (structureResult st).

Definition randomNode (nodeCount : nat) (i : nat) (st : Build) : Gen Build :=
  let* rx := random in
  let* ry := random in
  let* rz := random in
  ret (push_position
         (Position.mk ((rx - lit 1 2) * 6)%num ((ry - lit 1 2) * 6)%num
            ((rz - lit 1 2) * 6)%num None (Some (nodeTag nodeCount i))) st).

Definition randomPair (density : num) (i j : nat) (st : Build) : Gen Build :=
  let* r := random in
  if (r <? density * lit 3 20)%num then
    let* w := random in
    ret (push_connection
           {| Connection.from := Some i;
              Connection.to := Some j;
              Connection.weight := w |} st)
  else ret st.

Definition generateRandomGraph (config : StructureConfig) (nodeCount : nat)
  : Gen StructureDescription :=
  let density := connectionDensity config in
  let* st := for_range 0 nodeCount (randomNode nodeCount) start in
  let* st :=
    for_range 0 (length (b_positions st)) (fun i st =>
      for_range (i + 1) (length (b_positions st)) (randomPair density i) st)
      st in
  ret (structureResult st).

(** [generateInternalStructure(structureName, nodeCount = 50)]: [None] is a
    call without the second argument.  For an inherited member
    [structure.generator.nodeDistribution] throws. *)
Definition generateInternalStructure (structureName : string)
  (nodeCount : option nat) : Gen StructureDescription :=
  let nodeCount := default 50 nodeCount in
  match getStructure dm structureName with
  | Absent => ret emptyStructure
  | Inherited => throw
  | Own structure =>
      if String.eqb (nodeDistribution structure) "fibonacci_sphere"
      then generateSphereSurface structure nodeCount
      else generateRandomGraph structure nodeCount
  end.

End Generators.

(** ** Properties of generated networks *)

(** The draws of [Math.random] lie in [0, 1). *)
Definition random_source (rand : nat -> Q) : Prop :=
  forall k, (0 <= rand k)%Q /\ (rand k < 1)%Q.

(** [0 <= v < n] for a stored index [v]. *)
Definition valid_index (n : nat) (v : option nat) : Prop :=
  exists i, v = Some i /\ i < n.

Definition valid_connection (n : nat) (c : Connection.t) : Prop :=
  valid_index n (Connection.from c) /\ valid_index n (Connection.to c).

Definition indices_valid (ps : list Position.t) (cs : list Connection.t)
  : Prop :=
  forall c, c ∈ cs -> valid_connection (length ps) c.

(** [positions[id].layer] *)
Definition layer_at (ps : list Position.t) (id : nat) : option nat :=
  match ps !! id with
  | Some p => Position.layer p
  | None => None
  end.

(** [positions[from].layer + 1 === positions[to].layer] *)
Definition links_adjacent_layers (ps : list Position.t) (c : Connection.t)
  : Prop :=
  exists f t l,
    Connection.from c = Some f /\ Connection.to c = Some t /\
    layer_at ps f = Some l /\ layer_at ps t = Some (l + 1).

Definition in_layer (l : nat) (p : Position.t) : bool :=
  match Position.layer p with
  | Some l' => l' =? l
  | None => false
  end.

(** The number of nodes of layer [l]. *)
Definition nodesInLayer (ps : list Position.t) (l : nat) : nat :=
  length (List.filter (in_layer l) ps).

(** The number of rounds of a loop [i < bound] that ends. *)
Definition tripN (bound : num) : nat :=
  match bound with
  | Fin q => Z.to_nat (Qceiling q)
  | _ => 0
  end.

(** *** Invariants of the layered construction *)

Definition add_connections (cs : list Connection.t) (st : Build) : Build :=
  {| b_positions := b_positions st;
     b_connections := b_connections st ++ cs;
     b_types := b_types st;
     cocoonId := cocoonId st;
     layerCocoonIds := layerCocoonIds st |}.

(** One round of the loop on [i] of a layered generator: a node of [layer]
    with a fresh id, one type, and links from ids of the previous layer. *)
Definition node_added (layer : nat) (st st' : Build) : Prop :=
  exists p t ids cs,
    Position.layer p = Some layer /\
    layerCocoonIds st !! layer = Some ids /\
    (forall c, c ∈ cs ->
       0 < layer /\ Connection.to c = Some (cocoonId st) /\
       exists prev f, layerCocoonIds st !! (layer - 1) = Some prev /\
                      Connection.from c = Some f /\ f ∈ prev) /\
    st' = next_id (add_connections cs
            (set_layer layer (ids ++ [cocoonId st])
               (push_type t (push_position p st)))).

Record well_formed (st : Build) : Prop := {
  wf_next : cocoonId st = length (b_positions st);
  wf_types : length (b_types st) = length (b_positions st);
  wf_ids : forall l ids id,
    layerCocoonIds st !! l = Some ids -> id ∈ ids ->
    layer_at (b_positions st) id = Some l;
  wf_conns : forall c,
    c ∈ b_connections st -> links_adjacent_layers (b_positions st) c
}.

(** Layers below [L] are complete: layer [l] has [cnt l] ids and nodes. *)
Definition layers_done (cnt : nat -> nat) (L : nat) (st : Build) : Prop :=
  (forall l, l < L ->
     exists ids, layerCocoonIds st !! l = Some ids /\ length ids = cnt l) /\
  (forall l, nodesInLayer (b_positions st) l = if l <? L then cnt l else 0).

(** Inside the loop of [layer], after [i] nodes. *)
Definition layer_open (cnt : nat -> nat) (layer i : nat) (st : Build)
  : Prop :=
  (forall l, l < layer ->
     exists ids, layerCocoonIds st !! l = Some ids /\ length ids = cnt l) /\
  (exists ids, layerCocoonIds st !! layer = Some ids /\ length ids = i) /\
  (forall l, nodesInLayer (b_positions st) l =
             if l <? layer then cnt l else if l =? layer then i else 0).

(** *** What the layered generators build *)

Definition funnelCnt (config : TopologyConfig) (targetCount : nat) (l : nat)
  : nat :=
  tripN (funnelCount (numLayers (parameters config)) targetCount l).

Definition hourglassCnt (config : TopologyConfig) (l : nat) : nat :=
  tripN (hourglassCount config l).

Definition onionCnt (targetCount : nat) (l : nat) : nat :=
  tripN (onionCount targetCount l).

(** The result of a layered generator: [n] complete layers of sizes [cnt]. *)
Definition built (cnt : nat -> nat) (n : nat) (r : NetworkDescription)
  : Prop :=
  exists st,
    r = topologyResult st n /\ well_formed st /\ layers_done cnt n st.

(** Modelled on the words of the specification: the node count of layer [L]
    of the funnel, [max(1, floor(1 + (targetCount-1) * (L/(numLayers-1))^2))],
    in exact arithmetic. *)
Definition funnelLayerSize (numLayers targetCount L : nat) : Z :=
  Z.max 1
    (Qfloor (1 + (inject_Z (Z.of_nat targetCount) - 1)
                 * (inject_Z (Z.of_nat L)
                    / (inject_Z (Z.of_nat numLayers) - 1)) ^ 2)).

(** *** The small-world ring *)

(** The type the first loop of [generateSmallWorld] gives node [i] of [n]:
    [i < n * 0.1] reads [10 i < n] and [i > n * 0.9] reads [9 n < 10 i]. *)
Definition smallWorldType (rand : nat -> Q) (names : list string)
  (n i : nat) (t : NodeType) : Prop :=
  if 10 * i <? n then t = Some "sensor"
  else if 9 * n <? 10 * i then t = Some "processor"
  else exists m, t = subscript names (Math_floor (Fin (rand m) * 4)%num).

(** After the first loop: [k] nodes on layer 0, their types, no link. *)
Definition ring_nodes (rand : nat -> Q) (dm : DataManager) (n k : nat)
  (st : Build) : Prop :=
  length (b_positions st) = k /\ length (b_types st) = k /\
  b_connections st = [] /\
  (forall i p, b_positions st !! i = Some p -> Position.layer p = Some 0) /\
  (forall i, i < k -> exists t, b_types st !! i = Some t /\
                                smallWorldType rand (typeNames dm) n i t).

(** A redrawn target: the number of a node. *)
Definition is_target (n : nat) (t : num) : Prop :=
  exists k, k < n /\ t = of_nat k.

(** Ring edge [j] of node [i], not rewired. *)
Definition ringEdge (n i j : nat) : Connection.t :=
  {| Connection.from := Some i;
     Connection.to := Some ((i + j) mod n);
     Connection.weight := lit 7 10 |}.

(** The ring lattice: node [i] linked to its [h] clockwise neighbours. *)
Definition ringLattice (n h : nat) : list Connection.t :=
  flat_map (fun i => List.map (ringEdge n i) (seq 1 h)) (seq 0 n).

Definition ring_link (n : nat) (c : Connection.t) : Prop :=
  valid_connection n c /\ Connection.weight c = lit 7 10.

(** The second loop keeps the nodes and adds ring links. *)
Definition ring_links (n : nat) (st0 st : Build) : Prop :=
  b_positions st = b_positions st0 /\ b_types st = b_types st0 /\
  Forall (ring_link n) (b_connections st).

(** The links of the ring of 20 nodes with two clockwise neighbours each. *)
Definition ring20 : list Connection.t :=
  flat_map
    (fun i =>
       [Connection.mk (Some i) (Some ((i + 1) mod 20)) (lit 7 10);
        Connection.mk (Some i) (Some ((i + 2) mod 20)) (lit 7 10)])
    (seq 0 20).

(** *** The structure generators *)

(** After the first loop of a structure generator: [k] tagged nodes. *)
Definition tagged (n k : nat) (st : Build) : Prop :=
  length (b_positions st) = k /\ b_connections st = [] /\
  forall i p, b_positions st !! i = Some p ->
              Position.type p = Some (nodeTag n i).

(** A link of the all-pairs loop: from the smaller to the larger index. *)
Definition ordered_link (n : nat) (c : Connection.t) : Prop :=
  exists a b, Connection.from c = Some a /\ Connection.to c = Some b /\
              a < b /\ b < n.

Definition pair_links (st0 st : Build) : Prop :=
  b_positions st = b_positions st0 /\
  Forall (ordered_link (length (b_positions st0))) (b_connections st).

(** What a structure generator returns for [n] nodes. *)
Definition structure_of (n : nat) (r : StructureDescription) : Prop :=
  length (Structure.positions r) = n /\
  (forall i p, Structure.positions r !! i = Some p ->
               Position.type p = Some (nodeTag n i)) /\
  Forall (ordered_link n) (Structure.connections r).

(** ** Sample inputs *)

Definition zeroMath : MathLib :=
  {| Math_cos := fun _ => Fin 0; Math_sin := fun _ => Fin 0;
     Math_acos := fun _ => Fin 0; Math_sqrt := fun _ => Fin 0;
     Math_PI := lit 355 113 |}.

(** Two sequences of draws: [0, 0.1, ..., 0.9] repeated, and [0.5] for
    ever. *)
Definition sampleDraws (k : nat) : Q := Z.of_nat (k mod 10) # 10.
Definition halfDraws (k : nat) : Q := 1 # 2.

Definition sampleConfig (type : string) (layers k : nat) (p : Q)
  : TopologyConfig :=
  {| generator_type := type;
     parameters :=
       {| numLayers := layers; spiralOffset := None; kNeighbors := k;
          rewireProb := p; endCocoons := 5; centerCocoons := 2 |};
     visualization :=
       {| spacing := {| layerHeight := 1; baseRadius := 3; layerRadius := 1 |};
          typeDistribution :=
            {| apex := ["processor"]; base := ["sensor"; "memory"];
               middle := ["modulator"]; input := ["sensor"];
               compress := ["processor"]; center := ["memory"];
               expand := ["processor"]; output := ["modulator"] |};
          radius := 5; heightVariance := 1 |} |}.

Definition sampleStructure (kind : string) : StructureConfig :=
  {| nodeDistribution := kind; distanceThreshold := lit 3 10;
     connectionDensity := lit 1 2 |}.

(** A loaded catalogue: the four topologies and the two structures. *)
Definition sampleData : DataManager :=
  {| typeNames := ["sensor"; "processor"; "memory"; "modulator"];
     topologies :=
       <["funnel" := sampleConfig "funnel" 3 4 0]>
       (<["onion" := sampleConfig "onion" 3 4 0]>
       (<["smallworld" := sampleConfig "smallworld" 1 4 (1 # 10)]>
       (<["hourglass" := sampleConfig "hourglass" 5 4 0]> ∅)));
     structures :=
       <["sphere" := sampleStructure "fibonacci_sphere"]>
       (<["random" := sampleStructure "random"]> ∅) |}.

(** The topology names [DataManager.loadAll] fills in. *)
Definition catalogueNames : list string :=
  ["funnel"; "onion"; "smallworld"; "hourglass"].

(** The catalogue holds no other topology than the four it loads: it is
    empty before [loadAll] and after a failed one. *)
Definition loaded_or_empty (dm : DataManager) : Prop :=
  forall name, is_Some (topologies dm !! name) -> name ∈ catalogueNames.

(** The tags of the nodes of a structure of [n] nodes: the test [i < 8]
    comes first, so a node that is among the first 8 and the last 8 is an
    input. *)
Definition tags_follow_rule (n : nat) (ps : list Position.t) : Prop :=
  length ps = n /\
  forall i p, ps !! i = Some p ->
    (i < 8 -> Position.type p = Some "input") /\
    (8 <= i -> n <= i + 8 -> Position.type p = Some "output") /\
    (8 <= i -> i + 8 < n -> Position.type p = Some "internal").
(** ** The layer sizes in binary64

    [Double] is IEEE 754 binary64 with rounding to nearest, ties to even,
    as the Standard Library specifies it ([SpecFloat]). *)

Module Double.

Definition t : Type := SpecFloat.spec_float.
Definition prec : Z := 53.
Definition emax : Z := 1024.

Definition add : t -> t -> t := SpecFloat.SFadd prec emax.
Definition sub : t -> t -> t := SpecFloat.SFsub prec emax.
Definition mul : t -> t -> t := SpecFloat.SFmul prec emax.
Definition div : t -> t -> t := SpecFloat.SFdiv prec emax.

(** The double nearest to an integer; the integer itself up to [2^53]. *)
Definition of_Z (z : Z) : t := SpecFloat.binary_normalize prec emax z 0 false.
Definition of_nat (n : nat) : t := of_Z (Z.of_nat n).

(** The number a double denotes. *)
Definition value (x : t) : num :=
  match x with
  | SpecFloat.S754_zero _ => Fin 0
  | SpecFloat.S754_infinity s => if s then NInf else PInf
  | SpecFloat.S754_nan => NaN
  | SpecFloat.S754_finite s m e =>
      Fin (inject_Z (SpecFloat.cond_Zopp s (Zpos m)) * Qpower 2 e)
  end.

End Double.

(** [Math.max(1, Math.floor(1 + (targetCount - 1) * (ratio ** 2)))] with
    [ratio = layer / (numLayers - 1)] as the code evaluates it: every
    operation rounded to binary64, [ratio ** 2] being the product
    [ratio * ratio].  [Math.floor] and [Math.max] do not round: the floor of
    a double is a double. *)
Definition funnelCountDouble (numLayers targetCount layer : nat) : num :=
  let ratio :=
    Double.div (Double.of_nat layer)
      (Double.sub (Double.of_nat numLayers) (Double.of_nat 1)) in
  Math_max 1
    (Math_floor
       (Double.value
          (Double.add (Double.of_nat 1)
             (Double.mul
                (Double.sub (Double.of_nat targetCount) (Double.of_nat 1))
                (Double.mul ratio ratio))))).

(** [Math.round(centerCocoons + (endCocoons - centerCocoons) * ratio)] with
    [ratio = distFromCenter / maxDist], every operation rounded to binary64.
    [Math.round] takes the nearest integer of the value of its argument. *)
Definition hourglassCountDouble (config : TopologyConfig) (layer : nat)
  : num :=
  let numLayers := numLayers (parameters config) in
  let endCocoons := endCocoons (parameters config) in
  let centerCocoons := centerCocoons (parameters config) in
  let midLayer := numLayers / 2 in
  let distFromCenter := Z.abs_nat (Z.of_nat layer - Z.of_nat midLayer) in
  let maxDist := midLayer in
  let ratio :=
    Double.div (Double.of_nat distFromCenter) (Double.of_nat maxDist) in
  Math_round
    (Double.value
       (Double.add (Double.of_nat centerCocoons)
          (Double.mul
             (Double.sub (Double.of_nat endCocoons)
                (Double.of_nat centerCocoons))
             ratio))).

(** The body of the loop on [layer] of [generateFunnel] for a given value of
    [count]; [funnelLayer] is [funnelLayerFor] at [funnelCount]. *)
Definition funnelLayerFor (M : MathLib) (count : num)
  (config : TopologyConfig) (layer : nat) (st : Build) : Gen Build :=
  let numLayers := numLayers (parameters config) in
  let spacing := spacing (visualization config) in
  let typeDistribution := typeDistribution (visualization config) in
  let ratio := (layer / (numLayers - 1))%num in
  let y := ((layer - numLayers / 2) * layerHeight spacing)%num in
  let radius := (lit 1 2 + ratio * baseRadius spacing)%num in
  let st := set_layer layer [] st in
  let layerTypes :=
    if layer =? 0 then apex typeDistribution
    else if (Z.of_nat layer =? Z.of_nat numLayers - 1)%Z
         then base typeDistribution
         else middle typeDistribution in
  for_lt count (funnelNode M config layer count y radius layerTypes) st.

(** [generateFunnel] for given layer sizes. *)
Definition generateFunnelFor (M : MathLib) (config : TopologyConfig)
  (count : nat -> num) : Gen NetworkDescription :=
  let numLayers := numLayers (parameters config) in
  let* st :=
    for_range 0 numLayers
      (fun layer => funnelLayerFor M (count layer) config layer) start in
  ret (topologyResult st numLayers).

(** [generateFunnel] with the layer sizes of the code. *)
Definition generateFunnelDouble (M : MathLib) (config : TopologyConfig)
  (targetCount : nat) : Gen NetworkDescription :=
  generateFunnelFor M config
    (funnelCountDouble (numLayers (parameters config)) targetCount).

(** The body of the loop on [layer] of [generateHourglass] for a given value
    of [count]; [hourglassLayer] is [hourglassLayerFor] at
    [hourglassCount]. *)
Definition hourglassLayerFor (M : MathLib) (count : num)
  (config : TopologyConfig) (layer : nat) (st : Build) : Gen Build :=
  let numLayers := numLayers (parameters config) in
  let endCocoons := endCocoons (parameters config) in
  let spacing := spacing (visualization config) in
  let typeDistribution := typeDistribution (visualization config) in
  let midLayer := numLayers / 2 in
  let y := ((layer - midLayer) * layerHeight spacing)%num in
  let radius := (lit 1 2 + (count / endCocoons) * 3)%num in
  let st := set_layer layer [] st in
  let layerTypes :=
    if layer =? 0 then input typeDistribution
    else if layer <? midLayer then compress typeDistribution
    else if layer =? midLayer then center typeDistribution
    else if (Z.of_nat layer <? Z.of_nat numLayers - 1)%Z
         then expand typeDistribution
         else output typeDistribution in
  for_lt count (hourglassNode M layer count y radius layerTypes) st.

(** [generateHourglass] for given layer sizes. *)
Definition generateHourglassFor (M : MathLib) (config : TopologyConfig)
  (count : nat -> num) : Gen NetworkDescription :=
  let numLayers := numLayers (parameters config) in
  let* st :=
    for_range 0 numLayers
      (fun layer => hourglassLayerFor M (count layer) config layer) start in
  ret (topologyResult st numLayers).

(** [generateHourglass] with the layer sizes of the code; like the source it
    does not read [targetCount]. *)
Definition generateHourglassDouble (M : MathLib) (config : TopologyConfig)
  (targetCount : nat) : Gen NetworkDescription :=
  generateHourglassFor M config (hourglassCountDouble config).

(** A layer size that lets the loop on [i] end: not an infinity. *)
Definition bounded_count (count : num) : Prop :=
  count <> PInf /\ count <> NInf.

(** A config of an hourglass of [layers] layers. *)
Definition sampleHourglass (layers ends centre : nat) : TopologyConfig :=
  {| generator_type := "hourglass";
     parameters :=
       {| numLayers := layers; spiralOffset := None; kNeighbors := 4;
          rewireProb := 0; endCocoons := ends; centerCocoons := centre |};
     visualization := visualization (sampleConfig "hourglass" layers 4 0) |}.


(** ** Closed forms of the layered generators *)

(** The id of the first node of layer [l], for layer sizes [cnt]. *)
Fixpoint layerStart (cnt : nat -> nat) (l : nat) : nat :=
  match l with
  | 0 => 0
  | S l' => layerStart cnt l' + cnt l'
  end.

(** The [layer] fields of the positions of [n] complete layers. *)
Definition layerOrder (cnt : nat -> nat) (n : nat) : list (option nat) :=
  flat_map (fun l => replicate (cnt l) (Some l)) (seq 0 n).

(** [layerCocoonIds] and [cocoonId] inside the loop of [layer], after [i]
    nodes: the ids of a layer are consecutive, in the order of the
    positions. *)
Definition grouped (cnt : nat -> nat) (layer i : nat) (st : Build) : Prop :=
  List.map Position.layer (b_positions st)
    = layerOrder cnt layer ++ replicate i (Some layer) /\
  cocoonId st = layerStart cnt layer + i /\
  (forall l, l < layer ->
     layerCocoonIds st !! l = Some (seq (layerStart cnt l) (cnt l))) /\
  layerCocoonIds st !! layer = Some (seq (layerStart cnt layer) i).

(** Between two layers. *)
Definition grouped_done (cnt : nat -> nat) (L : nat) (st : Build) : Prop :=
  List.map Position.layer (b_positions st) = layerOrder cnt L /\
  cocoonId st = layerStart cnt L /\
  (forall l, l < L ->
     layerCocoonIds st !! l = Some (seq (layerStart cnt l) (cnt l))).

(** [list[i % list.length]]: the list read cyclically, [undefined] for an
    empty list. *)
Definition cycle_at (l : list string) (i : nat) : NodeType :=
  if length l =? 0 then None else l !! (i mod length l).

(** The links the fan-in block adds for node [i] of layer [l], in integers:
    predecessor [c] is number [(floor(i * prev / size) + c) mod prev] of the
    previous layer. *)
Definition fanIn (cnt : nat -> nat) (step : num) (l i : nat)
  : list Connection.t :=
  if (0 <? l) && (0 <? cnt (l - 1)) then
    List.map
      (fun c =>
         Connection.mk
           (Some (layerStart cnt (l - 1)
                  + (i * cnt (l - 1) / cnt l + c) mod cnt (l - 1)))
           (Some (layerStart cnt l + i))
           (1 - c * step)%num)
      (seq 0 (Nat.min 3 (cnt (l - 1))))
  else [].

(** All links of [n] layers. *)
Definition fanInLinks (cnt : nat -> nat) (step : num) (n : nat)
  : list Connection.t :=
  flat_map (fun l => flat_map (fanIn cnt step l) (seq 0 (cnt l))) (seq 0 n).

(** All types of [n] layers whose layer [l] cycles through [roles l]. *)
Definition cycledTypes (cnt : nat -> nat) (roles : nat -> list string)
  (n : nat) : list NodeType :=
  flat_map (fun l => List.map (cycle_at (roles l)) (seq 0 (cnt l))) (seq 0 n).

(** The type list of a layer of the funnel and of the hourglass. *)
Definition funnelRole (config : TopologyConfig) (layer : nat) : list string :=
  let typeDistribution := typeDistribution (visualization config) in
  if layer =? 0 then apex typeDistribution
  else if (Z.of_nat layer =? Z.of_nat (numLayers (parameters config)) - 1)%Z
       then base typeDistribution
       else middle typeDistribution.

Definition hourglassRole (config : TopologyConfig) (layer : nat)
  : list string :=
  let typeDistribution := typeDistribution (visualization config) in
  let midLayer := numLayers (parameters config) / 2 in
  if layer =? 0 then input typeDistribution
  else if layer <? midLayer then compress typeDistribution
  else if layer =? midLayer then center typeDistribution
  else if (Z.of_nat layer <? Z.of_nat (numLayers (parameters config)) - 1)%Z
       then expand typeDistribution
       else output typeDistribution.

(** A layer size that is an integer, or [NaN]. *)
Definition integral (count : num) : Prop :=
  count = NaN \/ exists q z, count = Fin q /\ (q == inject_Z z)%Q.

(** Inside the loop of [layer] of a fan-in generator, after [i] nodes: the
    links and the types so far. *)
Definition fanned (cnt : nat -> nat) (step : num) (roles : nat -> list string)
  (layer i : nat) (st : Build) : Prop :=
  b_connections st
    = fanInLinks cnt step layer ++ flat_map (fanIn cnt step layer) (seq 0 i) /\
  b_types st
    = cycledTypes cnt roles layer
      ++ List.map (cycle_at (roles layer)) (seq 0 i).

(** What the funnel ([step = 0.2], roles [funnelRole]) and the hourglass
    ([step = 0.15], roles [hourglassRole]) return for [n] layers of sizes
    [cnt]. *)
Definition fan_in_result (cnt : nat -> nat) (step : num)
  (roles : nat -> list string) (n : nat) (r : NetworkDescription) : Prop :=
  List.map Position.layer (positions r) = layerOrder cnt n /\
  types r = cycledTypes cnt roles n /\
  connections r = fanInLinks cnt step n /\
  layers r = Some n.

(** The positions are listed layer by layer: the layers never decrease along
    the list and all lie below [n]. *)
Definition layers_ascend (n : nat) (ps : list Position.t) : Prop :=
  (forall id p, ps !! id = Some p ->
     exists l, Position.layer p = Some l /\ l < n) /\
  (forall i j pi pj li lj,
     i <= j -> ps !! i = Some pi -> ps !! j = Some pj ->
     Position.layer pi = Some li -> Position.layer pj = Some lj -> li <= lj).

(** The number of links that enter node [id]. *)
Definition inDegree (cs : list Connection.t) (id : nat) : nat :=
  length (List.filter
            (fun c => match Connection.to c with
                      | Some t => t =? id
                      | None => false
                      end) cs).

(** The endpoints of the links. *)
Definition endpoints (cs : list Connection.t)
  : list (option nat * option nat) :=
  List.map (fun c => (Connection.from c, Connection.to c)) cs.

(** The number of links of [n] layers when every node above layer 0 gets
    [min 3 (size of the previous layer)] links. *)
Fixpoint fanInTotal (cnt : nat -> nat) (n : nat) : nat :=
  match n with
  | 0 => 0
  | S l =>
      fanInTotal cnt l
      + cnt l * (if l =? 0 then 0 else Nat.min 3 (cnt (l - 1)))
  end.

(** ** The onion *)

(** A link of the onion: into node [i] of a layer [l >= 1], from a node of
    layer [l - 1], with weight 0.8. *)
Definition onionLink (cnt : nat -> nat) (c : Connection.t) : Prop :=
  exists l i f,
    0 < l /\ i < cnt l /\
    Connection.to c = Some (layerStart cnt l + i) /\
    Connection.from c = Some f /\
    layerStart cnt (l - 1) <= f < layerStart cnt l /\
    Connection.weight c = lit 4 5.

(** [typeNames[Math.floor(Math.random() * 4)]]: one of the first four
    entries of the catalogue, [undefined] where it is shorter. *)
Definition firstFour (names : list string) (t : NodeType) : Prop :=
  exists k, k < 4 /\ t = names !! k.

(** The links and the types of the onion under construction: the targets of
    the links are node ids in increasing order, none twice. *)
Definition onion_inv (cnt : nat -> nat) (names : list string) (st : Build)
  : Prop :=
  Forall (onionLink cnt) (b_connections st) /\
  sublist (List.map Connection.to (b_connections st))
          (List.map Some (seq 0 (cocoonId st))) /\
  Forall (firstFour names) (b_types st).

(** ** The hourglass *)

(** [distFromCenter] in the loop of [generateHourglass]. *)
Definition distFromCenter (config : TopologyConfig) (L : nat) : nat :=
  Z.abs_nat (Z.of_nat L - Z.of_nat (numLayers (parameters config) / 2)).

(** The argument of [Math.round] in the layer size of the hourglass, for at
    least two layers. *)
Definition hourglassArg (config : TopologyConfig) (L : nat) : Q :=
  (inject_Z (Z.of_nat (centerCocoons (parameters config)))
   + (inject_Z (Z.of_nat (endCocoons (parameters config)))
      - inject_Z (Z.of_nat (centerCocoons (parameters config))))
     * (inject_Z (Z.of_nat (distFromCenter config L))
        / inject_Z (Z.of_nat (numLayers (parameters config) / 2))))%Q.

(** ** The small world *)

(** The [from] fields of the links when each of [n] nodes gets [h] links, in
    the order of the two loops. *)
Definition outLinks (n h : nat) : list (option nat) :=
  flat_map (fun i => replicate h (Some i)) (seq 0 n).



(** ** The structure generators *)

(** The pairs [(i, j)], [i < j < n], the double loop of a structure
    generator visits, in its order. *)
Definition pairsFrom (n i : nat) : list (option nat * option nat) :=
  List.map (fun j => (Some i, Some j)) (seq (i + 1) (n - (i + 1))).

Definition allPairs (n : nat) : list (option nat * option nat) :=
  flat_map (pairsFrom n) (seq 0 n).

(** A coordinate in the half-open interval [[-3, 3)]. *)
Definition in_cube (v : num) : Prop :=
  exists q, v = Fin q /\ (-3 <= q)%Q /\ (q < 3)%Q.

(** * Proofs *)

Local Open Scope nat_scope.
Local Open Scope gen_scope.

(** ** Numbers: comparisons, remainders and subscripts *)

Lemma Qeq_bool_false (p q : Q) : ~ (p == q)%Q -> Qeq_bool p q = false.
Proof.
  intros H. destruct (Qeq_bool p q) eqn:E; [|reflexivity].
  apply Qeq_bool_iff in E. contradiction.
Qed.

Lemma Qle_bool_true (p q : Q) : (p <= q)%Q -> Qle_bool p q = true.
Proof. apply Qle_bool_iff. Qed.

Lemma Qle_bool_false (p q : Q) : (q < p)%Q -> Qle_bool p q = false.
Proof.
  intros H. destruct (Qle_bool p q) eqn:E; [|reflexivity].
  apply Qle_bool_iff in E. exfalso. eapply Qlt_not_le; eauto.
Qed.

Lemma inject_Z_nonneg (z : Z) : (0 <= z)%Z -> (0 <= inject_Z z)%Q.
Proof. intros H. change 0%Q with (inject_Z 0). now rewrite <- Zle_Qle. Qed.

(** A non-negative integer is the index it holds. *)
Lemma index_of_integer (q : Q) (z : Z) :
  (q == inject_Z z)%Q -> (0 <= z)%Z -> index_of (Fin q) = Some (Z.to_nat z).
Proof.
  intros Hq Hz. unfold index_of, is_integer.
  assert (Hf : Qfloor q = z) by (rewrite (Qfloor_comp _ _ Hq); apply Qfloor_Z).
  rewrite Hf.
  assert (E1 : Qeq_bool q (inject_Z z) = true) by now apply Qeq_bool_iff.
  assert (E2 : Qle_bool 0 q = true).
  { apply Qle_bool_iff. rewrite Hq. now apply inject_Z_nonneg. }
  now rewrite E1, E2.
Qed.

Lemma Qtrunc_nonneg (q : Q) : (0 <= q)%Q -> Qtrunc q = Qfloor q.
Proof. intros H. unfold Qtrunc. now rewrite Qle_bool_true. Qed.

(** The remainder of non-negative integers is the integer remainder. *)
Lemma rem_integer (p : Q) (a : Z) (b : nat) :
  (p == inject_Z a)%Q -> (0 <= a)%Z -> 0 < b ->
  exists r, rem (Fin p) (of_nat b) = Fin r /\
            (r == inject_Z (a mod Z.of_nat b))%Q.
Proof.
  intros Hp Ha Hb. unfold rem, of_nat, of_Z.
  assert (Hb' : (0 < Z.of_nat b)%Z) by lia.
  assert (Hnz : ~ (inject_Z (Z.of_nat b) == 0)%Q).
  { intros E. change 0%Q with (inject_Z 0) in E.
    apply (proj1 (inject_Z_injective _ _)) in E. lia. }
  rewrite (Qeq_bool_false _ _ Hnz).
  eexists; split; [reflexivity|].
  assert (Hdiv : (0 <= p / inject_Z (Z.of_nat b))%Q).
  { rewrite Hp. apply Qle_shift_div_l.
    - change 0%Q with (inject_Z 0). rewrite <- Zlt_Qlt. lia.
    - rewrite Qmult_0_l. now apply inject_Z_nonneg. }
  rewrite (Qtrunc_nonneg _ Hdiv).
  assert (Hfl : Qfloor (p / inject_Z (Z.of_nat b)) = (a / Z.of_nat b)%Z).
  { rewrite Zdiv_Qdiv. apply Qfloor_comp. now rewrite Hp. }
  rewrite Hfl, Hp.
  rewrite <- inject_Z_mult. unfold Qminus.
  rewrite <- inject_Z_opp, <- inject_Z_plus.
  rewrite Z.mod_eq by lia. apply inject_Z_injective. reflexivity.
Qed.

Lemma lt_Fin (p q : Q) : (Fin p <? Fin q)%num = true <-> (p < q)%Q.
Proof.
  unfold lt. rewrite negb_true_iff. split.
  - intros E. apply Qnot_le_lt. intros H. apply Qle_bool_iff in H. congruence.
  - intros H. now apply Qle_bool_false.
Qed.

Lemma lt_Fin_false (p q : Q) : (Fin p <? Fin q)%num = false <-> (q <= p)%Q.
Proof.
  unfold lt. rewrite negb_false_iff. apply Qle_bool_iff.
Qed.


Lemma tripCount_Ok (bound : num) (d : nat) :
  bound <> PInf -> tripCount bound d = Ok (tripN bound, d).
Proof. destruct bound; intros H; try reflexivity. congruence. Qed.

(** Inside a loop [i < bound] the bound is a finite number above [i]. *)
Lemma tripN_below (bound : num) (i : nat) :
  i < tripN bound -> exists q, bound = Fin q /\ (inject_Z (Z.of_nat i) < q)%Q.
Proof.
  destruct bound as [q| | |]; simpl; try lia.
  intros H. exists q. split; [reflexivity|].
  assert (Hc : (Z.of_nat i <= Qceiling q - 1)%Z) by lia.
  eapply Qle_lt_trans; [|apply Qceiling_lt].
  now rewrite <- Zle_Qle.
Qed.

(** The subscript [(Math.floor(i * len / count) + c) % len] is an index of
    an array of [len > 0] elements. *)
Lemma prevIdx_index (i len c : nat) (qc : Q) :
  (inject_Z (Z.of_nat i) < qc)%Q -> 0 < len ->
  exists k, k < len /\
    index_of (rem (Math_floor (of_nat i * of_nat len / Fin qc) + of_nat c)%num
                (of_nat len)) = Some k.
Proof.
  intros Hi Hlen.
  assert (Hqc : (0 < qc)%Q).
  { eapply Qle_lt_trans; [|exact Hi]. apply inject_Z_nonneg. lia. }
  assert (Hnz : ~ (qc == 0)%Q).
  { intros E. rewrite E in Hqc. now apply Qlt_irrefl in Hqc. }
  unfold of_nat at 1 2, of_Z. cbn [mul div]. rewrite (Qeq_bool_false _ _ Hnz).
  cbn [Math_floor]. unfold of_nat at 1, of_Z at 1 2. cbn [add].
  set (z := Qfloor (inject_Z (Z.of_nat i) * inject_Z (Z.of_nat len) / qc)).
  assert (Hz : (0 <= z)%Z).
  { unfold z. change 0%Z with (Qfloor 0). apply Qfloor_resp_le.
    apply Qle_shift_div_l; [exact Hqc|]. rewrite Qmult_0_l.
    rewrite <- inject_Z_mult. apply inject_Z_nonneg. lia. }
  destruct (rem_integer (inject_Z z + inject_Z (Z.of_nat c))
              (z + Z.of_nat c) len) as (r & Er & Hr).
  - now rewrite inject_Z_plus.
  - lia.
  - exact Hlen.
  - rewrite Er. exists (Z.to_nat ((z + Z.of_nat c) mod Z.of_nat len)). split.
    + pose proof (Z.mod_pos_bound (z + Z.of_nat c) (Z.of_nat len)). lia.
    + apply index_of_integer; [exact Hr|]. apply Z.mod_pos_bound. lia.
Qed.

(** The ring neighbour [(i + j) % n] of a ring of [n > 0] nodes. *)
Lemma ring_index (i j n : nat) :
  0 < n ->
  index_of (rem (of_nat i + of_nat j)%num (of_nat n)) = Some ((i + j) mod n).
Proof.
  intros Hn. unfold of_nat at 1 2, of_Z. cbn [add].
  destruct (rem_integer (inject_Z (Z.of_nat i) + inject_Z (Z.of_nat j))
              (Z.of_nat (i + j)) n) as (r & Er & Hr).
  - rewrite <- inject_Z_plus. now rewrite Nat2Z.inj_add.
  - lia.
  - exact Hn.
  - rewrite Er. rewrite (index_of_integer r _ Hr).
    + f_equal. rewrite <- Nat2Z.inj_mod. apply Nat2Z.id.
    + apply Z.mod_pos_bound. lia.
Qed.


(** [Math.floor(Math.random() * n)] is the number of one of [n > 0] nodes. *)
Lemma draw_index (r : Q) (n : nat) :
  (0 <= r)%Q -> (r < 1)%Q -> 0 < n ->
  exists k, k < n /\ Math_floor (Fin r * of_nat n)%num = of_nat k.
Proof.
  intros H0 H1 Hn. unfold of_nat at 1, of_Z. cbn [mul Math_floor].
  set (z := Qfloor (r * inject_Z (Z.of_nat n))).
  assert (Hz0 : (0 <= z)%Z).
  { unfold z. change 0%Z with (Qfloor 0). apply Qfloor_resp_le.
    apply Qmult_le_0_compat; [exact H0|]. apply inject_Z_nonneg. lia. }
  assert (Hz1 : (z < Z.of_nat n)%Z).
  { rewrite Zlt_Qlt. eapply Qle_lt_trans; [apply Qfloor_le|].
    rewrite <- (Qmult_1_l (inject_Z (Z.of_nat n))) at 2.
    apply Qmult_lt_compat_r; [|exact H1].
    change 0%Q with (inject_Z 0). rewrite <- Zlt_Qlt. lia. }
  exists (Z.to_nat z). split; [lia|].
  unfold of_nat. now rewrite Z2Nat.id.
Qed.

Lemma index_of_nat (k : nat) : index_of (of_nat k) = Some k.
Proof.
  unfold of_nat, of_Z. rewrite (index_of_integer _ (Z.of_nat k)).
  - now rewrite Nat2Z.id.
  - reflexivity.
  - lia.
Qed.

(** ** Loops and the invariants of the layered construction *)

Section Loops.
Context {S : Type}.

(** A loop whose body always returns and keeps the invariant [I] returns,
    with the invariant. *)
Lemma forEach_seq_total (I : nat -> S -> nat -> Prop)
  (body : nat -> S -> Gen S) (n a : nat) (s : S) (d : nat) :
  I a s d ->
  (forall i s d, a <= i < a + n -> I i s d ->
     exists s' d', body i s d = Ok (s', d') /\ I (i + 1) s' d') ->
  exists s' d', forEach (seq a n) body s d = Ok (s', d') /\ I (a + n) s' d'.
Proof.
  revert a s d. induction n as [|n IH]; intros a s d H0 Hstep.
  - exists s, d. split; [reflexivity|]. now rewrite Nat.add_0_r.
  - destruct (Hstep a s d) as (s1 & d1 & E1 & H1); [lia|exact H0|].
    destruct (IH (a + 1) s1 d1) as (s2 & d2 & E2 & H2).
    + exact H1.
    + intros i s' d' Hi. apply Hstep. lia.
    + exists s2, d2. split.
      * cbn [seq forEach]. unfold bind. rewrite E1.
        replace (Datatypes.S a) with (a + 1) by lia. exact E2.
      * replace (a + Datatypes.S n) with (a + 1 + n) by lia. exact H2.
Qed.

(** A loop whose body keeps the invariant [I] keeps it when it returns. *)
Lemma forEach_seq_partial (I : nat -> S -> nat -> Prop)
  (body : nat -> S -> Gen S) (n a : nat) (s : S) (d : nat) (s' : S)
  (d' : nat) :
  I a s d ->
  (forall i s d s' d', a <= i < a + n -> I i s d ->
     body i s d = Ok (s', d') -> I (i + 1) s' d') ->
  forEach (seq a n) body s d = Ok (s', d') -> I (a + n) s' d'.
Proof.
  revert a s d. induction n as [|n IH]; intros a s d H0 Hstep E.
  - cbn in E. injection E as <- <-. now rewrite Nat.add_0_r.
  - cbn [seq forEach] in E. unfold bind in E.
    destruct (body a s d) as [[s1 d1]| |] eqn:E1; try discriminate.
    replace (a + Datatypes.S n) with (a + 1 + n) by lia.
    apply (IH (a + 1) s1 d1).
    + eapply Hstep; [|exact H0|exact E1]. lia.
    + intros i s2 d2 s3 d3 Hi. apply Hstep. lia.
    + replace (a + 1) with (Datatypes.S a) by lia. exact E.
Qed.

End Loops.

Ltac build_simpl :=
  cbn [b_positions b_connections b_types cocoonId layerCocoonIds
       next_id add_connections set_layer push_type push_position
       push_connection start] in *.

Lemma layer_at_app (ps : list Position.t) (p : Position.t) (id l : nat) :
  layer_at ps id = Some l -> layer_at (ps ++ [p]) id = Some l.
Proof.
  unfold layer_at. destruct (ps !! id) as [q|] eqn:E; [|discriminate].
  intros H. now rewrite (lookup_app_l_Some _ _ _ _ E).
Qed.

Lemma layer_at_new (ps : list Position.t) (p : Position.t) :
  layer_at (ps ++ [p]) (length ps) = Position.layer p.
Proof.
  unfold layer_at. rewrite lookup_app_r by lia.
  now rewrite Nat.sub_diag.
Qed.

Lemma adjacent_app (ps : list Position.t) (p : Position.t) (c : Connection.t) :
  links_adjacent_layers ps c -> links_adjacent_layers (ps ++ [p]) c.
Proof.
  intros (f & t & l & Hf & Ht & Lf & Lt).
  exists f, t, l. repeat split; try assumption; now apply layer_at_app.
Qed.

Lemma nodesInLayer_app (ps : list Position.t) (p : Position.t) (l : nat) :
  nodesInLayer (ps ++ [p]) l =
  nodesInLayer ps l + (if in_layer l p then 1 else 0).
Proof.
  unfold nodesInLayer. rewrite List.filter_app, length_app. cbn.
  now destruct (in_layer l p).
Qed.

Lemma well_formed_start : well_formed start.
Proof.
  split; cbn; try reflexivity.
  - intros l ids id H. now rewrite lookup_empty in H.
  - intros c H. now apply not_elem_of_nil in H.
Qed.

Lemma layers_done_start (cnt : nat -> nat) : layers_done cnt 0 start.
Proof. split; [intros l H; lia | intros l; reflexivity]. Qed.

(** Adding a node keeps the construction well formed. *)
Lemma node_added_well_formed (layer : nat) (st st' : Build) :
  well_formed st -> node_added layer st st' -> well_formed st'.
Proof.
  intros [Hn Ht Hi Hc] (p & t & ids & cs & Hp & Hids & Hcs & ->).
  split; cbn.
  - rewrite length_app. cbn. lia.
  - rewrite !length_app. cbn. lia.
  - intros l ids' id Hl Hid.
    destruct (decide (layer = l)) as [<-|Hne].
    + rewrite lookup_insert_eq in Hl. injection Hl as <-.
      apply elem_of_app in Hid as [Hid|Hid].
      * apply layer_at_app. eauto.
      * apply list_elem_of_singleton in Hid as ->.
        rewrite Hn, layer_at_new. exact Hp.
    + rewrite lookup_insert_ne in Hl by exact Hne.
      apply layer_at_app. eauto.
  - intros c Hin. apply elem_of_app in Hin as [Hin|Hin].
    + apply adjacent_app. auto.
    + destruct (Hcs c Hin) as (Hpos & Hto & prev & f & Hprev & Hfrom & Hf).
      exists f, (cocoonId st), (layer - 1). repeat split; try assumption.
      * apply layer_at_app. eauto.
      * rewrite Hn, layer_at_new, Hp. f_equal. lia.
Qed.

Lemma node_added_layer_open (cnt : nat -> nat) (layer i : nat)
  (st st' : Build) :
  layer_open cnt layer i st -> node_added layer st st' ->
  layer_open cnt layer (i + 1) st'.
Proof.
  intros (Hlow & (ids0 & Hids0 & Hlen) & Hcount)
         (p & t & ids & cs & Hp & Hids & Hcs & ->).
  rewrite Hids0 in Hids. injection Hids as <-.
  split; [|split]; build_simpl.
  - intros l Hl. rewrite lookup_insert_ne by lia. auto.
  - exists (ids0 ++ [cocoonId st]). rewrite lookup_insert_eq.
    split; [reflexivity|]. rewrite length_app. cbn. lia.
  - intros l. rewrite nodesInLayer_app, Hcount. unfold in_layer. rewrite Hp.
    destruct (l <? layer) eqn:E1, (l =? layer) eqn:E2, (layer =? l) eqn:E3;
      try lia;
      apply Nat.ltb_lt in E1 || apply Nat.ltb_ge in E1;
      apply Nat.eqb_eq in E2 || apply Nat.eqb_neq in E2;
      apply Nat.eqb_eq in E3 || apply Nat.eqb_neq in E3; lia.
Qed.

(** [layerCocoonIds[layer] = []] opens the next layer. *)
Lemma open_layer (cnt : nat -> nat) (layer : nat) (st : Build) :
  well_formed st -> layers_done cnt layer st ->
  well_formed (set_layer layer [] st) /\
  layer_open cnt layer 0 (set_layer layer [] st).
Proof.
  intros [Hn Ht Hi Hc] [Hlow Hcount]. split.
  - split; cbn; try assumption.
    intros l ids id Hl Hid.
    destruct (decide (layer = l)) as [<-|Hne].
    + rewrite lookup_insert_eq in Hl. injection Hl as <-.
      now apply not_elem_of_nil in Hid.
    + rewrite lookup_insert_ne in Hl by exact Hne. eauto.
  - split; [|split]; build_simpl.
    + intros l Hl. rewrite lookup_insert_ne by lia. auto.
    + exists []. now rewrite lookup_insert_eq.
    + intros l. rewrite Hcount.
      destruct (l <? layer) eqn:E1; [reflexivity|].
      now destruct (l =? layer).
Qed.

Lemma close_layer (cnt : nat -> nat) (layer : nat) (st : Build) :
  layer_open cnt layer (cnt layer) st -> layers_done cnt (layer + 1) st.
Proof.
  intros (Hlow & (ids & Hids & Hlen) & Hcount). split.
  - intros l Hl. destruct (decide (l = layer)) as [->|Hne].
    + eauto.
    + apply Hlow. lia.
  - intros l. rewrite Hcount.
    destruct (l <? layer) eqn:E1, (l =? layer) eqn:E2, (l <? layer + 1) eqn:E3;
      try reflexivity;
      apply Nat.ltb_lt in E1 || apply Nat.ltb_ge in E1;
      apply Nat.eqb_eq in E2 || apply Nat.eqb_neq in E2;
      apply Nat.ltb_lt in E3 || apply Nat.ltb_ge in E3; subst; lia.
Qed.

(** ** The layered generators: one layer, all layers, the fan-in block *)

(** The loop on [i] of one layer, for any body that adds a node. *)
Lemma layer_loop (cnt : nat -> nat) (layer : nat) (bound : num)
  (node : nat -> Build -> Gen Build) (st : Build) (d : nat) :
  bound <> PInf -> cnt layer = tripN bound ->
  (forall i st d, i < tripN bound -> well_formed st ->
     layer_open cnt layer i st ->
     exists st' d', node i st d = Ok (st', d') /\ node_added layer st st') ->
  well_formed st -> layers_done cnt layer st ->
  exists st' d',
    for_lt bound node (set_layer layer [] st) d = Ok (st', d') /\
    well_formed st' /\ layers_done cnt (layer + 1) st'.
Proof.
  intros Hfin Hcnt Hnode Hwf Hdone.
  unfold for_lt, bind. rewrite (tripCount_Ok _ _ Hfin).
  destruct (open_layer cnt layer st Hwf Hdone) as [Hwf0 Hopen0].
  destruct (forEach_seq_total
              (fun i st _ => well_formed st /\ layer_open cnt layer i st)
              node (tripN bound) 0 (set_layer layer [] st) d)
    as (st' & d' & E & Hwf' & Hopen').
  - now split.
  - intros i s d0 Hi [Hw Ho].
    destruct (Hnode i s d0) as (s' & d1 & E & Hadd); [lia|assumption..|].
    exists s', d1. split; [exact E|]. split.
    + eapply node_added_well_formed; eassumption.
    + eapply node_added_layer_open; eassumption.
  - exists st', d'. split; [exact E|]. split; [exact Hwf'|].
    apply close_layer. cbn in Hopen'. now rewrite Hcnt.
Qed.

(** The loop on [layer], for any body that completes a layer. *)
Lemma layers_loop (cnt : nat -> nat) (n : nat)
  (body : nat -> Build -> Gen Build) (d : nat) :
  (forall layer st d, layer < n -> well_formed st ->
     layers_done cnt layer st ->
     exists st' d', body layer st d = Ok (st', d') /\
       well_formed st' /\ layers_done cnt (layer + 1) st') ->
  exists st' d',
    for_range 0 n body start d = Ok (st', d') /\
    well_formed st' /\ layers_done cnt n st'.
Proof.
  intros Hbody. unfold for_range. rewrite Nat.sub_0_r.
  destruct (forEach_seq_total
              (fun l st _ => well_formed st /\ layers_done cnt l st)
              body n 0 start d) as (st' & d' & E & H).
  - split; [apply well_formed_start | apply layers_done_start].
  - intros l s d0 Hl [Hw Hd].
    destruct (Hbody l s d0) as (s' & d1 & E & H); [lia|assumption..|].
    now exists s', d1.
  - now exists st', d'.
Qed.

Lemma add_connections_nil (st : Build) : add_connections [] st = st.
Proof. destruct st. unfold add_connections. cbn. now rewrite app_nil_r. Qed.

Lemma push_add_connections (c : Connection.t) (cs : list Connection.t)
  (st : Build) :
  push_connection c (add_connections cs st) = add_connections (cs ++ [c]) st.
Proof. unfold push_connection, add_connections. cbn. now rewrite app_assoc. Qed.

(** The fan-in block adds links from ids of the previous layer to the node
    being added, and none on layer 0 or after an empty layer. *)
Lemma connectToPrevious_spec (step : num) (layer i : nat) (count : num)
  (qc : Q) (st : Build) (d : nat) :
  count = Fin qc -> (inject_Z (Z.of_nat i) < qc)%Q ->
  (0 < layer -> is_Some (layerCocoonIds st !! (layer - 1))) ->
  exists cs,
    connectToPrevious step layer i count st d = Ok (add_connections cs st, d) /\
    forall c, c ∈ cs ->
      0 < layer /\ Connection.to c = Some (cocoonId st) /\
      exists prev f, layerCocoonIds st !! (layer - 1) = Some prev /\
                     Connection.from c = Some f /\ f ∈ prev.
Proof.
  intros -> Hi Hprev. unfold connectToPrevious.
  destruct (0 <? layer) eqn:El.
  2:{ exists []. rewrite add_connections_nil. split; [reflexivity|].
      intros c Hc. now apply not_elem_of_nil in Hc. }
  apply Nat.ltb_lt in El. destruct (Hprev El) as [prev Eprev].
  unfold bind. rewrite Eprev. cbn [defined ret].
  destruct (0 <? length prev) eqn:Elen.
  2:{ exists []. rewrite add_connections_nil. split; [reflexivity|].
      intros c Hc. now apply not_elem_of_nil in Hc. }
  apply Nat.ltb_lt in Elen.
  set (good := fun c : Connection.t =>
         Connection.to c = Some (cocoonId st) /\
         exists f, Connection.from c = Some f /\ f ∈ prev).
  unfold for_range.
  match goal with
  | |- context [forEach _ ?b st d] =>
      destruct (forEach_seq_total
                  (fun (_ : nat) s d0 =>
                     d0 = d /\
                     exists cs, s = add_connections cs st /\ Forall good cs)
                  b (Nat.min 3 (length prev) - 0) 0 st d)
        as (s' & d' & E & -> & cs & -> & Hcs)
  end.
  - split; [reflexivity|]. exists []. now rewrite add_connections_nil.
  - intros c s d0 _ (-> & cs & -> & Hcs).
    destruct (prevIdx_index i (length prev) c qc Hi Elen) as (k & Hk & Ek).
    destruct (lookup_lt_is_Some_2 prev k Hk) as [f Ef].
    eexists _, d. split; [reflexivity|]. split; [reflexivity|].
    eexists. split; [apply push_add_connections|].
    apply Forall_app. split; [exact Hcs|]. apply Forall_singleton.
    split; [reflexivity|]. exists f. cbn [Connection.from].
    unfold subscript. rewrite Ek. split; [exact Ef|].
    eapply list_elem_of_lookup_2; eassumption.
  - exists cs. split; [exact E|].
    intros c Hc. rewrite Forall_forall in Hcs.
    destruct (Hcs c Hc) as (Hto & f & Hf & Hin).
    split; [exact El|]. split; [exact Hto|]. eauto.
Qed.

(** Any node body of the shape "position, type, id, fan-in, next id". *)
Lemma fan_in_node_added (step : num) (cnt : nat -> nat) (layer i : nat)
  (count : num) (p : Position.t) (t : NodeType) (st : Build) (d : nat) :
  Position.layer p = Some layer ->
  i < tripN count -> layer_open cnt layer i st ->
  exists st',
    (let st := push_position p st in
     let st := push_type t st in
     let* st := push_layer_id layer st in
     let* st := connectToPrevious step layer i count st in
     ret (next_id st)) d = Ok (st', d) /\
    node_added layer st st'.
Proof.
  intros Hp Hi (Hlow & (ids & Hids & Hlen) & Hcount).
  destruct (tripN_below _ _ Hi) as (qc & Hc & Hlt).
  cbn zeta. unfold bind at 1, push_layer_id at 1, bind at 1.
  build_simpl. rewrite Hids. cbn [defined ret].
  unfold bind.
  destruct (connectToPrevious_spec step layer i count qc
              (set_layer layer (ids ++ [cocoonId st])
                 (push_type t (push_position p st))) d Hc Hlt)
    as (cs & E & Hcs).
  { intros Hl. build_simpl. rewrite lookup_insert_ne by lia.
    destruct (Hlow (layer - 1)) as (prev & Hprev & _); [lia|].
    now exists prev. }
  build_simpl. rewrite E. eexists. split; [reflexivity|].
  exists p, t, ids, cs. repeat split; try assumption;
    destruct (Hcs c H) as (Hl & Hto & prev & f & Hprev & Hfrom & Hin).
  - exact Hl.
  - exact Hto.
  - build_simpl. rewrite lookup_insert_ne in Hprev by lia. eauto.
Qed.

Section Funnel.
Context (M : MathLib).

Lemma funnelNode_added (config : TopologyConfig) (cnt : nat -> nat)
  (layer : nat) (count y radius : num) (layerTypes : list string)
  (i : nat) (st : Build) (d : nat) :
  i < tripN count -> layer_open cnt layer i st ->
  exists st' d',
    funnelNode M config layer count y radius layerTypes i st d = Ok (st', d') /\
    node_added layer st st'.
Proof.
  intros Hi Hopen. unfold funnelNode. cbn zeta.
  edestruct (fan_in_node_added (lit 1 5) cnt layer i count) as (st' & E & H);
    [| exact Hi | exact Hopen |].
  2:{ exists st', d. split; [exact E | exact H]. }
  reflexivity.
Qed.

End Funnel.

(** ** Layer sizes *)

Lemma Math_max_Fin (p q : Q) :
  exists r, Math_max (Fin p) (Fin q) = Fin r /\
            ((p < q)%Q /\ r = q \/ (q <= p)%Q /\ r = p).
Proof.
  unfold Math_max. destruct (Fin p <? Fin q)%num eqn:E.
  - exists q. split; [reflexivity|]. left. split; [|reflexivity].
    now apply lt_Fin.
  - exists p. split; [reflexivity|]. right. split; [|reflexivity].
    now apply lt_Fin_false.
Qed.

Lemma Math_max_integer (a b : Z) :
  exists r, Math_max (of_Z a) (of_Z b) = Fin r /\ (r == inject_Z (Z.max a b))%Q.
Proof.
  unfold of_Z. destruct (Math_max_Fin (inject_Z a) (inject_Z b)) as (r & E & H).
  exists r. split; [exact E|].
  destruct H as [[H ->]|[H ->]].
  - rewrite <- Zlt_Qlt in H. now rewrite Z.max_r by lia.
  - rewrite <- Zle_Qle in H. now rewrite Z.max_l by lia.
Qed.

Lemma tripN_integer (q : Q) (z : Z) :
  (q == inject_Z z)%Q -> tripN (Fin q) = Z.to_nat z.
Proof.
  intros H. cbn. now rewrite (Qceiling_comp _ _ H), Qceiling_Z.
Qed.

(** The only layer of a single-layer funnel: [0 / 0] makes the count [NaN]. *)
Lemma funnelCount_single (targetCount : nat) :
  funnelCount 1 targetCount 0 = NaN.
Proof. reflexivity. Qed.

(** With more than one layer the funnel count is the integer of the formula. *)
Lemma funnelCount_formula (numLayers targetCount layer : nat) :
  numLayers <> 1 ->
  exists q, funnelCount numLayers targetCount layer = Fin q /\
            (q == inject_Z (funnelLayerSize numLayers targetCount layer))%Q.
Proof.
  intros Hn. unfold funnelCount, of_nat, of_Z. cbn [sub neg add div].
  assert (Hnz : ~ (inject_Z (Z.of_nat numLayers) + - inject_Z (Z.of_nat 1)
                   == 0)%Q).
  { intros E. rewrite <- inject_Z_opp, <- inject_Z_plus in E.
    change 0%Q with (inject_Z 0) in E.
    apply (proj1 (inject_Z_injective _ _)) in E. lia. }
  rewrite (Qeq_bool_false _ _ Hnz). cbn [sqr mul add Math_floor].
  apply (Math_max_integer 1).
Qed.

Lemma funnelCount_finite (numLayers targetCount layer : nat) :
  layer < numLayers -> funnelCount numLayers targetCount layer <> PInf.
Proof.
  intros Hl. destruct (decide (numLayers = 1)) as [->|Hn].
  - replace layer with 0 by lia. discriminate.
  - destruct (funnelCount_formula numLayers targetCount layer Hn)
      as (q & -> & _).
    discriminate.
Qed.

(** An onion layer has at least one node. *)
Lemma onionCount_formula (targetCount layer : nat) :
  exists q z, onionCount targetCount layer = Fin q /\
              (q == inject_Z z)%Q /\ (1 <= z)%Z.
Proof.
  unfold onionCount, of_nat, of_Z. cbn [mul add div].
  rewrite Qeq_bool_false by discriminate. cbn [Math_floor].
  match goal with |- context [of_Z (Qfloor ?x)] => set (z := Qfloor x) end.
  destruct (Math_max_integer 1 z) as (r & E & H).
  exists r, (Z.max 1 z). split; [exact E|]. split; [exact H|]. lia.
Qed.

(** No layer size of the hourglass is infinite. *)
Lemma hourglassCount_finite (config : TopologyConfig) (layer : nat) :
  layer < numLayers (parameters config) -> hourglassCount config layer <> PInf.
Proof.
  intros Hl. unfold hourglassCount.
  set (mid := numLayers (parameters config) / 2).
  destruct (decide (mid = 0)) as [E|E].
  - assert (layer = 0) as ->.
    { unfold mid in E. apply Nat.div_small_iff in E; lia. }
    rewrite E. cbn. discriminate.
  - unfold of_nat, of_Z. cbn [div].
    rewrite Qeq_bool_false.
    + cbn. discriminate.
    + intros H. change 0%Q with (inject_Z 0) in H.
      apply (proj1 (inject_Z_injective _ _)) in H. lia.
Qed.

(** ** Funnel, hourglass and onion build complete layers *)

Section Layered.
Context (M : MathLib) (rand : nat -> Q) (dm : DataManager).

Lemma generateFunnel_built (config : TopologyConfig) (targetCount d : nat) :
  exists r d',
    generateFunnel M config targetCount d = Ok (r, d') /\
    built (funnelCnt config targetCount) (numLayers (parameters config)) r.
Proof.
  unfold generateFunnel, bind.
  destruct (layers_loop (funnelCnt config targetCount)
              (numLayers (parameters config))
              (funnelLayer M config targetCount) d) as (st & d' & E & Hw & Hd).
  - intros layer st d0 Hl Hw Hd. unfold funnelLayer. cbn zeta.
    apply (layer_loop (funnelCnt config targetCount)); try assumption.
    + now apply funnelCount_finite.
    + reflexivity.
    + intros i s d1 Hi _ Hopen. eapply funnelNode_added; eassumption.
  - rewrite E. eexists _, d'. split; [reflexivity|]. now exists st.
Qed.

Lemma generateHourglass_built (config : TopologyConfig) (targetCount d : nat) :
  exists r d',
    generateHourglass M config targetCount d = Ok (r, d') /\
    built (hourglassCnt config) (numLayers (parameters config)) r.
Proof.
  unfold generateHourglass, bind.
  destruct (layers_loop (hourglassCnt config)
              (numLayers (parameters config))
              (hourglassLayer M config) d) as (st & d' & E & Hw & Hd).
  - intros layer st d0 Hl Hw Hd. unfold hourglassLayer. cbn zeta.
    apply (layer_loop (hourglassCnt config)); try assumption.
    + now apply hourglassCount_finite.
    + reflexivity.
    + intros i s d1 Hi _ Hopen. unfold hourglassNode. cbn zeta.
      edestruct (fan_in_node_added (lit 3 20) (hourglassCnt config) layer i
                   (hourglassCount config layer)) as (s' & E & H);
        [| exact Hi | exact Hopen |].
      2:{ exists s', d1. split; [exact E | exact H]. }
      reflexivity.
  - rewrite E. eexists _, d'. split; [reflexivity|]. now exists st.
Qed.

Lemma onionCnt_pos (targetCount l : nat) : 0 < onionCnt targetCount l.
Proof.
  unfold onionCnt.
  destruct (onionCount_formula targetCount l) as (q & z & -> & Hq & Hz).
  rewrite (tripN_integer _ _ Hq). lia.
Qed.

Lemma onionNode_added (targetCount layer : nat) (count radius : num)
  (i : nat) (st : Build) (d : nat) :
  random_source rand ->
  layer_open (onionCnt targetCount) layer i st ->
  exists st' d',
    onionNode M rand dm layer count radius i st d = Ok (st', d') /\
    node_added layer st st'.
Proof.
  intros Hr (Hlow & (ids & Hids & Hlen) & Hcount).
  unfold onionNode. cbn zeta.
  unfold bind at 1, random at 1.
  unfold bind at 1, push_layer_id at 1, bind at 1.
  build_simpl. rewrite Hids. cbn [defined ret]. unfold bind at 1.
  destruct (0 <? layer) eqn:El.
  2:{ cbn [ret]. eexists _, _. split; [reflexivity|].
      eexists _, _, ids, []. rewrite add_connections_nil.
      split; [|split; [|split]]; [| |
        intros c Hc; now apply not_elem_of_nil in Hc | reflexivity];
        [reflexivity | exact Hids]. }
  apply Nat.ltb_lt in El.
  unfold bind at 1, random at 1.
  destruct (Fin (rand (S d)) <? lit 1 2)%num.
  2:{ cbn [ret]. eexists _, _. split; [reflexivity|].
      eexists _, _, ids, []. rewrite add_connections_nil.
      split; [|split; [|split]]; [| |
        intros c Hc; now apply not_elem_of_nil in Hc | reflexivity];
        [reflexivity | exact Hids]. }
  destruct (Hlow (layer - 1)) as (prev & Hprev & Hplen); [lia|].
  unfold bind at 1. build_simpl. rewrite lookup_insert_ne by lia.
  rewrite Hprev. cbn [defined ret]. unfold bind at 1, random at 1.
  pose proof (onionCnt_pos targetCount (layer - 1)) as Hpos.
  destruct (Hr (S (S d))) as [H0 H1].
  destruct (draw_index (rand (S (S d))) (length prev) H0 H1) as (k & Hk & Ek);
    [lia|].
  destruct (lookup_lt_is_Some_2 prev k Hk) as [f Ef].
  eexists _, _. split; [reflexivity|].
  eexists _, _, ids, [_].
  split; [|split; [|split]]; [| | | reflexivity];
    [reflexivity | exact Hids |].
  intros c Hc. apply list_elem_of_singleton in Hc as ->.
  split; [exact El|]. split; [reflexivity|].
  exists prev, f. split; [exact Hprev|]. cbn [Connection.from].
  unfold subscript. rewrite Ek, index_of_nat. split; [exact Ef|].
  eapply list_elem_of_lookup_2; eassumption.
Qed.

Lemma generateOnion_built (config : TopologyConfig) (targetCount d : nat) :
  random_source rand ->
  exists r d',
    generateOnion M rand dm config targetCount d = Ok (r, d') /\
    built (onionCnt targetCount) (numLayers (parameters config)) r.
Proof.
  intros Hr. unfold generateOnion, bind.
  destruct (layers_loop (onionCnt targetCount)
              (numLayers (parameters config))
              (onionLayer M rand dm config targetCount) d)
    as (st & d' & E & Hw & Hd).
  - intros layer st d0 Hl Hw Hd. unfold onionLayer. cbn zeta.
    apply (layer_loop (onionCnt targetCount)); try assumption.
    + destruct (onionCount_formula targetCount layer) as (q & z & -> & _).
      discriminate.
    + reflexivity.
    + intros i s d1 Hi _ Hopen. eapply onionNode_added; eassumption.
  - rewrite E. eexists _, d'. split; [reflexivity|]. now exists st.
Qed.

End Layered.

(** ** The small-world generator *)

Lemma lt_tenth (i n : nat) :
  (of_nat i <? of_nat n * lit 1 10)%num = (10 * i <? n).
Proof.
  unfold of_nat, of_Z, lit. cbn [mul].
  destruct (10 * i <? n) eqn:E.
  - apply Nat.ltb_lt in E. apply lt_Fin.
    unfold Qlt, Qmult, inject_Z. cbn. lia.
  - apply Nat.ltb_ge in E. apply lt_Fin_false.
    unfold Qle, Qmult, inject_Z. cbn. lia.
Qed.

Lemma gt_nine_tenths (i n : nat) :
  (of_nat i >? of_nat n * lit 9 10)%num = (9 * n <? 10 * i).
Proof.
  unfold gt, of_nat, of_Z, lit. cbn [mul].
  destruct (9 * n <? 10 * i) eqn:E.
  - apply Nat.ltb_lt in E. apply lt_Fin.
    unfold Qlt, Qmult, inject_Z. cbn. lia.
  - apply Nat.ltb_ge in E. apply lt_Fin_false.
    unfold Qle, Qmult, inject_Z. cbn. lia.
Qed.

Section SmallWorld.
Context (M : MathLib) (rand : nat -> Q) (dm : DataManager).

Lemma smallWorldNode_spec (config : TopologyConfig) (n i : nat) (st : Build)
  (d : nat) :
  exists p t d',
    smallWorldNode M rand dm config n i st d
      = Ok (push_type t (push_position p st), d') /\
    Position.layer p = Some 0 /\
    smallWorldType rand (typeNames dm) n i t.
Proof.
  unfold smallWorldNode, smallWorldType. cbn zeta.
  unfold bind at 1, random at 1. unfold bind at 1, random at 1.
  unfold bind at 1, random at 1.
  rewrite lt_tenth, gt_nine_tenths.
  destruct (10 * i <? n).
  { eexists _, _, _. split; [reflexivity|]. split; reflexivity. }
  destruct (9 * n <? 10 * i).
  { eexists _, _, _. split; [reflexivity|]. split; reflexivity. }
  unfold bind, random. cbn [ret].
  eexists _, _, _. split; [reflexivity|]. split; [reflexivity|].
  now eexists.
Qed.

Lemma smallWorld_nodes (config : TopologyConfig) (n d : nat) :
  exists st d',
    for_range 0 n (smallWorldNode M rand dm config n) start d = Ok (st, d') /\
    ring_nodes rand dm n n st.
Proof.
  unfold for_range. rewrite Nat.sub_0_r.
  apply (forEach_seq_total (fun k st _ => ring_nodes rand dm n k st)).
  - repeat split; try reflexivity.
    + intros i p H. cbn in H. now rewrite lookup_nil in H.
    + intros i H. lia.
  - intros i st d0 _ (Hp & Ht & Hc & Hl & Hty).
    destruct (smallWorldNode_spec config n i st d0)
      as (p & t & d' & E & Hpl & Htt).
    exists (push_type t (push_position p st)), d'. split; [exact E|].
    repeat split; build_simpl.
    + rewrite length_app. cbn. lia.
    + rewrite length_app. cbn. lia.
    + exact Hc.
    + intros k q Hk. apply lookup_app_Some in Hk as [Hk|[_ Hk]]; [eauto|].
      apply list_lookup_singleton_Some in Hk as [_ <-]. exact Hpl.
    + intros k Hk. destruct (decide (k = i)) as [->|Hne].
      * exists t. split; [|exact Htt].
        rewrite lookup_app_r by lia. now rewrite Ht, Nat.sub_diag.
      * destruct (Hty k) as (t' & Ht' & Hs); [lia|].
        exists t'. split; [|exact Hs]. now apply lookup_app_l_Some.
Qed.


Lemma randomTarget_spec (n d : nat) :
  random_source rand -> 0 < n ->
  exists t, randomTarget rand n d = Ok (t, S d) /\ is_target n t.
Proof.
  intros Hr Hn. unfold randomTarget, bind, random. cbn [ret].
  destruct (Hr d) as [H0 H1].
  destruct (draw_index (rand d) n H0 H1 Hn) as (k & Hk & Ek).
  eexists. split; [reflexivity|]. now exists k.
Qed.

(** The redraw loop returns the number of a node other than [i]. *)
Lemma redraw_spec (fuel n i : nat) (target : num) (d : nat) (t : num)
  (d' : nat) :
  random_source rand -> 0 < n -> is_target n target ->
  redraw rand fuel n i target d = Ok (t, d') ->
  is_target n t /\ strict_eq t i = false.
Proof.
  intros Hr Hn. revert target d.
  induction fuel as [|fuel IH]; intros target d Ht E; cbn [redraw] in E;
    destruct (strict_eq target i) eqn:Eq.
  - discriminate.
  - injection E as <- <-. now split.
  - unfold bind in E.
    destruct (randomTarget_spec n d Hr Hn) as (t1 & E1 & Ht1).
    rewrite E1 in E. eapply IH; eassumption.
  - injection E as <- <-. now split.
Qed.

Lemma smallWorldEdge_spec (fuel : nat) (config : TopologyConfig)
  (n i j : nat) (st : Build) (d : nat) (st' : Build) (d' : nat) :
  random_source rand -> i < n ->
  smallWorldEdge rand fuel config n i j st d = Ok (st', d') ->
  exists c, st' = push_connection c st /\ ring_link n c.
Proof.
  intros Hr Hi. unfold smallWorldEdge. cbn zeta.
  unfold bind at 1, random at 1.
  destruct (Fin (rand d) <? Fin (rewireProb (parameters config)))%num.
  - unfold bind at 1, bind at 1.
    destruct (randomTarget_spec n (S d) Hr) as (t1 & E1 & Ht1); [lia|].
    rewrite E1.
    destruct (redraw rand fuel n i t1 (S (S d))) as [[t d1]| |] eqn:E2;
      try discriminate.
    cbn [ret]. intros E. injection E as <- <-.
    destruct (redraw_spec fuel n i t1 (S (S d)) t d1 Hr) as [(k & Hk & ->) _];
      [lia|assumption..|].
    eexists. split; [reflexivity|]. split; [|reflexivity]. split.
    + exists i. now split.
    + exists k. cbn [Connection.to]. now rewrite index_of_nat.
  - unfold bind, ret. rewrite ring_index by lia. intros E.
    injection E as <- <-.
    eexists. split; [reflexivity|]. split; [|reflexivity]. split.
    + exists i. now split.
    + exists ((i + j) mod n). split; [reflexivity|].
      apply Nat.mod_upper_bound. lia.
Qed.

(** With no draw below [rewireProb] an edge is the ring edge and costs one
    draw. *)
Lemma smallWorldEdge_ring (fuel : nat) (config : TopologyConfig)
  (n i j : nat) (st : Build) (d : nat) :
  (forall k, (rewireProb (parameters config) <= rand k)%Q) -> i < n ->
  smallWorldEdge rand fuel config n i j st d
    = Ok (push_connection (ringEdge n i j) st, S d).
Proof.
  intros Hp Hi. unfold smallWorldEdge. cbn zeta.
  unfold bind at 1, random at 1.
  rewrite (proj2 (lt_Fin_false _ _) (Hp d)).
  unfold bind, ret, ringEdge. now rewrite ring_index by lia.
Qed.

Lemma smallWorld_links (fuel : nat) (config : TopologyConfig) (n : nat)
  (st0 : Build) (d : nat) (st : Build) (d' : nat) :
  random_source rand -> b_connections st0 = [] ->
  for_range 0 n (fun i st =>
    for_range 1 (kNeighbors (parameters config) / 2 + 1)
      (smallWorldEdge rand fuel config n i) st) st0 d = Ok (st, d') ->
  ring_links n st0 st.
Proof.
  intros Hr H0 E. unfold for_range in E. rewrite Nat.sub_0_r in E.
  revert E. apply (forEach_seq_partial (fun _ st _ => ring_links n st0 st)).
  - repeat split. rewrite H0. constructor.
  - intros i s d1 s' d1' Hi Hs. cbn in Hi.
    apply (forEach_seq_partial (fun _ st _ => ring_links n st0 st));
      [exact Hs|].
    intros j s2 d2 s3 d3 _ (Hp & Ht & Hc) E.
    destruct (smallWorldEdge_spec _ _ _ _ _ _ _ _ _ Hr (proj2 Hi) E)
      as (c & -> & Hcl).
    repeat split; build_simpl; try assumption.
    apply Forall_app. split; [exact Hc|]. now apply Forall_singleton.
Qed.


Lemma add_connections_app (cs1 cs2 : list Connection.t) (st : Build) :
  add_connections cs2 (add_connections cs1 st)
  = add_connections (cs1 ++ cs2) st.
Proof. unfold add_connections. cbn. now rewrite app_assoc. Qed.

Lemma ring_edges_of_node (fuel : nat) (config : TopologyConfig) (n i : nat)
  (js : list nat) (st : Build) (d : nat) :
  (forall k, (rewireProb (parameters config) <= rand k)%Q) -> i < n ->
  forEach js (smallWorldEdge rand fuel config n i) st d
    = Ok (add_connections (List.map (ringEdge n i) js) st, d + length js).
Proof.
  intros Hp Hi. revert st d. induction js as [|j js IH]; intros st d.
  - cbn. now rewrite add_connections_nil, Nat.add_0_r.
  - cbn [forEach]. unfold bind.
    rewrite (smallWorldEdge_ring _ _ _ _ _ _ _ Hp Hi).
    rewrite IH. cbn [List.map length].
    change (push_connection (ringEdge n i j) st)
      with (add_connections [ringEdge n i j] st).
    rewrite add_connections_app. do 2 f_equal. lia.
Qed.

Lemma ring_edges (fuel : nat) (config : TopologyConfig) (n : nat)
  (nodes : list nat) (st : Build) (d : nat) :
  (forall k, (rewireProb (parameters config) <= rand k)%Q) ->
  Forall (fun i => i < n) nodes ->
  let h := kNeighbors (parameters config) / 2 in
  exists d',
    forEach nodes (fun i st =>
      for_range 1 (h + 1) (smallWorldEdge rand fuel config n i) st) st d
    = Ok (add_connections
            (flat_map (fun i => List.map (ringEdge n i) (seq 1 h)) nodes) st,
          d').
Proof.
  intros Hp Hall h. revert st d.
  induction Hall as [|i nodes Hi Hall IH]; intros st d.
  - exists d. cbn. now rewrite add_connections_nil.
  - cbn [forEach flat_map]. unfold bind, for_range at 1.
    replace (h + 1 - 1) with h by lia.
    rewrite (ring_edges_of_node _ _ _ _ _ _ _ Hp Hi).
    destruct (IH (add_connections (List.map (ringEdge n i) (seq 1 h)) st)
                (d + length (seq 1 h))) as (d' & E).
    exists d'. rewrite E. now rewrite add_connections_app.
Qed.

(** With no draw below [rewireProb] the generator returns the ring lattice. *)
Lemma generateSmallWorld_ring (fuel : nat) (config : TopologyConfig)
  (n d : nat) :
  (forall k, (rewireProb (parameters config) <= rand k)%Q) ->
  exists r d',
    generateSmallWorld M rand dm fuel config n d = Ok (r, d') /\
    length (positions r) = n /\
    connections r = ringLattice n (kNeighbors (parameters config) / 2).
Proof.
  intros Hp. unfold generateSmallWorld. cbn zeta. unfold bind at 1.
  destruct (smallWorld_nodes config n d) as (st & d1 & -> & Hn & _ & Hc & _).
  unfold bind at 1, for_range at 1. rewrite Nat.sub_0_r.
  destruct (ring_edges fuel config n (seq 0 n) st d1 Hp) as (d2 & ->).
  { apply Forall_forall. intros i Hi. apply elem_of_seq in Hi. lia. }
  cbn [ret]. eexists _, _. split; [reflexivity|]. cbn.
  split; [exact Hn|]. now rewrite Hc.
Qed.


(** What the small-world generator returns, when it returns. *)
Lemma generateSmallWorld_inv (fuel : nat) (config : TopologyConfig)
  (n d : nat) (r : NetworkDescription) (d' : nat) :
  random_source rand ->
  generateSmallWorld M rand dm fuel config n d = Ok (r, d') ->
  exists st0 st,
    ring_nodes rand dm n n st0 /\ ring_links n st0 st /\
    r = topologyResult st 1.
Proof.
  intros Hr. unfold generateSmallWorld. cbn zeta. unfold bind at 1.
  destruct (smallWorld_nodes config n d) as (st0 & d0 & -> & Hnodes).
  unfold bind.
  destruct (for_range 0 n _ st0 d0) as [[st d1]| |] eqn:E; try discriminate.
  cbn [ret]. intros H. injection H as <- <-.
  exists st0, st. split; [exact Hnodes|]. split; [|reflexivity].
  eapply smallWorld_links; [exact Hr | apply Hnodes | exact E].
Qed.

End SmallWorld.

Section SmallWorldLoops.
Context (M : MathLib) (rand : nat -> Q) (dm : DataManager).

(** A ring neighbour at distance [1 <= j < n] is another node. *)
Lemma ring_neighbour_distinct (n i j : nat) :
  i < n -> 1 <= j -> j < n -> (i + j) mod n <> i.
Proof.
  intros Hi Hj Hn E. destruct (Nat.lt_ge_cases (i + j) n) as [Hlt|Hge].
  - rewrite Nat.mod_small in E by exact Hlt. lia.
  - assert (Hm : (i + j) mod n = i + j - n).
    { symmetry. apply (Nat.mod_unique _ _ 1); lia. }
    lia.
Qed.

Lemma strict_eq_nat (k i : nat) :
  strict_eq (of_nat k) (of_nat i) = false -> k <> i.
Proof.
  intros E ->. unfold strict_eq, of_nat, of_Z in E.
  rewrite (proj2 (Qeq_bool_iff _ _) (Qeq_refl _)) in E. discriminate.
Qed.

Lemma smallWorldEdge_distinct (fuel : nat) (config : TopologyConfig)
  (n i j : nat) (st : Build) (d : nat) (st' : Build) (d' : nat) :
  random_source rand -> i < n -> 1 <= j -> j < n ->
  smallWorldEdge rand fuel config n i j st d = Ok (st', d') ->
  exists c, st' = push_connection c st /\
            Connection.from c <> Connection.to c.
Proof.
  intros Hr Hi Hj Hn. unfold smallWorldEdge. cbn zeta.
  unfold bind at 1, random at 1.
  destruct (Fin (rand d) <? Fin (rewireProb (parameters config)))%num.
  - unfold bind at 1, bind at 1.
    destruct (randomTarget_spec rand n (S d) Hr) as (t1 & E1 & Ht1); [lia|].
    rewrite E1.
    destruct (redraw rand fuel n i t1 (S (S d))) as [[t d1]| |] eqn:E2;
      try discriminate.
    cbn [ret]. intros E. injection E as <- <-.
    destruct (redraw_spec rand fuel n i t1 (S (S d)) t d1 Hr)
      as [(k & Hk & ->) Hne]; [lia|assumption..|].
    eexists. split; [reflexivity|]. cbn [Connection.from Connection.to].
    rewrite index_of_nat. apply strict_eq_nat in Hne. congruence.
  - unfold bind, ret. rewrite ring_index by lia. intros E.
    injection E as <- <-.
    eexists. split; [reflexivity|]. cbn [Connection.from Connection.to].
    pose proof (ring_neighbour_distinct n i j Hi Hj Hn). congruence.
Qed.

Lemma smallWorld_distinct (fuel : nat) (config : TopologyConfig) (n d : nat)
  (r : NetworkDescription) (d' : nat) :
  random_source rand ->
  kNeighbors (parameters config) / 2 < n ->
  generateSmallWorld M rand dm fuel config n d = Ok (r, d') ->
  forall c, c ∈ connections r -> Connection.from c <> Connection.to c.
Proof.
  intros Hr Hk. unfold generateSmallWorld. cbn zeta. unfold bind at 1.
  destruct (smallWorld_nodes M rand dm config n d)
    as (st0 & d0 & -> & _ & _ & Hc & _).
  unfold bind.
  destruct (for_range 0 n _ st0 d0) as [[st d1]| |] eqn:E; try discriminate.
  cbn [ret]. intros H. injection H as <- <-. cbn [connections topologyResult].
  apply Forall_forall. revert E. unfold for_range at 1. rewrite Nat.sub_0_r.
  set (ok := fun c : Connection.t => Connection.from c <> Connection.to c).
  apply (forEach_seq_partial (fun _ st _ => Forall ok (b_connections st))).
  - rewrite Hc. constructor.
  - intros i s d2 s' d2' Hi Hs. unfold for_range.
    apply (forEach_seq_partial (fun _ st _ => Forall ok (b_connections st)));
      [exact Hs|].
    intros j s2 d3 s3 d4 Hj Hall E.
    destruct (smallWorldEdge_distinct fuel config n i j s2 d3 s3 d4 Hr)
      as (c & -> & Hne); [lia..|exact E|].
    build_simpl. apply Forall_app. split; [exact Hall|].
    now apply Forall_singleton.
Qed.

End SmallWorldLoops.

(** ** The structure generators *)

(** The first loop of a structure generator. *)
Lemma tag_loop (n : nat) (node : nat -> Build -> Gen Build) (d : nat) :
  (forall i st d, exists p d',
     node i st d = Ok (push_position p st, d') /\
     Position.type p = Some (nodeTag n i)) ->
  exists st d', for_range 0 n node start d = Ok (st, d') /\ tagged n n st.
Proof.
  intros Hnode. unfold for_range. rewrite Nat.sub_0_r.
  apply (forEach_seq_total (fun k st _ => tagged n k st)).
  - repeat split. intros i p H. cbn in H. now rewrite lookup_nil in H.
  - intros i st d0 _ (Hlen & Hc & Htag).
    destruct (Hnode i st d0) as (p & d' & E & Hp).
    exists (push_position p st), d'. split; [exact E|].
    repeat split; build_simpl.
    + rewrite length_app. cbn. lia.
    + exact Hc.
    + intros k q Hk. apply lookup_app_Some in Hk as [Hk|[Hge Hk]]; [eauto|].
      apply list_lookup_singleton_Some in Hk as [Hz <-].
      replace k with i by lia. exact Hp.
Qed.

(** The loop on all pairs [i < j], for any body that adds the link [i -> j]
    or nothing. *)
Lemma pair_loop (pair : nat -> nat -> Build -> Gen Build) (st0 : Build)
  (d : nat) :
  b_connections st0 = [] ->
  (forall i j st d, i < j < length (b_positions st) ->
     exists st' d', pair i j st d = Ok (st', d') /\
       (st' = st \/
        exists w,
          st' = push_connection (Connection.mk (Some i) (Some j) w) st)) ->
  exists st d',
    for_range 0 (length (b_positions st0)) (fun i st =>
      for_range (i + 1) (length (b_positions st)) (pair i) st) st0 d
    = Ok (st, d') /\ pair_links st0 st.
Proof.
  intros H0 Hpair. unfold for_range at 1. rewrite Nat.sub_0_r.
  apply (forEach_seq_total (fun _ st _ => pair_links st0 st)).
  - split; [reflexivity|]. rewrite H0. constructor.
  - intros i s d0 Hi Hs. unfold for_range.
    destruct (forEach_seq_total (fun _ st _ => pair_links st0 st) (pair i)
                (length (b_positions s) - (i + 1)) (i + 1) s d0 Hs)
      as (s' & d' & E & Hs'); [|now exists s', d'].
    intros j s1 d1 Hj [Hp Hc].
    assert (Hlen : length (b_positions s) = length (b_positions st0)).
    { destruct Hs as [-> _]. reflexivity. }
    destruct (Hpair i j s1 d1) as (s2 & d2 & E & Hcase).
    { rewrite Hp. lia. }
    exists s2, d2. split; [exact E|].
    destruct Hcase as [->|(w & ->)]; [now split|].
    split; [exact Hp|]. build_simpl. apply Forall_app. split; [exact Hc|].
    apply Forall_singleton. exists i, j. cbn. repeat split; lia.
Qed.

Lemma structure_result (n : nat) (st0 st : Build) :
  tagged n n st0 -> pair_links st0 st -> structure_of n (structureResult st).
Proof.
  intros (Hlen & _ & Htag) (Hp & Hc). unfold structure_of. cbn.
  rewrite Hp. repeat split; try assumption. now rewrite Hlen in Hc.
Qed.

Section Structures.
Context (M : MathLib) (rand : nat -> Q) (dm : DataManager).

Lemma generateSphereSurface_spec (config : StructureConfig) (n d : nat) :
  exists r d',
    generateSphereSurface M rand config n d = Ok (r, d') /\ structure_of n r.
Proof.
  unfold generateSphereSurface. cbn zeta. unfold bind at 1.
  destruct (tag_loop n (sphereNode M n) d) as (st0 & d0 & -> & Htag).
  { intros i st d0. eexists _, _. split; reflexivity. }
  unfold bind at 1.
  destruct (pair_loop (spherePair M rand (distanceThreshold config)) st0 d0)
    as (st & d' & -> & Hlinks).
  - apply Htag.
  - intros i j s d1 Hij. unfold spherePair, bind.
    destruct (lookup_lt_is_Some_2 (b_positions s) i) as [pi ->]; [lia|].
    destruct (lookup_lt_is_Some_2 (b_positions s) j) as [pj ->]; [lia|].
    cbn [defined ret].
    destruct (_ <? _)%num; [|eexists _, _; split; [reflexivity|now left]].
    unfold random at 1.
    destruct (_ <? _)%num; eexists _, _; (split; [reflexivity|]);
      [right; now eexists | now left].
  - cbn [ret]. eexists _, _. split; [reflexivity|].
    eapply structure_result; eassumption.
Qed.

Lemma generateRandomGraph_spec (config : StructureConfig) (n d : nat) :
  exists r d',
    generateRandomGraph rand config n d = Ok (r, d') /\ structure_of n r.
Proof.
  unfold generateRandomGraph. cbn zeta. unfold bind at 1.
  destruct (tag_loop n (randomNode rand n) d) as (st0 & d0 & -> & Htag).
  { intros i st d0. eexists _, _. split; reflexivity. }
  unfold bind at 1.
  destruct (pair_loop (randomPair rand (connectionDensity config)) st0 d0)
    as (st & d' & -> & Hlinks).
  - apply Htag.
  - intros i j s d1 Hij. unfold randomPair, bind, random.
    destruct (_ <? _)%num; eexists _, _; (split; [reflexivity|]);
      [right; now eexists | now left].
  - cbn [ret]. eexists _, _. split; [reflexivity|].
    eapply structure_result; eassumption.
Qed.

End Structures.

(** ** The properties of the specification *)

Lemma sampleDraws_source : random_source sampleDraws.
Proof.
  intros k. unfold sampleDraws, Qle, Qlt. cbn.
  pose proof (Nat.mod_upper_bound k 10). lia.
Defined.

Lemma halfDraws_source : random_source halfDraws.
Proof. intros k. split; [discriminate | reflexivity]. Defined.


Lemma layer_at_lt (ps : list Position.t) (id l : nat) :
  layer_at ps id = Some l -> id < length ps.
Proof.
  unfold layer_at. destruct (ps !! id) eqn:E; [|discriminate].
  intros _. eapply lookup_lt_Some; eassumption.
Qed.

Lemma adjacent_valid (ps : list Position.t) (c : Connection.t) :
  links_adjacent_layers ps c -> valid_connection (length ps) c.
Proof.
  intros (f & t & l & Hf & Ht & Lf & Lt). split.
  - exists f. split; [exact Hf|]. eapply layer_at_lt; eassumption.
  - exists t. split; [exact Ht|]. eapply layer_at_lt; eassumption.
Qed.

Lemma adjacent_no_self_loop (ps : list Position.t) (c : Connection.t) :
  links_adjacent_layers ps c -> Connection.from c <> Connection.to c.
Proof.
  intros (f & t & l & Hf & Ht & Lf & Lt) E. rewrite Hf, Ht in E.
  injection E as ->. rewrite Lf in Lt. injection Lt. lia.
Qed.

Lemma built_adjacent (cnt : nat -> nat) (n : nat) (r : NetworkDescription) :
  built cnt n r ->
  forall c, c ∈ connections r -> links_adjacent_layers (positions r) c.
Proof. intros (st & -> & Hw & _). apply (wf_conns _ Hw). Qed.

Lemma built_valid (cnt : nat -> nat) (n : nat) (r : NetworkDescription) :
  built cnt n r -> indices_valid (positions r) (connections r).
Proof.
  intros Hb c Hc. apply adjacent_valid. eapply built_adjacent; eassumption.
Qed.

Lemma built_parallel (cnt : nat -> nat) (n : nat) (r : NetworkDescription) :
  built cnt n r -> length (types r) = length (positions r).
Proof. intros (st & -> & Hw & _). apply (wf_types _ Hw). Qed.

Lemma built_layer_size (cnt : nat -> nat) (n : nat) (r : NetworkDescription)
  (l : nat) :
  built cnt n r -> l < n -> nodesInLayer (positions r) l = cnt l.
Proof.
  intros (st & -> & _ & _ & Hc) Hl. cbn [positions topologyResult]. rewrite Hc.
  now rewrite (proj2 (Nat.ltb_lt _ _) Hl).
Qed.

Lemma ring_link_valid (n : nat) (ps : list Position.t)
  (cs : list Connection.t) :
  length ps = n -> Forall (ring_link n) cs -> indices_valid ps cs.
Proof.
  intros Hn Hall c Hc. rewrite Forall_forall in Hall.
  rewrite Hn. now apply Hall.
Qed.

Lemma ordered_link_valid (n : nat) (c : Connection.t) :
  ordered_link n c -> valid_connection n c.
Proof.
  intros (a & b & Ha & Hb & Hab & Hbn). split; [exists a | exists b];
    split; try assumption; lia.
Qed.

Lemma structure_valid (n : nat) (r : StructureDescription) :
  structure_of n r ->
  indices_valid (Structure.positions r) (Structure.connections r).
Proof.
  intros (Hlen & _ & Hall) c Hc. rewrite Forall_forall in Hall.
  rewrite Hlen. apply ordered_link_valid. now apply Hall.
Qed.

Lemma smallWorld_valid (M : MathLib) (rand : nat -> Q) (dm : DataManager)
  (fuel : nat) (config : TopologyConfig) (n d : nat) (r : NetworkDescription)
  (d' : nat) :
  random_source rand ->
  generateSmallWorld M rand dm fuel config n d = Ok (r, d') ->
  indices_valid (positions r) (connections r) /\
  length (types r) = length (positions r).
Proof.
  intros Hr E.
  destruct (generateSmallWorld_inv M rand dm fuel config n d r d' Hr E)
    as (st0 & st & (Hp & Ht & _) & (Ep & Et & Hl) & ->).
  cbn. split.
  - apply (ring_link_valid n); [congruence | exact Hl].
  - congruence.
Qed.

(** C1 (index validity).  Every link returned by a generator has [from] and
    [to] among the indices of the returned positions.  The funnel, onion,
    hourglass, sphere-surface and random-graph generators always return; the
    small-world generator may redraw forever, so its links are valid
    whenever it returns. *)
Theorem index_validity (M : MathLib) (rand : nat -> Q) (dm : DataManager) :
  random_source rand ->
  (forall config targetCount d, exists r d',
     generateFunnel M config targetCount d = Ok (r, d') /\
     indices_valid (positions r) (connections r)) /\
  (forall config targetCount d, exists r d',
     generateOnion M rand dm config targetCount d = Ok (r, d') /\
     indices_valid (positions r) (connections r)) /\
  (forall fuel config cocoonCount d r d',
     generateSmallWorld M rand dm fuel config cocoonCount d = Ok (r, d') ->
     indices_valid (positions r) (connections r)) /\
  (forall config targetCount d, exists r d',
     generateHourglass M config targetCount d = Ok (r, d') /\
     indices_valid (positions r) (connections r)) /\
  (forall config nodeCount d, exists r d',
     generateSphereSurface M rand config nodeCount d = Ok (r, d') /\
     indices_valid (Structure.positions r) (Structure.connections r)) /\
  (forall config nodeCount d, exists r d',
     generateRandomGraph rand config nodeCount d = Ok (r, d') /\
     indices_valid (Structure.positions r) (Structure.connections r)).
Proof.
  intros Hr. split; [|split; [|split; [|split; [|split]]]].
  - intros config t d.
    destruct (generateFunnel_built M config t d) as (r & d' & E & Hb).
    exists r, d'. eauto using built_valid.
  - intros config t d.
    destruct (generateOnion_built M rand dm config t d Hr) as (r & d' & E & Hb).
    exists r, d'. eauto using built_valid.
  - intros fuel config n d r d' E.
    now destruct (smallWorld_valid M rand dm fuel config n d r d' Hr E).
  - intros config t d.
    destruct (generateHourglass_built M config t d) as (r & d' & E & Hb).
    exists r, d'. eauto using built_valid.
  - intros config n d.
    destruct (generateSphereSurface_spec M rand config n d)
      as (r & d' & E & Hs).
    exists r, d'. eauto using structure_valid.
  - intros config n d.
    destruct (generateRandomGraph_spec rand config n d) as (r & d' & E & Hs).
    exists r, d'. eauto using structure_valid.
Qed.

Lemma index_validity_witness :
  random_source sampleDraws /\
  exists r d',
    generateSmallWorld zeroMath sampleDraws sampleData 8
      (sampleConfig "smallworld" 1 4 (1 # 2)) 12 0 = Ok (r, d') /\
    indices_valid (positions r) (connections r).
Proof.
  split; [exact sampleDraws_source|].
  destruct (generateSmallWorld zeroMath sampleDraws sampleData 8
              (sampleConfig "smallworld" 1 4 (1 # 2)) 12 0)
    as [[r d']| |] eqn:E; [|vm_compute in E; discriminate..].
  exists r, d'. split; [reflexivity|].
  exact (proj1 (proj2 (proj2
           (index_validity zeroMath sampleDraws sampleData
              sampleDraws_source))) _ _ _ _ _ _ E).
Defined.

Lemma inherited_spec (name : string) :
  inherited name = true <-> name ∈ objectPrototypeNames.
Proof.
  unfold inherited. rewrite existsb_exists. split.
  - intros (x & Hin & E). apply String.eqb_eq in E. subst x.
    now apply list_elem_of_In.
  - intros H. exists name. split; [now apply list_elem_of_In|].
    apply String.eqb_refl.
Qed.

Lemma getProperty_inherited {A : Type} (object : gmap string A)
  (name : string) :
  object !! name = None -> name ∈ objectPrototypeNames ->
  getProperty object name = Inherited.
Proof.
  intros H Hin. unfold getProperty. rewrite H.
  now rewrite (proj2 (inherited_spec name) Hin).
Qed.

Lemma getProperty_absent {A : Type} (object : gmap string A)
  (name : string) :
  object !! name = None -> name ∉ objectPrototypeNames ->
  getProperty object name = Absent.
Proof.
  intros H Hin. unfold getProperty. rewrite H.
  destruct (inherited name) eqn:E; [|reflexivity].
  now apply inherited_spec in E.
Qed.

Lemma sampleData_loaded : loaded_or_empty sampleData.
Proof.
  intros name [c Hc]. unfold sampleData, catalogueNames in *. cbn in Hc.
  repeat (apply lookup_insert_Some in Hc as [[<- _]|[_ Hc]];
          [repeat constructor|]).
  now rewrite lookup_empty in Hc.
Defined.

(** C2 (unknown topology), on the code.  [generateTopology] reads the name
    from a plain object.  For a name that is no key of the catalogue but a
    member of [Object.prototype], such as "constructor", the lookup yields
    that member, the test [!topology] lets it pass and
    [topology.generator.type] throws, whatever the node count and the third
    argument: [generateTopology("constructor", 50, {})] throws.  A name that
    is neither a key nor such a member gives the empty network without a
    draw; "doesnotexist" is one, for a catalogue that is empty or holds the
    four loaded topologies. *)
Theorem unknown_topology_throws_on_inherited_name (M : MathLib)
  (rand : nat -> Q) (dm : DataManager) (fuel : nat) :
  (forall (B : Type) (topologyName : string) (cocoonCount : nat)
          (structure : B) (d : nat),
     topologies dm !! topologyName = None ->
     topologyName ∈ objectPrototypeNames ->
     generateTopology M rand dm fuel topologyName cocoonCount structure d
       = TypeError) /\
  (loaded_or_empty dm ->
   forall d,
     generateTopology M rand dm fuel "constructor" 50
       (∅ : gmap string num) d = TypeError) /\
  (forall (B : Type) (topologyName : string) (cocoonCount : nat)
          (structure : B) (d : nat),
     topologies dm !! topologyName = None ->
     topologyName ∉ objectPrototypeNames ->
     generateTopology M rand dm fuel topologyName cocoonCount structure d
       = Ok (emptyNetwork, d)) /\
  (loaded_or_empty dm ->
   forall d,
     generateTopology M rand dm fuel "doesnotexist" 50
       (∅ : gmap string num) d = Ok (emptyNetwork, d)).
Proof.
  assert (Hthrow : forall (B : Type) name n (structure : B) d,
             topologies dm !! name = None ->
             name ∈ objectPrototypeNames ->
             generateTopology M rand dm fuel name n structure d = TypeError).
  { intros B name n structure d H Hin. unfold generateTopology, getTopology.
    now rewrite (getProperty_inherited _ _ H Hin). }
  assert (Hnone : forall (B : Type) name n (structure : B) d,
             topologies dm !! name = None ->
             name ∉ objectPrototypeNames ->
             generateTopology M rand dm fuel name n structure d
               = Ok (emptyNetwork, d)).
  { intros B name n structure d H Hin. unfold generateTopology, getTopology.
    now rewrite (getProperty_absent _ _ H Hin). }
  assert (Hmiss : forall name, loaded_or_empty dm ->
             name ∉ catalogueNames -> topologies dm !! name = None).
  { intros name Hcat Hn. destruct (topologies dm !! name) as [c|] eqn:E;
      [|reflexivity].
    exfalso. apply Hn, Hcat. eauto. }
  split; [exact Hthrow|]. split; [|split; [exact Hnone|]].
  - intros Hcat d. apply Hthrow.
    + apply Hmiss; [exact Hcat|]. unfold catalogueNames. intros Hin.
      repeat (apply elem_of_cons in Hin as [Hin|Hin]; [discriminate|]).
      now apply elem_of_nil in Hin.
    + unfold objectPrototypeNames. constructor.
  - intros Hcat d. apply Hnone.
    + apply Hmiss; [exact Hcat|]. unfold catalogueNames. intros Hin.
      repeat (apply elem_of_cons in Hin as [Hin|Hin]; [discriminate|]).
      now apply elem_of_nil in Hin.
    + unfold objectPrototypeNames. intros Hin.
      repeat (apply elem_of_cons in Hin as [Hin|Hin]; [discriminate|]).
      now apply elem_of_nil in Hin.
Qed.

Lemma unknown_topology_throws_on_inherited_name_witness :
  loaded_or_empty sampleData /\
  generateTopology zeroMath sampleDraws sampleData 8 "constructor" 50
    (∅ : gmap string num) 0 = TypeError /\
  generateTopology zeroMath sampleDraws sampleData 8 "doesnotexist" 50
    (∅ : gmap string num) 0 = Ok (emptyNetwork, 0).
Proof.
  split; [exact sampleData_loaded|]. split.
  - exact (proj1 (proj2 (unknown_topology_throws_on_inherited_name zeroMath
                           sampleDraws sampleData 8)) sampleData_loaded 0).
  - exact (proj2 (proj2 (proj2 (unknown_topology_throws_on_inherited_name
                                  zeroMath sampleDraws sampleData 8)))
             sampleData_loaded 0).
Defined.

Lemma generateTopology_cases (M : MathLib) (rand : nat -> Q)
  (dm : DataManager) (fuel : nat) (B : Type) (name : string) (n : nat)
  (structure : B) :
  (exists config,
     getTopology dm name = Own config /\
     (generateTopology M rand dm fuel name n structure
        = generateFunnel M config n \/
      generateTopology M rand dm fuel name n structure
        = generateOnion M rand dm config n \/
      generateTopology M rand dm fuel name n structure
        = generateSmallWorld M rand dm fuel config n \/
      generateTopology M rand dm fuel name n structure
        = generateHourglass M config n)) \/
  generateTopology M rand dm fuel name n structure = ret emptyNetwork \/
  generateTopology M rand dm fuel name n structure = throw.
Proof.
  unfold generateTopology. destruct (getTopology dm name) as [config| |];
    [|now right; right|now right; left].
  destruct (String.eqb _ "funnel"); [left; exists config; auto|].
  destruct (String.eqb _ "onion"); [left; exists config; auto|].
  destruct (String.eqb _ "smallworld"); [left; exists config; auto 6|].
  destruct (String.eqb _ "hourglass"); [left; exists config; auto 6|].
  right. now left.
Qed.

(** C3 (parallel arrays).  Every topology generator returns as many types as
    positions: funnel, onion and hourglass always return such a result, the
    small-world generator and the dispatcher [generateTopology] whenever they
    return. *)
Theorem parallel_arrays (M : MathLib) (rand : nat -> Q) (dm : DataManager) :
  random_source rand ->
  (forall config targetCount d, exists r d',
     generateFunnel M config targetCount d = Ok (r, d') /\
     length (types r) = length (positions r)) /\
  (forall config targetCount d, exists r d',
     generateOnion M rand dm config targetCount d = Ok (r, d') /\
     length (types r) = length (positions r)) /\
  (forall fuel config cocoonCount d r d',
     generateSmallWorld M rand dm fuel config cocoonCount d = Ok (r, d') ->
     length (types r) = length (positions r)) /\
  (forall config targetCount d, exists r d',
     generateHourglass M config targetCount d = Ok (r, d') /\
     length (types r) = length (positions r)) /\
  (forall fuel (B : Type) topologyName cocoonCount (structure : B) d r d',
     generateTopology M rand dm fuel topologyName cocoonCount structure d
       = Ok (r, d') ->
     length (types r) = length (positions r)).
Proof.
  intros Hr.
  assert (HF : forall config t d r d',
             generateFunnel M config t d = Ok (r, d') ->
             length (types r) = length (positions r)).
  { intros config t d r d' E.
    destruct (generateFunnel_built M config t d) as (r0 & d0 & E0 & Hb).
    rewrite E0 in E. injection E as <- <-. eauto using built_parallel. }
  assert (HO : forall config t d r d',
             generateOnion M rand dm config t d = Ok (r, d') ->
             length (types r) = length (positions r)).
  { intros config t d r d' E.
    destruct (generateOnion_built M rand dm config t d Hr)
      as (r0 & d0 & E0 & Hb).
    rewrite E0 in E. injection E as <- <-. eauto using built_parallel. }
  assert (HH : forall config t d r d',
             generateHourglass M config t d = Ok (r, d') ->
             length (types r) = length (positions r)).
  { intros config t d r d' E.
    destruct (generateHourglass_built M config t d) as (r0 & d0 & E0 & Hb).
    rewrite E0 in E. injection E as <- <-. eauto using built_parallel. }
  assert (HS : forall fuel config n d r d',
             generateSmallWorld M rand dm fuel config n d = Ok (r, d') ->
             length (types r) = length (positions r)).
  { intros fuel config n d r d' E.
    now destruct (smallWorld_valid M rand dm fuel config n d r d' Hr E). }
  split; [|split; [|split; [|split]]].
  - intros config t d.
    destruct (generateFunnel_built M config t d) as (r & d' & E & Hb).
    exists r, d'. eauto using built_parallel.
  - intros config t d.
    destruct (generateOnion_built M rand dm config t d Hr) as (r & d' & E & Hb).
    exists r, d'. eauto using built_parallel.
  - exact HS.
  - intros config t d.
    destruct (generateHourglass_built M config t d) as (r & d' & E & Hb).
    exists r, d'. eauto using built_parallel.
  - intros fuel B name n structure d r d' E.
    destruct (generateTopology_cases M rand dm fuel B name n structure)
      as [(config & _ & [H|[H|[H|H]]])|[H|H]]; rewrite H in E; eauto.
    + injection E as <- <-. reflexivity.
    + discriminate.
Qed.

Lemma parallel_arrays_witness :
  random_source sampleDraws /\
  exists r d',
    generateTopology zeroMath sampleDraws sampleData 8 "smallworld" 12 tt 0
      = Ok (r, d') /\
    length (types r) = length (positions r).
Proof.
  split; [exact sampleDraws_source|].
  destruct (generateTopology zeroMath sampleDraws sampleData 8 "smallworld"
              12 tt 0) as [[r d']| |] eqn:E; [|vm_compute in E; discriminate..].
  exists r, d'. split; [reflexivity|].
  exact (proj2 (proj2 (proj2 (proj2
           (parallel_arrays zeroMath sampleDraws sampleData
              sampleDraws_source)))) _ _ _ _ _ _ _ _ E).
Defined.

(** C5 (ring lattice).  With 20 nodes, [kNeighbors = 4] and
    [rewireProb = 0] the small-world generator returns, whatever the draws,
    exactly 40 links, all of weight 0.7: node [i] is linked to
    [(i+1) mod 20] and [(i+2) mod 20], in this order. *)
Theorem small_world_ring_lattice (M : MathLib) (rand : nat -> Q)
  (dm : DataManager) (fuel : nat) (config : TopologyConfig) (d : nat) :
  random_source rand ->
  kNeighbors (parameters config) = 4 ->
  (rewireProb (parameters config) == 0)%Q ->
  exists r d',
    generateSmallWorld M rand dm fuel config 20 d = Ok (r, d') /\
    length (connections r) = 40 /\
    (forall c, c ∈ connections r -> Connection.weight c = lit 7 10) /\
    connections r = ring20.
Proof.
  intros Hr Hk Hp.
  destruct (generateSmallWorld_ring M rand dm fuel config 20 d)
    as (r & d' & E & _ & Hc).
  { intros k. rewrite Hp. apply Hr. }
  rewrite Hk in Hc. exists r, d'. split; [exact E|].
  assert (Hring : connections r = ring20) by (rewrite Hc; reflexivity).
  rewrite Hring. split; [reflexivity|]. split; [|reflexivity].
  intros c Hin. unfold ring20 in Hin.
  apply list_elem_of_In, in_flat_map in Hin as (i & _ & Hin).
  destruct Hin as [<-|[<-|[]]]; reflexivity.
Qed.

Lemma small_world_ring_lattice_witness :
  exists r d',
    generateSmallWorld zeroMath sampleDraws sampleData 0
      (sampleConfig "smallworld" 1 4 0) 20 0 = Ok (r, d') /\
    length (connections r) = 40 /\
    connections r !! 39
      = Some (Connection.mk (Some 19) (Some 1) (lit 7 10)).
Proof.
  destruct (small_world_ring_lattice zeroMath sampleDraws sampleData 0
              (sampleConfig "smallworld" 1 4 0) 0 sampleDraws_source
              eq_refl (Qeq_refl 0)) as (r & d' & E & Hlen & _ & Hc).
  exists r, d'. split; [exact E|]. split; [exact Hlen|].
  rewrite Hc. reflexivity.
Defined.

(** C6, as the code has it (single layer).  With [numLayers = 1] the funnel
    and the hourglass generators return, for every [targetCount], a result
    without links. *)
Theorem single_layer_no_links (M : MathLib) (config : TopologyConfig)
  (targetCount d : nat) :
  numLayers (parameters config) = 1 ->
  (exists r d',
     generateFunnel M config targetCount d = Ok (r, d') /\
     connections r = []) /\
  (exists r d',
     generateHourglass M config targetCount d = Ok (r, d') /\
     connections r = []).
Proof.
  intros H1. destruct config as [g [nl so k p ec cc] v]. cbn in H1. subst nl.
  split; eexists _, _; (split; [vm_compute; reflexivity | reflexivity]).
Qed.

Lemma single_layer_no_links_witness :
  (exists r d',
     generateFunnel zeroMath (sampleConfig "funnel" 1 4 0) 5 0 = Ok (r, d') /\
     connections r = []) /\
  (exists r d',
     generateHourglass zeroMath (sampleConfig "hourglass" 1 4 0) 5 0
       = Ok (r, d') /\
     connections r = []).
Proof.
  split.
  - exact (proj1 (single_layer_no_links zeroMath (sampleConfig "funnel" 1 4 0)
                    5 0 eq_refl)).
  - exact (proj2 (single_layer_no_links zeroMath
                    (sampleConfig "hourglass" 1 4 0) 5 0 eq_refl)).
Defined.

(** C6 as stated fails: the single-layer funnel asked for 5 nodes does not
    return 5 positions (it returns none: the layer size is [NaN]). *)
Lemma single_layer_funnel_not_targetCount :
  ~ (exists r d',
       generateFunnel zeroMath (sampleConfig "funnel" 1 4 0) 5 0 = Ok (r, d') /\
       length (positions r) = 5).
Proof.
  intros (r & d' & E & H). vm_compute in E. injection E as <- <-.
  discriminate H.
Qed.

(** C10 (adjacent layers).  Every link of the funnel, hourglass and onion
    generators goes from a node of some layer [l] to a node of layer
    [l + 1], whatever the draws. *)
Theorem links_join_adjacent_layers (M : MathLib) (rand : nat -> Q)
  (dm : DataManager) :
  random_source rand ->
  (forall config targetCount d, exists r d',
     generateFunnel M config targetCount d = Ok (r, d') /\
     forall c, c ∈ connections r -> links_adjacent_layers (positions r) c) /\
  (forall config targetCount d, exists r d',
     generateHourglass M config targetCount d = Ok (r, d') /\
     forall c, c ∈ connections r -> links_adjacent_layers (positions r) c) /\
  (forall config targetCount d, exists r d',
     generateOnion M rand dm config targetCount d = Ok (r, d') /\
     forall c, c ∈ connections r -> links_adjacent_layers (positions r) c).
Proof.
  intros Hr. split; [|split]; intros config t d.
  - destruct (generateFunnel_built M config t d) as (r & d' & E & Hb).
    exists r, d'. eauto using built_adjacent.
  - destruct (generateHourglass_built M config t d) as (r & d' & E & Hb).
    exists r, d'. eauto using built_adjacent.
  - destruct (generateOnion_built M rand dm config t d Hr) as (r & d' & E & Hb).
    exists r, d'. eauto using built_adjacent.
Qed.

Lemma links_join_adjacent_layers_witness :
  random_source sampleDraws /\
  exists r d',
    generateOnion zeroMath sampleDraws sampleData (sampleConfig "onion" 3 4 0)
      30 0 = Ok (r, d') /\
    forall c, c ∈ connections r -> links_adjacent_layers (positions r) c.
Proof.
  split; [exact sampleDraws_source|].
  exact (proj2 (proj2 (links_join_adjacent_layers zeroMath sampleDraws
                         sampleData sampleDraws_source)) _ _ _).
Defined.

Lemma nodeTag_rule (n i : nat) :
  (i < 8 -> nodeTag n i = "input") /\
  (8 <= i -> n <= i + 8 -> nodeTag n i = "output") /\
  (8 <= i -> i + 8 < n -> nodeTag n i = "internal").
Proof.
  unfold nodeTag. destruct (i <? 8) eqn:E1.
  - apply Nat.ltb_lt in E1. repeat split; intros; try reflexivity; lia.
  - apply Nat.ltb_ge in E1.
    destruct (Z.of_nat i >=? Z.of_nat n - 8)%Z eqn:E2.
    + repeat split; intros; try reflexivity; lia.
    + repeat split; intros; try reflexivity; lia.
Qed.

Lemma structure_tags (n : nat) (r : StructureDescription) :
  structure_of n r -> tags_follow_rule n (Structure.positions r).
Proof.
  intros (Hlen & Htag & _). split; [exact Hlen|].
  intros i p Hp. rewrite (Htag i p Hp).
  destruct (nodeTag_rule n i) as (H1 & H2 & H3).
  repeat split; intros; f_equal; auto.
Qed.

(** C7, as the code has it (structure tags).  Both structure generators
    return [nodeCount] nodes; node [i] is tagged 'input' when [i < 8],
    'output' when [i >= 8] and [i >= nodeCount - 8], 'internal' otherwise.
    With 16 nodes, nodes 0-7 are inputs and nodes 8-15 outputs. *)
Theorem structure_node_tags (M : MathLib) (rand : nat -> Q)
  (config : StructureConfig) (nodeCount d : nat) :
  (exists r d',
     generateSphereSurface M rand config nodeCount d = Ok (r, d') /\
     tags_follow_rule nodeCount (Structure.positions r) /\
     (nodeCount = 16 -> forall i p, Structure.positions r !! i = Some p ->
        Position.type p = Some (if i <? 8 then "input" else "output"))) /\
  (exists r d',
     generateRandomGraph rand config nodeCount d = Ok (r, d') /\
     tags_follow_rule nodeCount (Structure.positions r) /\
     (nodeCount = 16 -> forall i p, Structure.positions r !! i = Some p ->
        Position.type p = Some (if i <? 8 then "input" else "output"))).
Proof.
  assert (H16 : forall ps, tags_follow_rule nodeCount ps -> nodeCount = 16 ->
            forall i p, ps !! i = Some p ->
            Position.type p = Some (if i <? 8 then "input" else "output")).
  { intros ps [Hlen Hrule] Hn i p Hp.
    pose proof (lookup_lt_Some _ _ _ Hp) as Hi.
    destruct (Hrule i p Hp) as (H1 & H2 & _).
    destruct (i <? 8) eqn:E.
    - apply Nat.ltb_lt in E. auto.
    - apply Nat.ltb_ge in E. apply H2; lia. }
  split.
  - destruct (generateSphereSurface_spec M rand config nodeCount d)
      as (r & d' & E & Hs).
    exists r, d'. split; [exact E|]. apply structure_tags in Hs. eauto.
  - destruct (generateRandomGraph_spec rand config nodeCount d)
      as (r & d' & E & Hs).
    exists r, d'. split; [exact E|]. apply structure_tags in Hs. eauto.
Qed.

Lemma structure_node_tags_witness :
  exists r d',
    generateSphereSurface zeroMath sampleDraws
      (sampleStructure "fibonacci_sphere") 16 0 = Ok (r, d') /\
    (Position.type <$> Structure.positions r !! 7) = Some (Some "input") /\
    (Position.type <$> Structure.positions r !! 8) = Some (Some "output").
Proof.
  destruct (proj1 (structure_node_tags zeroMath sampleDraws
                     (sampleStructure "fibonacci_sphere") 16 0))
    as (r & d' & E & [Hlen _] & H16).
  exists r, d'. split; [exact E|].
  destruct (lookup_lt_is_Some_2 (Structure.positions r) 7) as [p7 E7];
    [rewrite Hlen; lia|].
  destruct (lookup_lt_is_Some_2 (Structure.positions r) 8) as [p8 E8];
    [rewrite Hlen; lia|].
  rewrite E7, E8. cbn.
  rewrite (H16 eq_refl 7 p7 E7), (H16 eq_refl 8 p8 E8). split; reflexivity.
Defined.

(** C7 as stated fails: of 10 nodes, the nodes 2-9 are the last 8, and not
    all of them are tagged 'output' (node 5 is an input). *)
Lemma overlap_is_not_output :
  ~ (forall r d',
       generateSphereSurface zeroMath sampleDraws
         (sampleStructure "fibonacci_sphere") 10 0 = Ok (r, d') ->
       forall i p, 10 - 8 <= i -> Structure.positions r !! i = Some p ->
                   Position.type p = Some "output").
Proof.
  intros H.
  destruct (generateSphereSurface zeroMath sampleDraws
              (sampleStructure "fibonacci_sphere") 10 0)
    as [[r d']| |] eqn:E; [|vm_compute in E; discriminate..].
  specialize (H r d' eq_refl 5).
  vm_compute in E. injection E as <- <-.
  specialize (H _ ltac:(lia) eq_refl). discriminate H.
Qed.

(** C8, as the code has it (forced types).  When the small-world generator
    returns, it has one type per node; node [i] is a 'sensor' when
    [i < cocoonCount * 0.1], a 'processor' when [i > cocoonCount * 0.9], and
    otherwise has the type name drawn for it, whatever the draws. *)
Theorem small_world_forced_types (M : MathLib) (rand : nat -> Q)
  (dm : DataManager) (fuel : nat) (config : TopologyConfig)
  (cocoonCount d : nat) (r : NetworkDescription) (d' : nat) :
  random_source rand ->
  generateSmallWorld M rand dm fuel config cocoonCount d = Ok (r, d') ->
  length (types r) = cocoonCount /\
  forall i, i < cocoonCount ->
    exists t, types r !! i = Some t /\
      (10 * i < cocoonCount -> t = Some "sensor") /\
      (9 * cocoonCount < 10 * i -> t = Some "processor") /\
      (cocoonCount <= 10 * i -> 10 * i <= 9 * cocoonCount ->
       exists m,
         t = subscript (typeNames dm) (Math_floor (Fin (rand m) * 4)%num)).
Proof.
  intros Hr E.
  destruct (generateSmallWorld_inv M rand dm fuel config cocoonCount d r d'
              Hr E)
    as (st0 & st & (_ & Hlen & _ & _ & Hty) & (_ & Et & _) & ->).
  cbn [types topologyResult]. rewrite Et. split; [exact Hlen|].
  intros i Hi. destruct (Hty i Hi) as (t & Ht & Hs). exists t.
  split; [exact Ht|]. unfold smallWorldType in Hs.
  destruct (10 * i <? cocoonCount) eqn:E1.
  - apply Nat.ltb_lt in E1. repeat split; intros; try assumption; lia.
  - apply Nat.ltb_ge in E1. destruct (9 * cocoonCount <? 10 * i) eqn:E2.
    + apply Nat.ltb_lt in E2. repeat split; intros; try assumption; lia.
    + apply Nat.ltb_ge in E2. repeat split; intros; try assumption; lia.
Qed.

Lemma small_world_forced_types_witness :
  random_source sampleDraws /\
  exists r d',
    generateSmallWorld zeroMath sampleDraws sampleData 8
      (sampleConfig "smallworld" 1 4 (1 # 2)) 30 0 = Ok (r, d') /\
    types r !! 2 = Some (Some "sensor") /\
    types r !! 28 = Some (Some "processor").
Proof.
  split; [exact sampleDraws_source|].
  destruct (generateSmallWorld zeroMath sampleDraws sampleData 8
              (sampleConfig "smallworld" 1 4 (1 # 2)) 30 0)
    as [[r d']| |] eqn:E; [|vm_compute in E; discriminate..].
  exists r, d'. split; [reflexivity|].
  destruct (small_world_forced_types zeroMath sampleDraws sampleData 8
              (sampleConfig "smallworld" 1 4 (1 # 2)) 30 0 r d'
              sampleDraws_source E) as [_ H].
  destruct (H 2 ltac:(lia)) as (t2 & -> & H2 & _).
  destruct (H 28 ltac:(lia)) as (t28 & -> & _ & H28 & _).
  rewrite H2, H28 by lia. split; reflexivity.
Defined.

(** C8 as stated fails: of 5 nodes, the last [ceil(5 * 0.1) = 1] node is
    node 4, and with the draws all 0.5 it is typed 'memory'. *)
Lemma last_tenth_not_forced :
  ~ (forall rand, random_source rand ->
     forall r d',
       generateSmallWorld zeroMath rand sampleData 8
         (sampleConfig "smallworld" 1 4 0) 5 0 = Ok (r, d') ->
       forall i, 5 - (5 + 9) / 10 <= i -> i < 5 ->
                 types r !! i = Some (Some "processor")).
Proof.
  intros H. specialize (H halfDraws halfDraws_source).
  destruct (generateSmallWorld zeroMath halfDraws sampleData 8
              (sampleConfig "smallworld" 1 4 0) 5 0)
    as [[r d']| |] eqn:E; [|vm_compute in E; discriminate..].
  specialize (H r d' eq_refl 4).
  vm_compute in E. injection E as <- <-.
  specialize (H ltac:(cbn; lia) ltac:(lia)). discriminate H.
Qed.

(** C9 at its failing input.  With 2 nodes, [kNeighbors = 4] and
    [rewireProb = 0] the small-world generator returns, whatever the draws,
    the links 0-1, 0-0, 1-0, 1-1: two of them are self-loops. *)
Theorem small_world_self_loop (M : MathLib) (rand : nat -> Q)
  (dm : DataManager) (fuel : nat) (config : TopologyConfig) (d : nat) :
  random_source rand ->
  kNeighbors (parameters config) = 4 ->
  (rewireProb (parameters config) == 0)%Q ->
  exists r d',
    generateSmallWorld M rand dm fuel config 2 d = Ok (r, d') /\
    length (positions r) = 2 /\
    List.map (fun c => (Connection.from c, Connection.to c)) (connections r)
      = [(Some 0, Some 1); (Some 0, Some 0); (Some 1, Some 0);
         (Some 1, Some 1)].
Proof.
  intros Hr Hk Hp.
  destruct (generateSmallWorld_ring M rand dm fuel config 2 d)
    as (r & d' & E & Hn & Hc).
  { intros k. rewrite Hp. apply Hr. }
  rewrite Hk in Hc. exists r, d'. split; [exact E|]. split; [exact Hn|].
  rewrite Hc. reflexivity.
Qed.

Lemma small_world_self_loop_witness :
  random_source sampleDraws /\
  exists r d',
    generateSmallWorld zeroMath sampleDraws sampleData 8
      (sampleConfig "smallworld" 1 4 0) 2 0 = Ok (r, d') /\
    length (positions r) = 2 /\
    List.map (fun c => (Connection.from c, Connection.to c)) (connections r)
      = [(Some 0, Some 1); (Some 0, Some 0); (Some 1, Some 0);
         (Some 1, Some 1)].
Proof.
  split; [exact sampleDraws_source|].
  exact (small_world_self_loop zeroMath sampleDraws sampleData 8
           (sampleConfig "smallworld" 1 4 0) 0 sampleDraws_source
           eq_refl (Qeq_refl 0)).
Defined.

(** X21 (self-loops).  Where self-loops cannot occur: the layered and the
    structure generators never link a node to itself, and the small-world
    generator does not as long as [floor(kNeighbors / 2) < cocoonCount]. *)
Lemma self_loops_only_on_short_rings (M : MathLib) (rand : nat -> Q)
  (dm : DataManager) :
  random_source rand ->
  (forall config targetCount d, exists r d',
     generateFunnel M config targetCount d = Ok (r, d') /\
     forall c, c ∈ connections r -> Connection.from c <> Connection.to c) /\
  (forall config targetCount d, exists r d',
     generateOnion M rand dm config targetCount d = Ok (r, d') /\
     forall c, c ∈ connections r -> Connection.from c <> Connection.to c) /\
  (forall config targetCount d, exists r d',
     generateHourglass M config targetCount d = Ok (r, d') /\
     forall c, c ∈ connections r -> Connection.from c <> Connection.to c) /\
  (forall config nodeCount d, exists r d',
     generateSphereSurface M rand config nodeCount d = Ok (r, d') /\
     forall c, c ∈ Structure.connections r ->
               Connection.from c <> Connection.to c) /\
  (forall config nodeCount d, exists r d',
     generateRandomGraph rand config nodeCount d = Ok (r, d') /\
     forall c, c ∈ Structure.connections r ->
               Connection.from c <> Connection.to c) /\
  (forall fuel config cocoonCount d r d',
     kNeighbors (parameters config) / 2 < cocoonCount ->
     generateSmallWorld M rand dm fuel config cocoonCount d = Ok (r, d') ->
     forall c, c ∈ connections r -> Connection.from c <> Connection.to c).
Proof.
  intros Hr.
  assert (HS : forall n r, structure_of n r ->
            forall c, c ∈ Structure.connections r ->
                      Connection.from c <> Connection.to c).
  { intros n r (_ & _ & Hall) c Hc. rewrite Forall_forall in Hall.
    destruct (Hall c Hc) as (a & b & -> & -> & Hab & _).
    intros E. injection E. lia. }
  split; [|split; [|split; [|split; [|split]]]].
  - intros config t d.
    destruct (generateFunnel_built M config t d) as (r & d' & E & Hb).
    exists r, d'. split; [exact E|]. intros c Hc.
    eapply adjacent_no_self_loop, built_adjacent; eassumption.
  - intros config t d.
    destruct (generateOnion_built M rand dm config t d Hr) as (r & d' & E & Hb).
    exists r, d'. split; [exact E|]. intros c Hc.
    eapply adjacent_no_self_loop, built_adjacent; eassumption.
  - intros config t d.
    destruct (generateHourglass_built M config t d) as (r & d' & E & Hb).
    exists r, d'. split; [exact E|]. intros c Hc.
    eapply adjacent_no_self_loop, built_adjacent; eassumption.
  - intros config n d.
    destruct (generateSphereSurface_spec M rand config n d)
      as (r & d' & E & Hs).
    exists r, d'. eauto.
  - intros config n d.
    destruct (generateRandomGraph_spec rand config n d) as (r & d' & E & Hs).
    exists r, d'. eauto.
  - intros fuel config n d r d' Hk E.
    eapply smallWorld_distinct; eassumption.
Qed.

(** ** The layers of the positions, in order *)

Lemma layerOrder_S (cnt : nat -> nat) (L : nat) :
  layerOrder cnt (S L) = layerOrder cnt L ++ replicate (cnt L) (Some L).
Proof.
  unfold layerOrder. rewrite seq_S, flat_map_app. cbn.
  now rewrite app_nil_r.
Qed.

Lemma length_layerOrder (cnt : nat -> nat) (L : nat) :
  length (layerOrder cnt L) = layerStart cnt L.
Proof.
  induction L as [|L IH]; [reflexivity|].
  rewrite layerOrder_S, length_app, length_replicate, IH. reflexivity.
Qed.

(** One more node of [layer] keeps the ids consecutive. *)
Lemma grouped_step (cnt : nat -> nat) (layer i : nat) (st : Build)
  (p : Position.t) (t : NodeType) (ids : list nat)
  (cs : list Connection.t) :
  grouped cnt layer i st ->
  Position.layer p = Some layer ->
  layerCocoonIds st !! layer = Some ids ->
  grouped cnt layer (i + 1)
    (next_id (add_connections cs
       (set_layer layer (ids ++ [cocoonId st])
          (push_type t (push_position p st))))).
Proof.
  intros (Hmap & Hid & Hlow & Hcur) Hp Hids.
  rewrite Hcur in Hids. injection Hids as <-.
  split; [|split; [|split]]; build_simpl.
  - rewrite map_app, Hmap, replicate_add. cbn [List.map replicate].
    now rewrite Hp, app_assoc.
  - lia.
  - intros l Hl. rewrite lookup_insert_ne by lia. auto.
  - rewrite lookup_insert_eq, Hid. f_equal.
    replace (i + 1) with (S i) by lia. now rewrite seq_S.
Qed.

Lemma node_added_grouped (cnt : nat -> nat) (layer i : nat) (st st' : Build) :
  grouped cnt layer i st -> node_added layer st st' ->
  grouped cnt layer (i + 1) st'.
Proof.
  intros Hg (p & t & ids & cs & Hp & Hids & _ & ->).
  now apply grouped_step.
Qed.

Lemma open_layer_grouped (cnt : nat -> nat) (layer : nat) (st : Build) :
  grouped_done cnt layer st -> grouped cnt layer 0 (set_layer layer [] st).
Proof.
  intros (Hmap & Hid & Hlow). split; [|split; [|split]]; build_simpl.
  - now rewrite Hmap, app_nil_r.
  - lia.
  - intros l Hl. rewrite lookup_insert_ne by lia. auto.
  - now rewrite lookup_insert_eq.
Qed.

Lemma close_layer_grouped (cnt : nat -> nat) (layer : nat) (st : Build) :
  grouped cnt layer (cnt layer) st -> grouped_done cnt (layer + 1) st.
Proof.
  intros (Hmap & Hid & Hlow & Hcur). replace (layer + 1) with (S layer) by lia.
  split; [|split].
  - now rewrite layerOrder_S.
  - exact Hid.
  - intros l Hl. destruct (decide (l = layer)) as [->|Hne]; [exact Hcur|].
    apply Hlow. lia.
Qed.

Lemma grouped_done_start (cnt : nat -> nat) : grouped_done cnt 0 start.
Proof. repeat split. intros l Hl. lia. Qed.

(** The loop on [i] of one layer, with the order of the ids. *)
Lemma layer_loop_grouped (cnt : nat -> nat) (layer : nat) (bound : num)
  (node : nat -> Build -> Gen Build) (st : Build) (d : nat) :
  bound <> PInf -> cnt layer = tripN bound ->
  (forall i st d, i < tripN bound -> well_formed st ->
     layer_open cnt layer i st ->
     exists st' d', node i st d = Ok (st', d') /\ node_added layer st st') ->
  well_formed st -> layers_done cnt layer st -> grouped_done cnt layer st ->
  exists st' d',
    for_lt bound node (set_layer layer [] st) d = Ok (st', d') /\
    well_formed st' /\ layers_done cnt (layer + 1) st' /\
    grouped_done cnt (layer + 1) st'.
Proof.
  intros Hfin Hcnt Hnode Hwf Hdone Hgr.
  unfold for_lt, bind. rewrite (tripCount_Ok _ _ Hfin).
  destruct (open_layer cnt layer st Hwf Hdone) as [Hwf0 Hopen0].
  destruct (forEach_seq_total
              (fun i st _ => well_formed st /\ layer_open cnt layer i st /\
                             grouped cnt layer i st)
              node (tripN bound) 0 (set_layer layer [] st) d)
    as (st' & d' & E & Hwf' & Hopen' & Hgr').
  - split; [exact Hwf0|]. split; [exact Hopen0|].
    now apply open_layer_grouped.
  - intros i s d0 Hi (Hw & Ho & Hg).
    destruct (Hnode i s d0) as (s' & d1 & E & Hadd); [lia|assumption..|].
    exists s', d1. split; [exact E|]. split; [|split].
    + eapply node_added_well_formed; eassumption.
    + eapply node_added_layer_open; eassumption.
    + eapply node_added_grouped; eassumption.
  - exists st', d'. split; [exact E|]. cbn in Hopen', Hgr'.
    rewrite <- Hcnt in Hopen', Hgr'. split; [exact Hwf'|]. split.
    + now apply close_layer.
    + now apply close_layer_grouped.
Qed.

Lemma layers_loop_grouped (cnt : nat -> nat) (n : nat)
  (body : nat -> Build -> Gen Build) (d : nat) :
  (forall layer st d, layer < n -> well_formed st ->
     layers_done cnt layer st -> grouped_done cnt layer st ->
     exists st' d', body layer st d = Ok (st', d') /\
       well_formed st' /\ layers_done cnt (layer + 1) st' /\
       grouped_done cnt (layer + 1) st') ->
  exists st' d',
    for_range 0 n body start d = Ok (st', d') /\
    well_formed st' /\ layers_done cnt n st' /\ grouped_done cnt n st'.
Proof.
  intros Hbody. unfold for_range. rewrite Nat.sub_0_r.
  destruct (forEach_seq_total
              (fun l st _ => well_formed st /\ layers_done cnt l st /\
                             grouped_done cnt l st)
              body n 0 start d) as (st' & d' & E & H).
  - split; [apply well_formed_start|].
    split; [apply layers_done_start | apply grouped_done_start].
  - intros l s d0 Hl (Hw & Hd & Hg).
    destruct (Hbody l s d0) as (s' & d1 & E & H); [lia|assumption..|].
    now exists s', d1.
  - now exists st', d'.
Qed.

(** ** The fan-in block in integers *)

(** [list[i % list.length]] reads the list cyclically. *)
Lemma subscript_cycle (l : list string) (i : nat) :
  subscript l (rem (of_nat i) (of_nat (length l))) = cycle_at l i.
Proof.
  unfold cycle_at. destruct (length l =? 0) eqn:E.
  - apply Nat.eqb_eq in E. rewrite E. reflexivity.
  - apply Nat.eqb_neq in E.
    destruct (rem_integer (inject_Z (Z.of_nat i)) (Z.of_nat i) (length l))
      as (r & Er & Hr); [reflexivity|lia..|].
    unfold of_nat at 1, of_Z at 1. unfold subscript. rewrite Er.
    rewrite (index_of_integer r _ Hr) by (apply Z.mod_pos_bound; lia).
    now rewrite <- Nat2Z.inj_mod, Nat2Z.id.
Qed.

(** With an integer layer size the proportional subscript is the integer
    [(i * len / size + c) mod len]. *)
Lemma prevIdx_exact (i len c : nat) (q : Q) (z : Z) :
  (q == inject_Z z)%Q -> (Z.of_nat i < z)%Z -> 0 < len ->
  index_of (rem (Math_floor (of_nat i * of_nat len / Fin q) + of_nat c)%num
              (of_nat len))
  = Some ((i * len / Z.to_nat z + c) mod len).
Proof.
  intros Hq Hi Hlen.
  assert (Hnz : ~ (q == 0)%Q).
  { rewrite Hq. intros E. change 0%Q with (inject_Z 0) in E.
    apply (proj1 (inject_Z_injective _ _)) in E. lia. }
  unfold of_nat at 1 2, of_Z. cbn [mul div]. rewrite (Qeq_bool_false _ _ Hnz).
  cbn [Math_floor]. unfold of_nat at 1, of_Z at 1 2. cbn [add].
  assert (Hfl : Qfloor (inject_Z (Z.of_nat i) * inject_Z (Z.of_nat len) / q)
                = (Z.of_nat (i * len) / z)%Z).
  { rewrite Zdiv_Qdiv. apply Qfloor_comp.
    rewrite Hq, Nat2Z.inj_mul, inject_Z_mult. reflexivity. }
  rewrite Hfl.
  set (a := (Z.of_nat (i * len) / z)%Z).
  assert (Ha : (0 <= a)%Z) by (apply Z.div_pos; lia).
  destruct (rem_integer (inject_Z a + inject_Z (Z.of_nat c))
              (a + Z.of_nat c) len) as (r & Er & Hr).
  - now rewrite inject_Z_plus.
  - lia.
  - exact Hlen.
  - rewrite Er, (index_of_integer r _ Hr) by (apply Z.mod_pos_bound; lia).
    f_equal. apply Nat2Z.inj.
    rewrite Z2Nat.id by (apply Z.mod_pos_bound; lia).
    rewrite Nat2Z.inj_mod, Nat2Z.inj_add, Nat2Z.inj_div.
    rewrite Z2Nat.id by lia. reflexivity.
Qed.

Lemma tripN_integral (q : Q) (z : Z) (i : nat) :
  (q == inject_Z z)%Q -> i < tripN (Fin q) ->
  tripN (Fin q) = Z.to_nat z /\ (Z.of_nat i < z)%Z.
Proof.
  intros Hq Hi. rewrite (tripN_integer _ _ Hq) in *. split; [reflexivity|lia].
Qed.

Lemma forEach_push (f : nat -> nat -> Connection.t) (js : list nat)
  (st : Build) (d : nat) :
  forEach js (fun c st => ret (push_connection (f (cocoonId st) c) st)) st d
  = Ok (add_connections (List.map (f (cocoonId st)) js) st, d).
Proof.
  revert st. induction js as [|j js IH]; intros st.
  - cbn. now rewrite add_connections_nil.
  - cbn [forEach]. unfold bind, ret at 1. rewrite IH. cbn [List.map].
    build_simpl. f_equal. f_equal.
    unfold add_connections, push_connection. cbn.
    now rewrite <- app_assoc.
Qed.

(** The fan-in block adds exactly the links [fanIn]. *)
Lemma connectToPrevious_exact (cnt : nat -> nat) (step : num)
  (layer i : nat) (count : num) (st : Build) (d : nat) :
  i < tripN count -> integral count -> cnt layer = tripN count ->
  (0 < layer ->
   layerCocoonIds st !! (layer - 1)
     = Some (seq (layerStart cnt (layer - 1)) (cnt (layer - 1)))) ->
  cocoonId st = layerStart cnt layer + i ->
  connectToPrevious step layer i count st d
    = Ok (add_connections (fanIn cnt step layer i) st, d).
Proof.
  intros Hi Hint Hcnt Hprev Hid. unfold connectToPrevious, fanIn.
  destruct (0 <? layer) eqn:El; cbn [andb].
  2:{ now rewrite add_connections_nil. }
  apply Nat.ltb_lt in El. unfold bind. rewrite (Hprev El). cbn [defined ret].
  rewrite length_seq.
  destruct (0 <? cnt (layer - 1)) eqn:Elen.
  2:{ now rewrite add_connections_nil. }
  apply Nat.ltb_lt in Elen.
  destruct Hint as [->|(q & z & -> & Hq)]; [cbn in Hi; lia|].
  destruct (tripN_integral q z i Hq Hi) as [Etrip Hz].
  unfold for_range. rewrite Nat.sub_0_r.
  set (len := cnt (layer - 1)) in *. set (first := layerStart cnt (layer - 1)).
  rewrite (forEach_push
             (fun id c =>
                {| Connection.from :=
                     subscript (seq first len)
                       (rem (Math_floor (i * len / Fin q) + c)%num len);
                   Connection.to := Some id;
                   Connection.weight := (1 - c * step)%num |})).
  do 3 f_equal. apply map_ext_in. intros c _.
  unfold subscript. rewrite (prevIdx_exact _ _ _ _ _ Hq Hz Elen).
  rewrite lookup_seq_lt by (apply Nat.mod_upper_bound; lia).
  rewrite Hid, Hcnt, Etrip. reflexivity.
Qed.

(** One round of the loop on [i] of a fan-in generator, exactly. *)
Lemma fan_in_node_exact (cnt : nat -> nat) (step : num)
  (roles : nat -> list string) (layer i : nat) (count : num)
  (p : Position.t) (st : Build) (d : nat) :
  Position.layer p = Some layer ->
  i < tripN count -> integral count -> cnt layer = tripN count ->
  grouped cnt layer i st -> fanned cnt step roles layer i st ->
  exists st',
    (let st := push_position p st in
     let st :=
       push_type (subscript (roles layer) (rem i (length (roles layer)))) st in
     let* st := push_layer_id layer st in
     let* st := connectToPrevious step layer i count st in
     ret (next_id st)) d = Ok (st', d) /\
    grouped cnt layer (i + 1) st' /\ fanned cnt step roles layer (i + 1) st'.
Proof.
  intros Hp Hi Hint Hcnt Hg (Hconn & Hty).
  pose proof Hg as (Hmap & Hid & Hlow & Hcur).
  cbn zeta. unfold bind at 1, push_layer_id at 1, bind at 1.
  build_simpl. rewrite Hcur. cbn [defined ret]. unfold bind.
  rewrite (connectToPrevious_exact cnt step layer i count _ d Hi Hint Hcnt).
  - eexists. split; [reflexivity|]. split.
    + apply grouped_step; assumption.
    + split; build_simpl.
      * rewrite Hconn, <- app_assoc. f_equal.
        replace (i + 1) with (S i) by lia.
        rewrite seq_S, flat_map_app. cbn [flat_map Nat.add].
        now rewrite app_nil_r.
      * rewrite Hty, <- app_assoc. f_equal.
        replace (i + 1) with (S i) by lia.
        rewrite seq_S, map_app. cbn [List.map Nat.add].
        now rewrite subscript_cycle.
  - intros Hl. build_simpl. rewrite lookup_insert_ne by lia.
    apply Hlow. lia.
  - build_simpl. exact Hid.
Qed.

Lemma fanInLinks_S (cnt : nat -> nat) (step : num) (L : nat) :
  fanInLinks cnt step (S L)
  = fanInLinks cnt step L ++ flat_map (fanIn cnt step L) (seq 0 (cnt L)).
Proof.
  unfold fanInLinks. rewrite seq_S, flat_map_app. cbn. now rewrite app_nil_r.
Qed.

Lemma cycledTypes_S (cnt : nat -> nat) (roles : nat -> list string)
  (L : nat) :
  cycledTypes cnt roles (S L)
  = cycledTypes cnt roles L ++ List.map (cycle_at (roles L)) (seq 0 (cnt L)).
Proof.
  unfold cycledTypes. rewrite seq_S, flat_map_app. cbn. now rewrite app_nil_r.
Qed.

(** The loop on [i] of one layer of a fan-in generator. *)
Lemma fan_in_layer (cnt : nat -> nat) (step : num)
  (roles : nat -> list string) (layer : nat) (count : num)
  (node : nat -> Build -> Gen Build) (st : Build) (d : nat) :
  count <> PInf -> integral count -> cnt layer = tripN count ->
  (forall i st d,
     i < tripN count -> grouped cnt layer i st ->
     fanned cnt step roles layer i st ->
     exists st',
       node i st d = Ok (st', d) /\
       grouped cnt layer (i + 1) st' /\
       fanned cnt step roles layer (i + 1) st') ->
  grouped_done cnt layer st ->
  b_connections st = fanInLinks cnt step layer ->
  b_types st = cycledTypes cnt roles layer ->
  exists st',
    for_lt count node (set_layer layer [] st) d = Ok (st', d) /\
    grouped_done cnt (layer + 1) st' /\
    b_connections st' = fanInLinks cnt step (layer + 1) /\
    b_types st' = cycledTypes cnt roles (layer + 1).
Proof.
  intros Hfin Hint Hcnt Hnode Hg Hc Ht.
  unfold for_lt, bind. rewrite (tripCount_Ok _ _ Hfin).
  destruct (forEach_seq_total
              (fun i st d0 => d0 = d /\ grouped cnt layer i st /\
                              fanned cnt step roles layer i st)
              node (tripN count) 0 (set_layer layer [] st) d)
    as (st' & d' & E & -> & Hg' & Hc' & Ht').
  - split; [reflexivity|]. split; [now apply open_layer_grouped|].
    split; build_simpl; cbn; now rewrite app_nil_r.
  - intros i s d0 Hi (-> & Hgi & Hfi).
    destruct (Hnode i s d) as (s' & E & Hg' & Hf'); [lia|assumption..|].
    exists s', d. auto.
  - exists st'. split; [exact E|]. cbn in Hg', Hc', Ht'.
    rewrite <- Hcnt in Hg', Hc', Ht'.
    replace (layer + 1) with (S layer) by lia.
    rewrite fanInLinks_S, cycledTypes_S.
    split; [|split; assumption].
    replace (S layer) with (layer + 1) by lia. now apply close_layer_grouped.
Qed.

(** The loop on [layer] of a fan-in generator. *)
Lemma fan_in_layers (cnt : nat -> nat) (step : num)
  (roles : nat -> list string) (n : nat)
  (body : nat -> Build -> Gen Build) (d : nat) :
  (forall layer st,
     layer < n -> grouped_done cnt layer st ->
     b_connections st = fanInLinks cnt step layer ->
     b_types st = cycledTypes cnt roles layer ->
     exists st',
       body layer st d = Ok (st', d) /\
       grouped_done cnt (layer + 1) st' /\
       b_connections st' = fanInLinks cnt step (layer + 1) /\
       b_types st' = cycledTypes cnt roles (layer + 1)) ->
  exists st,
    for_range 0 n body start d = Ok (st, d) /\
    grouped_done cnt n st /\
    b_connections st = fanInLinks cnt step n /\
    b_types st = cycledTypes cnt roles n.
Proof.
  intros Hbody. unfold for_range. rewrite Nat.sub_0_r.
  destruct (forEach_seq_total
              (fun l st d0 => d0 = d /\ grouped_done cnt l st /\
                 b_connections st = fanInLinks cnt step l /\
                 b_types st = cycledTypes cnt roles l)
              body n 0 start d) as (st & d' & E & -> & H).
  - split; [reflexivity|]. split; [apply grouped_done_start|].
    split; reflexivity.
  - intros l s d0 Hl (-> & Hg & Hc & Ht).
    destruct (Hbody l s) as (s' & E & H); [lia|assumption..|].
    exists s', d. auto.
  - now exists st.
Qed.

(** ** Funnel and hourglass, exactly *)

Lemma funnelCount_integral (numLayers targetCount layer : nat) :
  layer < numLayers -> integral (funnelCount numLayers targetCount layer).
Proof.
  intros Hl. destruct (decide (numLayers = 1)) as [->|Hn].
  - replace layer with 0 by lia. now left.
  - destruct (funnelCount_formula numLayers targetCount layer Hn)
      as (q & E & Hq).
    right. eauto.
Qed.

Lemma hourglassCount_integral (config : TopologyConfig) (layer : nat) :
  layer < numLayers (parameters config) ->
  integral (hourglassCount config layer).
Proof.
  intros Hl. unfold hourglassCount.
  set (mid := numLayers (parameters config) / 2).
  destruct (decide (mid = 0)) as [E|E].
  - assert (layer = 0) as ->.
    { unfold mid in E. apply Nat.div_small_iff in E; lia. }
    rewrite E. left. reflexivity.
  - unfold of_nat, of_Z. cbn [div]. rewrite Qeq_bool_false.
    + right. cbn. eexists _, _. split; reflexivity.
    + intros H. change 0%Q with (inject_Z 0) in H.
      apply (proj1 (inject_Z_injective _ _)) in H. lia.
Qed.

Section FanIn.
Context (M : MathLib).

Lemma generateFunnel_exact (config : TopologyConfig) (targetCount d : nat) :
  exists r,
    generateFunnel M config targetCount d = Ok (r, d) /\
    fan_in_result (funnelCnt config targetCount) (lit 1 5)
      (funnelRole config) (numLayers (parameters config)) r.
Proof.
  unfold generateFunnel, bind.
  destruct (fan_in_layers (funnelCnt config targetCount) (lit 1 5)
              (funnelRole config) (numLayers (parameters config))
              (funnelLayer M config targetCount) d)
    as (st & E & (Hmap & _) & Hc & Ht).
  - intros layer st Hl Hg Hc Ht. unfold funnelLayer. cbn zeta.
    apply (fan_in_layer (funnelCnt config targetCount) (lit 1 5)
             (funnelRole config)); try assumption.
    + now apply funnelCount_finite.
    + now apply funnelCount_integral.
    + reflexivity.
    + intros i s d0 Hi Hgi Hfi. unfold funnelNode. cbn zeta.
      edestruct (fan_in_node_exact (funnelCnt config targetCount) (lit 1 5)
                   (funnelRole config) layer i
                   (funnelCount (numLayers (parameters config)) targetCount
                      layer)) as (s' & E & H);
        [| exact Hi | now apply funnelCount_integral | reflexivity
         | exact Hgi | exact Hfi |].
      2:{ exists s'. split; [exact E | exact H]. }
      reflexivity.
  - rewrite E. eexists. split; [reflexivity|]. now repeat split.
Qed.

Lemma generateHourglass_exact (config : TopologyConfig)
  (targetCount d : nat) :
  exists r,
    generateHourglass M config targetCount d = Ok (r, d) /\
    fan_in_result (hourglassCnt config) (lit 3 20) (hourglassRole config)
      (numLayers (parameters config)) r.
Proof.
  unfold generateHourglass, bind.
  destruct (fan_in_layers (hourglassCnt config) (lit 3 20)
              (hourglassRole config) (numLayers (parameters config))
              (hourglassLayer M config) d)
    as (st & E & (Hmap & _) & Hc & Ht).
  - intros layer st Hl Hg Hc Ht. unfold hourglassLayer. cbn zeta.
    apply (fan_in_layer (hourglassCnt config) (lit 3 20)
             (hourglassRole config)); try assumption.
    + now apply hourglassCount_finite.
    + now apply hourglassCount_integral.
    + reflexivity.
    + intros i s d0 Hi Hgi Hfi. unfold hourglassNode. cbn zeta.
      edestruct (fan_in_node_exact (hourglassCnt config) (lit 3 20)
                   (hourglassRole config) layer i
                   (hourglassCount config layer)) as (s' & E & H);
        [| exact Hi | now apply hourglassCount_integral | reflexivity
         | exact Hgi | exact Hfi |].
      2:{ exists s'. split; [exact E | exact H]. }
      reflexivity.
  - rewrite E. eexists. split; [reflexivity|]. now repeat split.
Qed.

End FanIn.

(** ** Reading the closed forms *)

Lemma layerStart_S (cnt : nat -> nat) (l : nat) :
  layerStart cnt (S l) = layerStart cnt l + cnt l.
Proof. reflexivity. Qed.

Lemma layerStart_mono (cnt : nat -> nat) (l l' : nat) :
  l <= l' -> layerStart cnt l <= layerStart cnt l'.
Proof.
  induction 1 as [|m _ IH]; [lia|]. rewrite layerStart_S. lia.
Qed.

(** The entry [id] of [layerOrder] is the layer whose block holds [id]. *)
Lemma layerOrder_lookup (cnt : nat -> nat) (n id : nat) (v : option nat) :
  layerOrder cnt n !! id = Some v ->
  exists l, v = Some l /\ l < n /\
            layerStart cnt l <= id < layerStart cnt (S l).
Proof.
  induction n as [|n IH]; [intros H; cbn in H; now rewrite lookup_nil in H|].
  rewrite layerOrder_S. intros H.
  apply lookup_app_Some in H as [H|[Hge H]].
  - destruct (IH H) as (l & -> & Hl & Hid). exists l. repeat split; lia.
  - apply lookup_replicate in H as [-> Hlt].
    rewrite length_layerOrder in *. exists n. rewrite layerStart_S.
    repeat split; lia.
Qed.

Lemma layerOrder_block (cnt : nat -> nat) (n l i : nat) :
  l < n -> i < cnt l ->
  layerOrder cnt n !! (layerStart cnt l + i) = Some (Some l).
Proof.
  intros Hl Hi. induction n as [|n IH]; [lia|].
  rewrite layerOrder_S. destruct (decide (l = n)) as [->|Hne].
  - rewrite lookup_app_r by (rewrite length_layerOrder; lia).
    rewrite length_layerOrder. apply lookup_replicate. split; [reflexivity|lia].
  - rewrite lookup_app_l; [apply IH; lia|].
    rewrite length_layerOrder.
    pose proof (layerStart_mono cnt (S l) n ltac:(lia)) as Hm.
    rewrite layerStart_S in Hm. lia.
Qed.

Lemma layer_of_position (ps : list Position.t) (id : nat) (p : Position.t) :
  ps !! id = Some p ->
  List.map Position.layer ps !! id = Some (Position.layer p).
Proof. intros H. exact (list_lookup_fmap_Some_2 Position.layer ps id p H). Qed.

Lemma layerOrder_ascend (cnt : nat -> nat) (n : nat) (ps : list Position.t) :
  List.map Position.layer ps = layerOrder cnt n -> layers_ascend n ps.
Proof.
  intros Hmap. split.
  - intros id p Hp. apply layer_of_position in Hp. rewrite Hmap in Hp.
    destruct (layerOrder_lookup _ _ _ _ Hp) as (l & -> & Hl & _). eauto.
  - intros i j pi pj li lj Hij Hi Hj Hli Hlj.
    apply layer_of_position in Hi, Hj.
    rewrite Hmap, Hli in Hi. rewrite Hmap, Hlj in Hj.
    destruct (layerOrder_lookup _ _ _ _ Hi) as (l1 & E1 & _ & Hb1).
    destruct (layerOrder_lookup _ _ _ _ Hj) as (l2 & E2 & _ & Hb2).
    injection E1 as <-. injection E2 as <-.
    destruct (Nat.le_gt_cases li lj) as [H|H]; [exact H|].
    pose proof (layerStart_mono cnt (S lj) li ltac:(lia)). lia.
Qed.

(** ** Counting the links of the fan-in *)

Lemma length_fanIn (cnt : nat -> nat) (step : num) (l i : nat) :
  length (fanIn cnt step l i)
  = if l =? 0 then 0 else Nat.min 3 (cnt (l - 1)).
Proof.
  unfold fanIn. destruct (0 <? l) eqn:El, (l =? 0) eqn:E0;
    apply Nat.ltb_lt in El || apply Nat.ltb_ge in El;
    apply Nat.eqb_eq in E0 || apply Nat.eqb_neq in E0; try lia;
    cbn [andb]; [|reflexivity].
  destruct (0 <? cnt (l - 1)) eqn:E.
  - now rewrite length_map, length_seq.
  - apply Nat.ltb_ge in E. cbn [length]. lia.
Qed.

Lemma length_flat_map_const {A B : Type} (f : A -> list B) (l : list A)
  (k : nat) :
  (forall x, length (f x) = k) -> length (flat_map f l) = length l * k.
Proof.
  intros H. induction l as [|x l IH]; [reflexivity|].
  cbn. rewrite length_app, H, IH. lia.
Qed.

Lemma length_fanInLinks (cnt : nat -> nat) (step : num) (n : nat) :
  length (fanInLinks cnt step n) = fanInTotal cnt n.
Proof.
  induction n as [|n IH]; [reflexivity|].
  rewrite fanInLinks_S, length_app, IH. cbn [fanInTotal]. f_equal.
  rewrite (length_flat_map_const _ _ _ (fun i => length_fanIn cnt step n i)).
  now rewrite length_seq.
Qed.

Lemma fanIn_to (cnt : nat -> nat) (step : num) (l i : nat)
  (c : Connection.t) :
  c ∈ fanIn cnt step l i ->
  Connection.to c = Some (layerStart cnt l + i) /\
  exists k, k < 3 /\ k < cnt (l - 1) /\ 0 < l /\
    Connection.from c
      = Some (layerStart cnt (l - 1)
              + (i * cnt (l - 1) / cnt l + k) mod cnt (l - 1)) /\
    Connection.weight c = (1 - k * step)%num.
Proof.
  unfold fanIn. destruct (0 <? l) eqn:El; cbn [andb];
    [|intros H; now apply not_elem_of_nil in H].
  destruct (0 <? cnt (l - 1)) eqn:Ec;
    [|intros H; now apply not_elem_of_nil in H].
  apply Nat.ltb_lt in El, Ec.
  intros H. apply list_elem_of_In, in_map_iff in H as (k & <- & Hk).
  apply in_seq in Hk. split; [reflexivity|]. exists k. cbn.
  repeat split; try reflexivity; lia.
Qed.

Lemma inDegree_app (cs1 cs2 : list Connection.t) (id : nat) :
  inDegree (cs1 ++ cs2) id = inDegree cs1 id + inDegree cs2 id.
Proof. unfold inDegree. now rewrite List.filter_app, length_app. Qed.

Lemma inDegree_all (cs : list Connection.t) (id : nat) :
  (forall c, c ∈ cs -> Connection.to c = Some id) ->
  inDegree cs id = length cs.
Proof.
  intros H. unfold inDegree. induction cs as [|c cs IH]; [reflexivity|].
  cbn. rewrite (H c) by constructor. rewrite Nat.eqb_refl. cbn.
  f_equal. apply IH. intros c' Hc'. apply H. now constructor.
Qed.

Lemma inDegree_none (cs : list Connection.t) (id : nat) :
  (forall c, c ∈ cs -> Connection.to c <> Some id) -> inDegree cs id = 0.
Proof.
  intros H. unfold inDegree. induction cs as [|c cs IH]; [reflexivity|].
  cbn. destruct (Connection.to c) as [t|] eqn:Et.
  - destruct (t =? id) eqn:E.
    + apply Nat.eqb_eq in E. subst. exfalso. apply (H c); [constructor|exact Et].
    + apply IH. intros c' Hc'. apply H. now constructor.
  - apply IH. intros c' Hc'. apply H. now constructor.
Qed.

(** The links of the nodes [0 .. m-1] of layer [l] that enter node [i]. *)
Lemma inDegree_block (cnt : nat -> nat) (step : num) (l m i : nat) :
  inDegree (flat_map (fanIn cnt step l) (seq 0 m)) (layerStart cnt l + i)
  = if i <? m then length (fanIn cnt step l i) else 0.
Proof.
  induction m as [|m IH]; [reflexivity|].
  rewrite seq_S, flat_map_app, inDegree_app, IH. cbn [flat_map Nat.add].
  rewrite app_nil_r.
  destruct (decide (i = m)) as [->|Hne].
  - rewrite Nat.ltb_irrefl, (proj2 (Nat.ltb_lt m (S m))) by lia.
    rewrite inDegree_all; [reflexivity|].
    intros c Hc. now apply fanIn_to in Hc as [-> _].
  - rewrite inDegree_none.
    + destruct (i <? m) eqn:E1, (i <? S m) eqn:E2; try lia;
        apply Nat.ltb_lt in E1 || apply Nat.ltb_ge in E1;
        apply Nat.ltb_lt in E2 || apply Nat.ltb_ge in E2; lia.
    + intros c Hc E. apply fanIn_to in Hc as [Hto _]. rewrite Hto in E.
      injection E. lia.
Qed.

Lemma inDegree_other_layer (cnt : nat -> nat) (step : num) (L l i : nat) :
  L <> l -> i < cnt l ->
  inDegree (flat_map (fanIn cnt step L) (seq 0 (cnt L)))
    (layerStart cnt l + i) = 0.
Proof.
  intros Hne Hi. apply inDegree_none. intros c Hc E.
  apply list_elem_of_In, in_flat_map in Hc as (j & Hj & Hc).
  apply in_seq in Hj. apply list_elem_of_In, fanIn_to in Hc as [Hto _].
  rewrite Hto in E. injection E as E.
  destruct (Nat.lt_total L l) as [H|[H|H]]; [|lia|].
  - pose proof (layerStart_mono cnt (S L) l ltac:(lia)) as Hm.
    rewrite layerStart_S in Hm. lia.
  - pose proof (layerStart_mono cnt (S l) L ltac:(lia)) as Hm.
    rewrite layerStart_S in Hm. lia.
Qed.

(** Node [i] of layer [l] gets the links [fanIn l i] and no other. *)
Lemma inDegree_fanInLinks (cnt : nat -> nat) (step : num) (n l i : nat) :
  l < n -> i < cnt l ->
  inDegree (fanInLinks cnt step n) (layerStart cnt l + i)
  = if l =? 0 then 0 else Nat.min 3 (cnt (l - 1)).
Proof.
  intros Hl Hi. induction n as [|n IH]; [lia|].
  rewrite fanInLinks_S, inDegree_app.
  destruct (decide (l = n)) as [->|Hne].
  - rewrite inDegree_block, (proj2 (Nat.ltb_lt _ _) Hi), length_fanIn.
    rewrite inDegree_none; [reflexivity|].
    intros c Hc E. unfold fanInLinks in Hc.
    apply list_elem_of_In, in_flat_map in Hc as (L & HL & Hc).
    apply in_seq in HL. apply in_flat_map in Hc as (j & Hj & Hc).
    apply in_seq in Hj. apply list_elem_of_In, fanIn_to in Hc as [Hto _].
    rewrite Hto in E. injection E as E.
    pose proof (layerStart_mono cnt (S L) n ltac:(lia)) as Hm.
    rewrite layerStart_S in Hm. lia.
  - rewrite IH by lia. rewrite inDegree_other_layer by (assumption || lia).
    lia.
Qed.

(** ** No link twice *)

Lemma mod_small_or_wrap (x len : nat) :
  x < 2 * len -> x mod len = if x <? len then x else x - len.
Proof.
  intros H. destruct (x <? len) eqn:E.
  - apply Nat.ltb_lt in E. now apply Nat.mod_small.
  - apply Nat.ltb_ge in E. symmetry. apply (Nat.mod_unique _ _ 1); lia.
Qed.

(** Fewer shifts than the modulus give different remainders. *)
Lemma mod_shift_inj (a len c1 c2 : nat) :
  c1 < len -> c2 < len -> (a + c1) mod len = (a + c2) mod len -> c1 = c2.
Proof.
  intros H1 H2 E.
  rewrite <- (Nat.Div0.add_mod_idemp_l a c1), <- (Nat.Div0.add_mod_idemp_l a c2)
    in E.
  pose proof (Nat.mod_upper_bound a len ltac:(lia)) as Hr.
  set (r := a mod len) in *.
  rewrite !mod_small_or_wrap in E by lia.
  destruct (r + c1 <? len) eqn:E1, (r + c2 <? len) eqn:E2;
    apply Nat.ltb_lt in E1 || apply Nat.ltb_ge in E1;
    apply Nat.ltb_lt in E2 || apply Nat.ltb_ge in E2; lia.
Qed.

Lemma NoDup_flat_map {A B : Type} (f : A -> list B) (l : list A) :
  NoDup l ->
  (forall x, x ∈ l -> NoDup (f x)) ->
  (forall x y b, x ∈ l -> y ∈ l -> b ∈ f x -> b ∈ f y -> x = y) ->
  NoDup (flat_map f l).
Proof.
  induction 1 as [|x l Hx Hl IH]; intros Hf Hdis; cbn; [constructor|].
  apply NoDup_app. split; [|split].
  - apply Hf. constructor.
  - intros b Hb Hin. apply list_elem_of_In, in_flat_map in Hin as (y & Hy & Hby).
    apply list_elem_of_In in Hy, Hby.
    assert (x = y) as <-.
    { apply (Hdis x y b); try assumption; [constructor | now constructor]. }
    contradiction.
  - apply IH.
    + intros y Hy. apply Hf. now constructor.
    + intros y1 y2 b H1 H2. apply Hdis; now constructor.
Qed.

Lemma endpoints_flat_map {A : Type} (f : A -> list Connection.t)
  (l : list A) :
  endpoints (flat_map f l) = flat_map (fun x => endpoints (f x)) l.
Proof.
  unfold endpoints. induction l as [|x l IH]; [reflexivity|].
  cbn. now rewrite map_app, IH.
Qed.

Lemma endpoints_fanIn (cnt : nat -> nat) (step : num) (l i : nat)
  (b : option nat * option nat) :
  b ∈ endpoints (fanIn cnt step l i) ->
  snd b = Some (layerStart cnt l + i) /\
  exists k, k < Nat.min 3 (cnt (l - 1)) /\
    fst b = Some (layerStart cnt (l - 1)
                  + (i * cnt (l - 1) / cnt l + k) mod cnt (l - 1)).
Proof.
  intros H. apply list_elem_of_In, in_map_iff in H as (c & <- & Hc).
  apply list_elem_of_In, fanIn_to in Hc
    as (Hto & k & Hk3 & Hkc & _ & Hfrom & _).
  split; [exact Hto|]. exists k. split; [lia | exact Hfrom].
Qed.

Lemma block_inj (cnt : nat -> nat) (l l' i i' : nat) :
  i < cnt l -> i' < cnt l' ->
  layerStart cnt l + i = layerStart cnt l' + i' -> l = l' /\ i = i'.
Proof.
  intros Hi Hi' E. destruct (Nat.lt_total l l') as [H|[H|H]].
  - pose proof (layerStart_mono cnt (S l) l' ltac:(lia)) as Hm.
    rewrite layerStart_S in Hm. lia.
  - subst. split; [reflexivity|lia].
  - pose proof (layerStart_mono cnt (S l') l ltac:(lia)) as Hm.
    rewrite layerStart_S in Hm. lia.
Qed.

Lemma NoDup_fanIn (cnt : nat -> nat) (step : num) (l i : nat) :
  NoDup (endpoints (fanIn cnt step l i)).
Proof.
  unfold fanIn, endpoints.
  destruct ((0 <? l) && (0 <? cnt (l - 1))) eqn:E; [|constructor].
  apply andb_true_iff in E as [_ Ec]. apply Nat.ltb_lt in Ec.
  rewrite map_map. cbn [Connection.from Connection.to].
  apply (NoDup_fmap_2_strong
           (fun c => (Some (layerStart cnt (l - 1)
                            + (i * cnt (l - 1) / cnt l + c) mod cnt (l - 1)),
                      Some (layerStart cnt l + i)))).
  - intros c1 c2 H1 H2 E. apply elem_of_seq in H1, H2.
    injection E as E. apply Nat.add_cancel_l in E.
    eapply mod_shift_inj; [| |exact E]; lia.
  - apply NoDup_seq.
Qed.

(** The closed form holds no link twice. *)
Lemma NoDup_fanInLinks (cnt : nat -> nat) (step : num) (n : nat) :
  NoDup (endpoints (fanInLinks cnt step n)).
Proof.
  unfold fanInLinks. rewrite endpoints_flat_map.
  assert (Hin : forall L b,
            b ∈ endpoints (flat_map (fanIn cnt step L) (seq 0 (cnt L))) ->
            exists i, i < cnt L /\ b ∈ endpoints (fanIn cnt step L i)).
  { intros L b Hb. rewrite endpoints_flat_map in Hb.
    apply list_elem_of_In, in_flat_map in Hb as (i & Hi & Hb).
    apply in_seq in Hi. apply list_elem_of_In in Hb. exists i. split; [lia|].
    exact Hb. }
  apply NoDup_flat_map.
  - apply NoDup_seq.
  - intros L _. rewrite endpoints_flat_map. apply NoDup_flat_map.
    + apply NoDup_seq.
    + intros i _. apply NoDup_fanIn.
    + intros i i' b Hi Hi' Hb Hb'. apply elem_of_seq in Hi, Hi'.
      apply endpoints_fanIn in Hb as [Hb _], Hb' as [Hb' _].
      rewrite Hb in Hb'. injection Hb' as E. lia.
  - intros L L' b _ _ Hb Hb'.
    destruct (Hin L b Hb) as (i & Hi & H1).
    destruct (Hin L' b Hb') as (i' & Hi' & H2).
    apply endpoints_fanIn in H1 as [H1 _], H2 as [H2 _].
    rewrite H1 in H2. injection H2 as E.
    now destruct (block_inj cnt L L' i i' Hi Hi' E).
Qed.

(** ** The onion, in detail *)

(** The size of layer [l] of the onion in integers. *)
Lemma onionCnt_formula (targetCount l : nat) :
  onionCnt targetCount l = Nat.max 1 (targetCount * (l + 1) / 10).
Proof.
  unfold onionCnt, onionCount, of_nat, of_Z. cbn [mul add div].
  rewrite Qeq_bool_false by discriminate. cbn [Math_floor].
  match goal with |- context [of_Z (Qfloor ?y)] => set (x := y) end.
  assert (Hx : (x == Z.of_nat (targetCount * (l + 1)) # 10)%Q).
  { unfold x. rewrite Qmake_Qdiv, <- inject_Z_plus, <- inject_Z_mult.
    rewrite Nat2Z.inj_mul, Nat2Z.inj_add. reflexivity. }
  idtac.
  rewrite (Qfloor_comp _ _ Hx).
  destruct (Math_max_integer 1 (Qfloor (Z.of_nat (targetCount * (l + 1)) # 10)))
    as (r & E & H).
  change (of_Z 1) with (Fin (inject_Z (Z.of_nat 1))).
  change (Fin (inject_Z (Z.of_nat 1))) with (of_Z 1). rewrite E.
  rewrite (tripN_integer _ _ H). cbn [Qfloor].
  change (Z.pos 10) with (Z.of_nat 10). rewrite <- Nat2Z.inj_div.
  lia.
Qed.

Lemma layerStart_pred (cnt : nat -> nat) (l : nat) :
  0 < l -> layerStart cnt l = layerStart cnt (l - 1) + cnt (l - 1).
Proof.
  intros Hl. destruct l as [|l]; [lia|].
  cbn [layerStart]. now rewrite Nat.sub_succ, Nat.sub_0_r.
Qed.

Lemma onion_inv_set_layer (cnt : nat -> nat) (names : list string)
  (layer : nat) (ids : list nat) (st : Build) :
  onion_inv cnt names st -> onion_inv cnt names (set_layer layer ids st).
Proof. intros H. exact H. Qed.

(** One more node keeps the links and the types of the onion in shape. *)
Lemma onion_inv_step (cnt : nat -> nat) (names : list string)
  (layer i k : nat) (p : Position.t) (ids : list nat)
  (cs : list Connection.t) (st : Build) :
  grouped cnt layer i st -> i < cnt layer -> k < 4 ->
  (cs = [] \/
   exists prev f,
     0 < layer /\ layerCocoonIds st !! (layer - 1) = Some prev /\ f ∈ prev /\
     cs = [Connection.mk (Some f) (Some (cocoonId st)) (lit 4 5)]) ->
  onion_inv cnt names st ->
  onion_inv cnt names
    (next_id (add_connections cs
       (set_layer layer ids (push_type (names !! k) (push_position p st))))).
Proof.
  intros (Hmap & Hid & Hlow & Hcur) Hi Hk Hcs (Hl & Hs & Ht).
  split; [|split]; build_simpl.
  - apply Forall_app. split; [exact Hl|].
    destruct Hcs as [->|(prev & f & H0 & Hprev & Hf & ->)]; [constructor|].
    constructor; [|constructor].
    exists layer, i, f. rewrite Hlow in Hprev by lia.
    injection Hprev as <-. apply elem_of_seq in Hf.
    rewrite (layerStart_pred cnt layer H0).
    cbn [Connection.to Connection.from Connection.weight].
    rewrite Hid, (layerStart_pred cnt layer H0).
    split; [exact H0|]. split; [exact Hi|]. split; [reflexivity|].
    split; [reflexivity|]. split; [lia | reflexivity].
  - rewrite map_app. replace (cocoonId st + 1) with (S (cocoonId st)) by lia.
    rewrite seq_S, map_app. apply sublist_app; [exact Hs|].
    destruct Hcs as [->|(prev & f & _ & _ & _ & ->)].
    + apply sublist_nil_l.
    + reflexivity.
  - apply Forall_app. split; [exact Ht|].
    constructor; [|constructor]. now exists k.
Qed.

Section Onion.
Context (M : MathLib) (rand : nat -> Q) (dm : DataManager).

(** One round of the loop on [i] of the onion, in detail: one position of
    the layer, one of the first four type names, and no link or one link of
    weight 0.8 from a node of the previous layer. *)
Lemma onionNode_step (targetCount layer : nat) (count radius : num)
  (i : nat) (st : Build) (d : nat) :
  random_source rand ->
  layer_open (onionCnt targetCount) layer i st ->
  exists st' d' p k ids cs,
    onionNode M rand dm layer count radius i st d = Ok (st', d') /\
    Position.layer p = Some layer /\ k < 4 /\
    layerCocoonIds st !! layer = Some ids /\
    (cs = [] \/
     exists prev f,
       0 < layer /\ layerCocoonIds st !! (layer - 1) = Some prev /\
       f ∈ prev /\
       cs = [Connection.mk (Some f) (Some (cocoonId st)) (lit 4 5)]) /\
    st' = next_id (add_connections cs
            (set_layer layer (ids ++ [cocoonId st])
               (push_type (typeNames dm !! k) (push_position p st)))).
Proof.
  intros Hr (Hlow & (ids & Hids & Hlen) & Hcount).
  destruct (Hr d) as [Hd0 Hd1].
  destruct (draw_index (rand d) 4 Hd0 Hd1) as (k & Hk & Ek); [lia|].
  unfold onionNode. cbn zeta.
  unfold bind at 1, random at 1. rewrite Ek.
  unfold subscript at 1. rewrite index_of_nat.
  unfold bind at 1, push_layer_id at 1, bind at 1.
  build_simpl. rewrite Hids. cbn [defined ret]. unfold bind at 1.
  destruct (0 <? layer) eqn:El.
  2:{ cbn [ret]. eexists _, _, _, k, ids, [].
      rewrite add_connections_nil.
      split; [reflexivity|].
      split; [|split; [exact Hk|split; [first [exact Hids | reflexivity]|split;
                 [now left | reflexivity]]]].
      reflexivity. }
  apply Nat.ltb_lt in El.
  unfold bind at 1, random at 1.
  destruct (Fin (rand (S d)) <? lit 1 2)%num.
  2:{ cbn [ret]. eexists _, _, _, k, ids, [].
      rewrite add_connections_nil.
      split; [reflexivity|].
      split; [|split; [exact Hk|split; [first [exact Hids | reflexivity]|split;
                 [now left | reflexivity]]]].
      reflexivity. }
  destruct (Hlow (layer - 1)) as (prev & Hprev & Hplen); [lia|].
  unfold bind at 1. build_simpl. rewrite lookup_insert_ne by lia.
  rewrite Hprev. cbn [defined ret]. unfold bind at 1, random at 1.
  pose proof (onionCnt_pos targetCount (layer - 1)) as Hpos.
  destruct (Hr (S (S d))) as [H0 H1].
  destruct (draw_index (rand (S (S d))) (length prev) H0 H1) as (j & Hj & Ej);
    [lia|].
  destruct (lookup_lt_is_Some_2 prev j Hj) as [f Ef].
  rewrite Ej. unfold subscript. rewrite index_of_nat, Ef.
  eexists _, _, _, k, ids, [_].
  split; [reflexivity|].
  split; [|split; [exact Hk|split; [first [exact Hids | reflexivity]|split; [|reflexivity]]]].
  2:{ right. exists prev, f. split; [exact El|]. split; [first [exact Hprev | reflexivity]|].
      split; [|reflexivity]. eapply list_elem_of_lookup_2; eassumption. }
  reflexivity.
Qed.

Lemma onionLayer_exact (config : TopologyConfig) (targetCount layer : nat)
  (st : Build) (d : nat) :
  random_source rand ->
  well_formed st -> layers_done (onionCnt targetCount) layer st ->
  grouped_done (onionCnt targetCount) layer st ->
  onion_inv (onionCnt targetCount) (typeNames dm) st ->
  exists st' d',
    onionLayer M rand dm config targetCount layer st d = Ok (st', d') /\
    well_formed st' /\ layers_done (onionCnt targetCount) (layer + 1) st' /\
    grouped_done (onionCnt targetCount) (layer + 1) st' /\
    onion_inv (onionCnt targetCount) (typeNames dm) st'.
Proof.
  intros Hr Hwf Hdone Hgr Hinv. unfold onionLayer. cbn zeta.
  set (cnt := onionCnt targetCount).
  assert (Hfin : onionCount targetCount layer <> PInf).
  { destruct (onionCount_formula targetCount layer) as (q & z & -> & _).
    discriminate. }
  unfold for_lt, bind. rewrite (tripCount_Ok _ _ Hfin).
  destruct (open_layer cnt layer st Hwf Hdone) as [Hwf0 Hopen0].
  destruct (forEach_seq_total
              (fun i st _ => well_formed st /\ layer_open cnt layer i st /\
                             grouped cnt layer i st /\
                             onion_inv cnt (typeNames dm) st)
              (onionNode M rand dm layer (onionCount targetCount layer)
                 (1 + layer * layerRadius (spacing (visualization config)))%num)
              (tripN (onionCount targetCount layer)) 0
              (set_layer layer [] st) d)
    as (st' & d' & E & Hwf' & Hopen' & Hgr' & Hinv').
  - split; [exact Hwf0|]. split; [exact Hopen0|].
    split; [now apply open_layer_grouped | exact Hinv].
  - intros i s d0 Hi (Hw & Ho & Hg & Hv).
    destruct (onionNode_added M rand dm targetCount layer
                (onionCount targetCount layer)
                (1 + layer * layerRadius (spacing (visualization config)))%num
                i s d0 Hr Ho) as (s' & d1 & E & Hadd).
    destruct (onionNode_step targetCount layer
                (onionCount targetCount layer)
                (1 + layer * layerRadius (spacing (visualization config)))%num
                i s d0 Hr Ho)
      as (s2 & d2 & p & k & ids & cs & E2 & _ & Hk & _ & Hcs & Hs2).
    rewrite E in E2. injection E2 as <- <-.
    exists s', d1. split; [exact E|]. split; [|split; [|split]].
    + eapply node_added_well_formed; eassumption.
    + eapply node_added_layer_open; eassumption.
    + eapply node_added_grouped; eassumption.
    + rewrite Hs2. apply (onion_inv_step cnt _ layer i); try assumption.
      unfold cnt, onionCnt. lia.
  - exists st', d'. split; [exact E|]. cbn in Hopen', Hgr'.
    split; [exact Hwf'|]. split; [|split].
    + now apply close_layer.
    + now apply close_layer_grouped.
    + exact Hinv'.
Qed.

(** What [generateOnion] returns. *)
Lemma generateOnion_exact (config : TopologyConfig) (targetCount d : nat) :
  random_source rand ->
  exists r d',
    generateOnion M rand dm config targetCount d = Ok (r, d') /\
    built (onionCnt targetCount) (numLayers (parameters config)) r /\
    List.map Position.layer (positions r)
      = layerOrder (onionCnt targetCount) (numLayers (parameters config)) /\
    layers r = Some (numLayers (parameters config)) /\
    Forall (onionLink (onionCnt targetCount)) (connections r) /\
    sublist (List.map Connection.to (connections r))
            (List.map Some (seq 0 (length (positions r)))) /\
    Forall (firstFour (typeNames dm)) (types r).
Proof.
  intros Hr. unfold generateOnion, bind, for_range. rewrite Nat.sub_0_r.
  set (cnt := onionCnt targetCount).
  destruct (forEach_seq_total
              (fun l st _ => well_formed st /\ layers_done cnt l st /\
                             grouped_done cnt l st /\
                             onion_inv cnt (typeNames dm) st)
              (onionLayer M rand dm config targetCount)
              (numLayers (parameters config)) 0 start d)
    as (st & d' & E & Hw & Hd & (Hmap & _) & Hl & Hs & Ht).
  - split; [apply well_formed_start|].
    split; [apply layers_done_start|].
    split; [apply grouped_done_start|].
    split; [constructor|]. split; [apply sublist_nil_l | constructor].
  - intros l s d0 Hl (Hw & Hd & Hg & Hv).
    now apply onionLayer_exact.
  - rewrite E. cbn [ret]. eexists _, d'. split; [reflexivity|].
    cbn [positions connections types layers topologyResult].
    split; [now exists st|]. split; [exact Hmap|].
    split; [reflexivity|]. split; [exact Hl|].
    split; [|exact Ht]. now rewrite <- (wf_next _ Hw).
Qed.

End Onion.

(** ** The shapes of the funnel and of the hourglass *)

Lemma funnelCnt_size (config : TopologyConfig) (targetCount L : nat) :
  2 <= numLayers (parameters config) ->
  funnelCnt config targetCount L
  = Z.to_nat (funnelLayerSize (numLayers (parameters config)) targetCount L).
Proof.
  intros H2. unfold funnelCnt.
  destruct (funnelCount_formula (numLayers (parameters config)) targetCount L)
    as (q & -> & Hq); [lia|].
  apply (tripN_integer _ _ Hq).
Qed.

Lemma funnelLayerSize_apex (n t : nat) : 2 <= n -> funnelLayerSize n t 0 = 1%Z.
Proof.
  intros Hn. unfold funnelLayerSize.
  assert (E : (1 + (inject_Z (Z.of_nat t) - 1)
                   * (inject_Z (Z.of_nat 0) / (inject_Z (Z.of_nat n) - 1)) ^ 2
               == 1)%Q).
  { change (inject_Z (Z.of_nat 0)) with 0%Q. unfold Qdiv.
    rewrite Qmult_0_l. cbn [Qpower Qpower_positive pow_pos]. ring. }
  rewrite (Qfloor_comp _ _ E). reflexivity.
Qed.

Lemma funnelLayerSize_base (n t : nat) :
  2 <= n -> funnelLayerSize n t (n - 1) = Z.max 1 (Z.of_nat t).
Proof.
  intros Hn. unfold funnelLayerSize.
  assert (E : (1 + (inject_Z (Z.of_nat t) - 1)
                   * (inject_Z (Z.of_nat (n - 1))
                      / (inject_Z (Z.of_nat n) - 1)) ^ 2
               == inject_Z (Z.of_nat t))%Q).
  { rewrite Nat2Z.inj_sub by lia. unfold Z.sub. rewrite inject_Z_plus.
    change (inject_Z (- Z.of_nat 1)) with (- (1))%Q.
    assert (Hb : ~ (inject_Z (Z.of_nat n) - 1 == 0)%Q).
    { intros E. assert (H : (2 <= inject_Z (Z.of_nat n))%Q).
      { change 2%Q with (inject_Z 2). rewrite <- Zle_Qle. lia. }
      lra. }
    cbn [Qpower Qpower_positive pow_pos]. field. exact Hb. }
  rewrite (Qfloor_comp _ _ E), Qfloor_Z. reflexivity.
Qed.

Lemma funnelLayerSize_mono (n t L L' : nat) :
  2 <= n -> L <= L' ->
  (funnelLayerSize n t L <= funnelLayerSize n t L')%Z.
Proof.
  intros Hn HL. unfold funnelLayerSize.
  assert (Hb : (0 < inject_Z (Z.of_nat n) - 1)%Q).
  { assert (H : (2 <= inject_Z (Z.of_nat n))%Q).
    { change 2%Q with (inject_Z 2). rewrite <- Zle_Qle. lia. }
    lra. }
  assert (Ha : (0 <= inject_Z (Z.of_nat L))%Q).
  { change 0%Q with (inject_Z 0). rewrite <- Zle_Qle. lia. }
  assert (Haa : (inject_Z (Z.of_nat L) <= inject_Z (Z.of_nat L'))%Q).
  { rewrite <- Zle_Qle. lia. }
  pose proof (Qinv_lt_0_compat _ Hb) as Hib.
  unfold Qdiv.
  set (ib := (/ (inject_Z (Z.of_nat n) - 1))%Q) in *.
  set (a := inject_Z (Z.of_nat L)) in *.
  set (a' := inject_Z (Z.of_nat L')) in *.
  assert (H0 : (0 <= a * ib)%Q) by nra.
  assert (H1 : (a * ib <= a' * ib)%Q) by nra.
  set (x := (a * ib)%Q) in *. set (y := (a' * ib)%Q) in *.
  assert (Hsq : (x ^ 2 <= y ^ 2)%Q) by (cbn; nra).
  assert (Hx : (0 <= x ^ 2)%Q) by (cbn; nra).
  destruct t as [|t].
  - change (inject_Z (Z.of_nat 0)) with 0%Q.
    assert (Hle : forall z, (0 <= z)%Q ->
              (Qfloor (1 + (0 - 1) * z) <= 1)%Z).
    { intros z Hz. assert (H' : (1 + (0 - 1) * z <= 1)%Q) by lra.
      apply Qfloor_resp_le in H'. exact H'. }
    pose proof (Hle _ Hx). assert (Hy : (0 <= y ^ 2)%Q) by lra.
    pose proof (Hle _ Hy). lia.
  - assert (HT : (1 <= inject_Z (Z.of_nat (S t)))%Q).
    { change 1%Q with (inject_Z 1). rewrite <- Zle_Qle. lia. }
    set (T := inject_Z (Z.of_nat (S t))) in *.
    assert (Hxy : (1 + (T - 1) * x ^ 2 <= 1 + (T - 1) * y ^ 2)%Q) by nra.
    apply Qfloor_resp_le in Hxy. lia.
Qed.

Lemma hourglassCnt_size (config : TopologyConfig) (L : nat) :
  2 <= numLayers (parameters config) ->
  hourglassCnt config L = Z.to_nat (Qfloor (hourglassArg config L + (1 # 2))).
Proof.
  intros H2. unfold hourglassCnt, hourglassCount, hourglassArg, distFromCenter.
  set (mid := numLayers (parameters config) / 2).
  assert (Hmid : 1 <= mid).
  { unfold mid. apply Nat.div_le_lower_bound; lia. }
  unfold of_nat, of_Z. cbn [div]. rewrite Qeq_bool_false.
  - cbn [sub neg add mul Math_round]. unfold of_Z.
    apply tripN_integer. reflexivity.
  - intros H. change 0%Q with (inject_Z 0) in H.
    apply (proj1 (inject_Z_injective _ _)) in H. lia.
Qed.

Lemma Qfloor_half (q : Q) (z : Z) :
  (q == inject_Z z)%Q -> Qfloor (q + (1 # 2)) = z.
Proof.
  intros H. assert (E : (q + (1 # 2) == (z * 2 + 1) # 2)%Q).
  { rewrite H. unfold Qeq, Qplus, inject_Z. cbn [Qnum Qden].
    change (Z.pos (1 * 2)) with 2%Z. lia. }
  rewrite (Qfloor_comp _ _ E). cbn [Qfloor].
  symmetry. apply (Z.div_unique _ 2 z 1); lia.
Qed.

Lemma midLayer_pos (config : TopologyConfig) :
  2 <= numLayers (parameters config) ->
  1 <= numLayers (parameters config) / 2.
Proof. intros H. apply Nat.div_le_lower_bound; lia. Qed.

Lemma inject_nat_pos (n : nat) : 1 <= n -> (0 < inject_Z (Z.of_nat n))%Q.
Proof.
  intros H. change 0%Q with (inject_Z 0). rewrite <- Zlt_Qlt. lia.
Qed.

Lemma hourglassCnt_end (config : TopologyConfig) :
  2 <= numLayers (parameters config) ->
  hourglassCnt config 0 = endCocoons (parameters config).
Proof.
  intros H2. rewrite (hourglassCnt_size config 0 H2).
  rewrite (Qfloor_half _ (Z.of_nat (endCocoons (parameters config)))).
  - apply Nat2Z.id.
  - unfold hourglassArg, distFromCenter.
    set (mid := numLayers (parameters config) / 2) in *.
    replace (Z.abs_nat (Z.of_nat 0 - Z.of_nat mid)) with mid by lia.
    pose proof (inject_nat_pos _ (midLayer_pos config H2)) as Hm.
    fold mid in Hm. field. lra.
Qed.

Lemma hourglassCnt_center (config : TopologyConfig) :
  2 <= numLayers (parameters config) ->
  hourglassCnt config (numLayers (parameters config) / 2)
  = centerCocoons (parameters config).
Proof.
  intros H2. rewrite (hourglassCnt_size config _ H2).
  rewrite (Qfloor_half _ (Z.of_nat (centerCocoons (parameters config)))).
  - apply Nat2Z.id.
  - unfold hourglassArg, distFromCenter. rewrite Z.sub_diag.
    change (inject_Z (Z.of_nat (Z.abs_nat 0))) with 0%Q.
    pose proof (inject_nat_pos _ (midLayer_pos config H2)) as Hm.
    set (mid := numLayers (parameters config) / 2) in *.
    field. lra.
Qed.

Lemma hourglassCnt_dist (config : TopologyConfig) (L L' : nat) :
  2 <= numLayers (parameters config) ->
  distFromCenter config L = distFromCenter config L' ->
  hourglassCnt config L = hourglassCnt config L'.
Proof.
  intros H2 E. rewrite !hourglassCnt_size by exact H2.
  unfold hourglassArg. now rewrite E.
Qed.

Lemma hourglassCnt_mono (config : TopologyConfig) (L L' : nat) :
  2 <= numLayers (parameters config) ->
  centerCocoons (parameters config) <= endCocoons (parameters config) ->
  distFromCenter config L <= distFromCenter config L' ->
  hourglassCnt config L <= hourglassCnt config L'.
Proof.
  intros H2 Hce Hd. rewrite !hourglassCnt_size by exact H2.
  enough (Qfloor (hourglassArg config L + (1 # 2))
          <= Qfloor (hourglassArg config L' + (1 # 2)))%Z by lia.
  apply Qfloor_resp_le. unfold hourglassArg, Qdiv.
  pose proof (Qinv_lt_0_compat _
                (inject_nat_pos _ (midLayer_pos config H2))) as Hm.
  set (im := (/ inject_Z (Z.of_nat (numLayers (parameters config) / 2)))%Q)
    in *.
  assert (Hc : (inject_Z (Z.of_nat (centerCocoons (parameters config)))
                <= inject_Z (Z.of_nat (endCocoons (parameters config))))%Q).
  { rewrite <- Zle_Qle. lia. }
  assert (Hdd : (inject_Z (Z.of_nat (distFromCenter config L))
                 <= inject_Z (Z.of_nat (distFromCenter config L')))%Q).
  { rewrite <- Zle_Qle. lia. }
  set (c := inject_Z (Z.of_nat (centerCocoons (parameters config)))) in *.
  set (e := inject_Z (Z.of_nat (endCocoons (parameters config)))) in *.
  set (a := inject_Z (Z.of_nat (distFromCenter config L))) in *.
  set (b := inject_Z (Z.of_nat (distFromCenter config L'))) in *.
  assert (H1 : (a * im <= b * im)%Q) by nra.
  nra.
Qed.

(** X9 (shape of the funnel).  With at least two layers the funnel has a
    single node on layer 0 and [max(1, targetCount)] nodes on its last
    layer, and its layers never get smaller from one layer to the next. *)
Theorem funnel_shape (M : MathLib) (config : TopologyConfig)
  (targetCount d : nat) :
  2 <= numLayers (parameters config) ->
  exists r d',
    generateFunnel M config targetCount d = Ok (r, d') /\
    nodesInLayer (positions r) 0 = 1 /\
    nodesInLayer (positions r) (numLayers (parameters config) - 1)
      = Nat.max 1 targetCount /\
    (forall L L', L <= L' -> L' < numLayers (parameters config) ->
       1 <= nodesInLayer (positions r) L <= nodesInLayer (positions r) L').
Proof.
  intros H2.
  destruct (generateFunnel_built M config targetCount d)
    as (r & d' & E & Hb).
  exists r, d'. split; [exact E|].
  assert (Hsize : forall L, L < numLayers (parameters config) ->
            nodesInLayer (positions r) L
            = Z.to_nat (funnelLayerSize (numLayers (parameters config))
                          targetCount L)).
  { intros L HL. rewrite (built_layer_size _ _ _ L Hb HL).
    now apply funnelCnt_size. }
  split; [|split].
  - rewrite Hsize, funnelLayerSize_apex by lia. reflexivity.
  - rewrite Hsize, funnelLayerSize_base by lia. lia.
  - intros L L' HLL HL'. rewrite !Hsize by lia.
    pose proof (funnelLayerSize_mono (numLayers (parameters config))
                  targetCount 0 L H2 ltac:(lia)) as H0.
    pose proof (funnelLayerSize_mono (numLayers (parameters config))
                  targetCount L L' H2 HLL) as H1.
    rewrite funnelLayerSize_apex in H0 by lia. lia.
Qed.

Lemma funnel_shape_witness :
  exists r d',
    generateFunnel zeroMath (sampleConfig "funnel" 4 4 0) 20 0 = Ok (r, d') /\
    nodesInLayer (positions r) 0 = 1 /\
    nodesInLayer (positions r) (4 - 1) = Nat.max 1 20 /\
    (forall L L', L <= L' -> L' < 4 ->
       1 <= nodesInLayer (positions r) L <= nodesInLayer (positions r) L').
Proof.
  apply (funnel_shape zeroMath (sampleConfig "funnel" 4 4 0) 20 0).
  cbn. lia.
Defined.

(** X10 (shape of the hourglass).  With at least two layers the hourglass
    has [endCocoons] nodes on layer 0 and [centerCocoons] nodes on the
    middle layer [floor(numLayers / 2)]; two layers at the same distance
    from the middle layer have the same size; and when
    [centerCocoons <= endCocoons] a layer nearer to the middle is never
    larger than one farther from it, all sizes lying between the two
    parameters. *)
Theorem hourglass_shape (M : MathLib) (config : TopologyConfig)
  (targetCount d : nat) :
  2 <= numLayers (parameters config) ->
  exists r d',
    generateHourglass M config targetCount d = Ok (r, d') /\
    nodesInLayer (positions r) 0 = endCocoons (parameters config) /\
    nodesInLayer (positions r) (numLayers (parameters config) / 2)
      = centerCocoons (parameters config) /\
    (forall L L',
       L < numLayers (parameters config) ->
       L' < numLayers (parameters config) ->
       distFromCenter config L = distFromCenter config L' ->
       nodesInLayer (positions r) L = nodesInLayer (positions r) L') /\
    (centerCocoons (parameters config) <= endCocoons (parameters config) ->
     forall L L',
       L < numLayers (parameters config) ->
       L' < numLayers (parameters config) ->
       distFromCenter config L <= distFromCenter config L' ->
       centerCocoons (parameters config) <= nodesInLayer (positions r) L
       /\ nodesInLayer (positions r) L <= nodesInLayer (positions r) L'
       /\ nodesInLayer (positions r) L' <= endCocoons (parameters config)).
Proof.
  intros H2.
  destruct (generateHourglass_built M config targetCount d)
    as (r & d' & E & Hb).
  exists r, d'. split; [exact E|].
  assert (Hsize : forall L, L < numLayers (parameters config) ->
            nodesInLayer (positions r) L = hourglassCnt config L).
  { intros L HL. exact (built_layer_size _ _ _ L Hb HL). }
  pose proof (midLayer_pos config H2) as Hmid.
  assert (Hlt : numLayers (parameters config) / 2
                < numLayers (parameters config)).
  { apply Nat.div_lt; lia. }
  split; [|split; [|split]].
  - rewrite Hsize by lia. now apply hourglassCnt_end.
  - rewrite Hsize by lia. now apply hourglassCnt_center.
  - intros L L' HL HL' Hd. rewrite !Hsize by lia.
    now apply hourglassCnt_dist.
  - intros Hce L L' HL HL' Hd. rewrite !Hsize by lia.
    rewrite <- (hourglassCnt_center config H2) at 1.
    rewrite <- (hourglassCnt_end config H2).
    pose proof (Nat.div_mod_eq (numLayers (parameters config)) 2) as Hdm.
    pose proof (Nat.mod_upper_bound (numLayers (parameters config)) 2
                  ltac:(lia)) as Hmod.
    split; [|split]; apply hourglassCnt_mono; try assumption;
      unfold distFromCenter in *; lia.
Qed.

Lemma hourglass_shape_witness :
  exists r d',
    generateHourglass zeroMath (sampleConfig "hourglass" 5 4 0) 20 0
      = Ok (r, d') /\
    nodesInLayer (positions r) 0
      = endCocoons (parameters (sampleConfig "hourglass" 5 4 0)) /\
    nodesInLayer (positions r) (5 / 2)
      = centerCocoons (parameters (sampleConfig "hourglass" 5 4 0)).
Proof.
  destruct (hourglass_shape zeroMath (sampleConfig "hourglass" 5 4 0) 20 0)
    as (r & d' & E & H0 & Hm & _).
  - cbn. lia.
  - exists r, d'. split; [exact E|]. split; [exact H0 | exact Hm].
Defined.

(** ** The small world: links, termination *)

Lemma outLinks_S (n h : nat) :
  outLinks (S n) h = outLinks n h ++ replicate h (Some n).
Proof.
  unfold outLinks. rewrite seq_S, flat_map_app. cbn.
  now rewrite app_nil_r.
Qed.

Lemma length_outLinks (n h : nat) : length (outLinks n h) = n * h.
Proof.
  induction n as [|n IH]; [reflexivity|].
  rewrite outLinks_S, length_app, length_replicate, IH. lia.
Qed.

Lemma replicate_snoc {A : Type} (k : nat) (x : A) :
  replicate k x ++ [x] = replicate (S k) x.
Proof.
  induction k as [|k IH]; [reflexivity|]. cbn. now rewrite IH.
Qed.

Section SmallWorldLinks.
Context (M : MathLib) (rand : nat -> Q) (dm : DataManager).

(** Every round of the loop on [j] adds one link that leaves node [i]. *)
Lemma smallWorldEdge_from (fuel : nat) (config : TopologyConfig)
  (n i j : nat) (st : Build) (d : nat) (st' : Build) (d' : nat) :
  smallWorldEdge rand fuel config n i j st d = Ok (st', d') ->
  exists c, st' = push_connection c st /\
            Connection.from c = Some i /\ Connection.weight c = lit 7 10.
Proof.
  unfold smallWorldEdge. cbn zeta. unfold bind at 1, random at 1.
  destruct (Fin (rand d) <? Fin (rewireProb (parameters config)))%num.
  - unfold bind at 1.
    destruct (bind (randomTarget rand n) _ (S d)) as [[t d1]| |];
      try discriminate.
    cbn [ret]. intros E. injection E as <- <-.
    eexists. split; [reflexivity|]. split; reflexivity.
  - unfold bind, ret. intros E. injection E as <- <-.
    eexists. split; [reflexivity|]. split; reflexivity.
Qed.

Lemma smallWorld_outLinks (fuel : nat) (config : TopologyConfig) (n : nat)
  (st0 : Build) (d : nat) (st : Build) (d' : nat) :
  b_connections st0 = [] ->
  for_range 0 n (fun i st =>
    for_range 1 (kNeighbors (parameters config) / 2 + 1)
      (smallWorldEdge rand fuel config n i) st) st0 d = Ok (st, d') ->
  List.map Connection.from (b_connections st)
    = outLinks n (kNeighbors (parameters config) / 2) /\
  Forall (fun c => Connection.weight c = lit 7 10) (b_connections st).
Proof.
  intros H0 E. unfold for_range in E. rewrite Nat.sub_0_r in E.
  set (h := kNeighbors (parameters config) / 2) in *.
  replace (h + 1 - 1) with h in E by lia.
  revert E.
  apply (forEach_seq_partial
           (fun i st _ =>
              List.map Connection.from (b_connections st) = outLinks i h /\
              Forall (fun c => Connection.weight c = lit 7 10)
                (b_connections st))).
  - rewrite H0. split; [reflexivity | constructor].
  - intros i s d1 s' d1' Hi [Hs Hw] E.
    replace (i + 1) with (S i) by lia. rewrite outLinks_S.
    assert (G : List.map Connection.from (b_connections s')
                = outLinks i h ++ replicate (1 + h - 1) (Some i) /\
                Forall (fun c => Connection.weight c = lit 7 10)
                  (b_connections s')).
    { revert E.
      apply (forEach_seq_partial
               (fun j st _ =>
                  List.map Connection.from (b_connections st)
                  = outLinks i h ++ replicate (j - 1) (Some i) /\
                  Forall (fun c => Connection.weight c = lit 7 10)
                    (b_connections st))).
      - cbn. rewrite app_nil_r. now split.
      - intros j s2 d2 s3 d3 Hj [Hm Hf] E.
        destruct (smallWorldEdge_from fuel config n i j s2 d2 s3 d3 E)
          as (c & -> & Hc & Hcw).
        build_simpl. rewrite map_app, Hm. cbn [List.map]. rewrite Hc.
        split.
        + rewrite <- app_assoc, replicate_snoc. do 2 f_equal. lia.
        + apply Forall_app. split; [exact Hf|]. now apply Forall_singleton. }
    replace (1 + h - 1) with h in G by lia. exact G.
Qed.

(** What the small world looks like whenever it is returned. *)
Lemma generateSmallWorld_links (fuel : nat) (config : TopologyConfig)
  (n d : nat) (r : NetworkDescription) (d' : nat) :
  generateSmallWorld M rand dm fuel config n d = Ok (r, d') ->
  length (positions r) = n /\
  (forall id p, positions r !! id = Some p -> Position.layer p = Some 0) /\
  layers r = Some 1 /\
  List.map Connection.from (connections r)
    = outLinks n (kNeighbors (parameters config) / 2) /\
  Forall (fun c => Connection.weight c = lit 7 10) (connections r).
Proof.
  unfold generateSmallWorld. cbn zeta. unfold bind at 1.
  destruct (smallWorld_nodes M rand dm config n d)
    as (st0 & d0 & -> & Hlen & _ & Hc & Hl & _).
  unfold bind.
  destruct (for_range 0 n _ st0 d0) as [[st d1]| |] eqn:E; try discriminate.
  cbn [ret]. intros H. injection H as <- <-.
  cbn [positions connections layers topologyResult].
  destruct (smallWorld_outLinks fuel config n st0 d0 st d1 Hc E) as [Hm Hw].
  assert (Hp : b_positions st = b_positions st0).
  { revert E. unfold for_range at 1. rewrite Nat.sub_0_r.
    apply (forEach_seq_partial
             (fun _ st _ => b_positions st = b_positions st0));
      [reflexivity|].
    intros i s d2 s' d2' _ Hs. unfold for_range.
    apply (forEach_seq_partial
             (fun _ st _ => b_positions st = b_positions st0)); [exact Hs|].
    intros j s2 d3 s3 d4 _ Hs2 E.
    destruct (smallWorldEdge_from fuel config n i j s2 d3 s3 d4 E)
      as (c & -> & _). exact Hs2. }
  rewrite Hp. split; [exact Hlen|]. split; [exact Hl|].
  split; [reflexivity|]. split; [exact Hm | exact Hw].
Qed.

End SmallWorldLinks.

Section SmallWorldRuns.
Context (M : MathLib) (rand : nat -> Q) (dm : DataManager).




(** With a single node every redraw yields that node again. *)
Lemma redraw_stuck (fuel d : nat) :
  random_source rand -> redraw rand fuel 1 0 (of_nat 0) d = Timeout.
Proof.
  intros Hr. revert d. induction fuel as [|fuel IH]; intros d; cbn [redraw];
    change (strict_eq (of_nat 0) (of_nat 0)) with true; cbn match.
  - reflexivity.
  - unfold bind.
    destruct (randomTarget_spec rand 1 d Hr) as (t & -> & k & Hk & ->); [lia|].
    replace k with 0 by lia. apply IH.
Qed.

Lemma generateSmallWorld_stuck (fuel : nat) (config : TopologyConfig)
  (d : nat) :
  random_source rand ->
  2 <= kNeighbors (parameters config) ->
  (rand (d + 3) < rewireProb (parameters config))%Q ->
  generateSmallWorld M rand dm fuel config 1 d = Timeout.
Proof.
  intros Hr Hk Hp. replace (d + 3) with (S (S (S d))) in Hp by lia.
  unfold generateSmallWorld. cbn zeta.
  assert (Hh : exists h, kNeighbors (parameters config) / 2 = S h).
  { assert (1 <= kNeighbors (parameters config) / 2)
      by (apply Nat.div_le_lower_bound; lia).
    exists (kNeighbors (parameters config) / 2 - 1). lia. }
  destruct Hh as [h ->].
  unfold bind at 1, for_range at 1. cbn [Nat.sub seq forEach].
  unfold bind at 1, smallWorldNode at 1. cbn zeta.
  unfold bind at 1, random at 1. unfold bind at 1, random at 1.
  unfold bind at 1, random at 1. rewrite lt_tenth.
  change (10 * 0 <? 1) with true. cbn match. cbn [ret].
  unfold bind at 1, for_range at 1. cbn [Nat.sub seq forEach].
  unfold bind at 1, for_range at 1.
  replace (S h + 1 - 1) with (S h) by lia. cbn [seq forEach].
  unfold bind at 1, smallWorldEdge at 1. cbn zeta.
  unfold bind at 1, random at 1.
  rewrite (proj2 (lt_Fin _ _) Hp). unfold bind at 1, bind at 1.
  destruct (randomTarget_spec rand 1 (S (S (S (S d)))) Hr)
    as (t & -> & k & Hk1 & ->); [lia|].
  replace k with 0 by lia. now rewrite redraw_stuck.
Qed.

End SmallWorldRuns.

(** ** The structure generators: nodes and pairs *)

(** The first loop of a structure generator, for any property of the node
    pushed in round [i]. *)
Lemma node_loop (P : nat -> Position.t -> Prop) (n : nat)
  (node : nat -> Build -> Gen Build) (d : nat) :
  (forall i st d, exists p d',
     node i st d = Ok (push_position p st, d') /\ P i p) ->
  exists st d',
    for_range 0 n node start d = Ok (st, d') /\
    length (b_positions st) = n /\ b_connections st = [] /\
    forall i p, b_positions st !! i = Some p -> P i p.
Proof.
  intros Hnode. unfold for_range. rewrite Nat.sub_0_r.
  apply (forEach_seq_total
           (fun k st _ => length (b_positions st) = k /\
                          b_connections st = [] /\
                          forall i p, b_positions st !! i = Some p -> P i p)).
  - split; [reflexivity|]. split; [reflexivity|].
    intros i p H. cbn in H. now rewrite lookup_nil in H.
  - intros i st d0 _ (Hlen & Hc & HP).
    destruct (Hnode i st d0) as (p & d' & E & Hp).
    exists (push_position p st), d'. split; [exact E|].
    split; [|split]; build_simpl.
    + rewrite length_app. cbn. lia.
    + exact Hc.
    + intros k q Hk. apply lookup_app_Some in Hk as [Hk|[Hge Hk]]; [eauto|].
      apply list_lookup_singleton_Some in Hk as [Hz <-].
      replace k with i by lia. exact Hp.
Qed.

Lemma endpoints_app (cs1 cs2 : list Connection.t) :
  endpoints (cs1 ++ cs2) = endpoints cs1 ++ endpoints cs2.
Proof. unfold endpoints. apply map_app. Qed.

(** The loop on all pairs [i < j] adds its links in the order of the
    pairs. *)
Lemma pair_loop_sorted (pair : nat -> nat -> Build -> Gen Build)
  (st0 : Build) (d : nat) :
  b_connections st0 = [] ->
  (forall i j st d, i < j < length (b_positions st) ->
     exists st' d', pair i j st d = Ok (st', d') /\
       (st' = st \/
        exists w,
          st' = push_connection (Connection.mk (Some i) (Some j) w) st)) ->
  exists st d',
    for_range 0 (length (b_positions st0)) (fun i st =>
      for_range (i + 1) (length (b_positions st)) (pair i) st) st0 d
    = Ok (st, d') /\
    b_positions st = b_positions st0 /\
    sublist (endpoints (b_connections st))
            (allPairs (length (b_positions st0))).
Proof.
  intros H0 Hpair. unfold for_range at 1. rewrite Nat.sub_0_r.
  set (n := length (b_positions st0)).
  unfold allPairs.
  apply (forEach_seq_total
           (fun i st _ =>
              b_positions st = b_positions st0 /\
              sublist (endpoints (b_connections st))
                      (flat_map (pairsFrom n) (seq 0 i)))).
  - split; [reflexivity|]. rewrite H0. reflexivity.
  - intros i s d0 Hi [Hp Hs]. unfold for_range.
    assert (Hlen : length (b_positions s) = n) by (now rewrite Hp).
    rewrite Hlen.
    destruct (forEach_seq_total
                (fun j st _ =>
                   b_positions st = b_positions st0 /\
                   sublist (endpoints (b_connections st))
                     (flat_map (pairsFrom n) (seq 0 i)
                      ++ List.map (fun j => (Some i, Some j))
                           (seq (i + 1) (j - (i + 1)))))
                (pair i) (n - (i + 1)) (i + 1) s d0)
      as (s' & d' & E & Hp' & Hs').
    + split; [exact Hp|]. rewrite Nat.sub_diag. cbn. now rewrite app_nil_r.
    + intros j s1 d1 Hj [Hp1 Hs1].
      destruct (Hpair i j s1 d1) as (s2 & d2 & E & Hcase).
      { rewrite Hp1. fold n. lia. }
      exists s2, d2. split; [exact E|].
      replace (j + 1 - (i + 1)) with (S (j - (i + 1))) by lia.
      rewrite seq_S, map_app, app_assoc.
      replace (i + 1 + (j - (i + 1))) with j by lia. cbn [List.map].
      destruct Hcase as [->|(w & ->)].
      * split; [exact Hp1|]. now apply sublist_inserts_r.
      * split; [exact Hp1|]. build_simpl. rewrite endpoints_app.
        apply sublist_app; [exact Hs1 | reflexivity].
    + exists s', d'. split; [exact E|]. split; [exact Hp'|].
      replace (i + 1 + (n - (i + 1)) - (i + 1)) with (n - (i + 1)) in Hs'
        by lia.
      replace (i + 1) with (S i) at 1 by lia.
      rewrite seq_S, flat_map_app. cbn [flat_map Nat.add].
      rewrite app_nil_r. exact Hs'.
Qed.

Lemma length_pairs (n k : nat) :
  k <= n -> 2 * length (flat_map (pairsFrom n) (seq 0 k)) = k * (2 * n - k - 1).
Proof.
  induction k as [|k IH]; intros Hk; [reflexivity|].
  rewrite seq_S, flat_map_app, length_app. cbn [flat_map Nat.add].
  rewrite app_nil_r. unfold pairsFrom at 2.
  rewrite length_map, length_seq. specialize (IH ltac:(lia)).
  assert (Hm : exists m, n = S k + m) by (exists (n - S k); lia).
  destruct Hm as [m ->].
  replace (S k + m - (k + 1)) with m by lia.
  replace (2 * (S k + m) - S k - 1) with (k + 2 * m) by lia.
  replace (2 * (S k + m) - k - 1) with (k + 1 + 2 * m) in IH by lia.
  rewrite Nat.mul_add_distr_l, IH. lia.
Qed.

Lemma length_allPairs (n : nat) : 2 * length (allPairs n) = n * (n - 1).
Proof.
  unfold allPairs. rewrite length_pairs by lia. f_equal. lia.
Qed.

Lemma elem_of_pairsFrom (n i : nat) (e : option nat * option nat) :
  e ∈ pairsFrom n i -> exists j, e = (Some i, Some j) /\ i < j < n.
Proof.
  intros H. apply list_elem_of_In, in_map_iff in H as (j & <- & Hj).
  apply in_seq in Hj. exists j. split; [reflexivity | lia].
Qed.

Lemma NoDup_allPairs (n : nat) : NoDup (allPairs n).
Proof.
  unfold allPairs. apply NoDup_flat_map.
  - apply NoDup_seq.
  - intros i _. unfold pairsFrom. apply NoDup_fmap_2; [|apply NoDup_seq].
    intros a b H. now injection H.
  - intros x y b _ _ Hx Hy.
    apply elem_of_pairsFrom in Hx as (j & -> & _).
    apply elem_of_pairsFrom in Hy as (j' & E & _). now injection E.
Qed.

(** What a list of links in the order of the pairs looks like. *)
Lemma sorted_pairs (n : nat) (cs : list Connection.t) :
  sublist (endpoints cs) (allPairs n) ->
  NoDup (endpoints cs) /\ 2 * length cs <= n * (n - 1).
Proof.
  intros Hs. split.
  - eapply sublist_NoDup; [apply NoDup_allPairs | exact Hs].
  - rewrite <- length_allPairs. apply sublist_length in Hs.
    unfold endpoints in Hs. rewrite length_map in Hs. lia.
Qed.

Section StructureRuns.
Context (M : MathLib) (rand : nat -> Q) (dm : DataManager).

Lemma spherePair_case (threshold : num) (i j : nat) (s : Build) (d : nat) :
  i < j < length (b_positions s) ->
  exists st' d', spherePair M rand threshold i j s d = Ok (st', d') /\
    (st' = s \/
     exists w, st' = push_connection (Connection.mk (Some i) (Some j) w) s).
Proof.
  intros Hij. unfold spherePair, bind.
  destruct (lookup_lt_is_Some_2 (b_positions s) i) as [pi ->]; [lia|].
  destruct (lookup_lt_is_Some_2 (b_positions s) j) as [pj ->]; [lia|].
  cbn [defined ret].
  destruct (_ <? _)%num; [|eexists _, _; split; [reflexivity|now left]].
  unfold random at 1.
  destruct (_ <? _)%num; eexists _, _; (split; [reflexivity|]);
    [right; now eexists | now left].
Qed.

Lemma randomPair_case (density : num) (i j : nat) (s : Build) (d : nat) :
  exists st' d', randomPair rand density i j s d = Ok (st', d') /\
    (st' = s \/
     exists w, st' = push_connection (Connection.mk (Some i) (Some j) w) s).
Proof.
  unfold randomPair, bind, random.
  destruct (_ <? _)%num; eexists _, _; (split; [reflexivity|]);
    [right; now eexists | now left].
Qed.

(** The sphere: node [i] at height [(1 - i / (nodeCount - 1) * 2) * 3], the
    links in the order of the pairs. *)
Lemma generateSphereSurface_exact (config : StructureConfig) (n d : nat) :
  exists r d',
    generateSphereSurface M rand config n d = Ok (r, d') /\
    length (Structure.positions r) = n /\
    (forall i p, Structure.positions r !! i = Some p ->
       Position.y p
       = mul (sub (of_nat 1)
                (mul (div (of_nat i) (sub (of_nat n) (of_nat 1))) (of_nat 2)))
           (of_nat 3)) /\
    sublist (endpoints (Structure.connections r)) (allPairs n).
Proof.
  unfold generateSphereSurface. cbn zeta. unfold bind at 1.
  destruct (node_loop
              (fun i p => Position.y p
                 = mul (sub (of_nat 1)
                          (mul (div (of_nat i) (sub (of_nat n) (of_nat 1)))
                             (of_nat 2))) (of_nat 3))
              n (sphereNode M n) d)
    as (st0 & d0 & -> & Hlen & Hc & Hy).
  { intros i st d0. eexists _, _. split; reflexivity. }
  unfold bind at 1.
  destruct (pair_loop_sorted (spherePair M rand (distanceThreshold config))
              st0 d0 Hc) as (st & d' & -> & Hp & Hs).
  { intros i j s d1 Hij. now apply spherePair_case. }
  cbn [ret]. eexists _, _. split; [reflexivity|].
  cbn [Structure.positions Structure.connections structureResult].
  rewrite Hp. split; [exact Hlen|]. split; [exact Hy|].
  now rewrite Hlen in Hs.
Qed.

(** The random graph: every coordinate [(Math.random() - 0.5) * 6], the
    links in the order of the pairs. *)
Lemma generateRandomGraph_exact (config : StructureConfig) (n d : nat) :
  exists r d',
    generateRandomGraph rand config n d = Ok (r, d') /\
    length (Structure.positions r) = n /\
    (random_source rand ->
     forall i p, Structure.positions r !! i = Some p ->
       in_cube (Position.x p) /\ in_cube (Position.y p) /\
       in_cube (Position.z p)) /\
    sublist (endpoints (Structure.connections r)) (allPairs n).
Proof.
  unfold generateRandomGraph. cbn zeta. unfold bind at 1.
  assert (Hcube : random_source rand ->
            forall k, in_cube ((Fin (rand k) - lit 1 2) * 6)%num).
  { intros Hr k. destruct (Hr k) as [H0 H1]. eexists. split; [reflexivity|].
    change (inject_Z (Z.of_nat 6)) with 6%Q. split; lra. }
  destruct (node_loop
              (fun _ p => random_source rand ->
                          in_cube (Position.x p) /\ in_cube (Position.y p) /\
                          in_cube (Position.z p))
              n (randomNode rand n) d)
    as (st0 & d0 & -> & Hlen & Hc & Hy).
  { intros i st d0. unfold randomNode, bind, random. cbn [ret].
    eexists _, _. split; [reflexivity|]. intros Hr.
    cbn [Position.x Position.y Position.z].
    split; [|split]; now apply Hcube. }
  unfold bind at 1.
  destruct (pair_loop_sorted (randomPair rand (connectionDensity config))
              st0 d0 Hc) as (st & d' & -> & Hp & Hs).
  { intros i j s d1 _. apply randomPair_case. }
  cbn [ret]. eexists _, _. split; [reflexivity|].
  cbn [Structure.positions Structure.connections structureResult].
  rewrite Hp. split; [exact Hlen|]. split; [|now rewrite Hlen in Hs].
  intros Hr i p Hip. exact (Hy i p Hip Hr).
Qed.

End StructureRuns.

(** ** The dispatchers *)

Lemma forEach_no_throw {S : Type} (body : nat -> S -> Gen S) (l : list nat) :
  (forall i s d, body i s d <> TypeError) ->
  forall s d, forEach l body s d <> TypeError.
Proof.
  intros Hbody. induction l as [|i l IH]; intros s d; cbn [forEach].
  - discriminate.
  - unfold bind. pose proof (Hbody i s d) as Hb.
    destruct (body i s d) as [[s' d']| |]; [apply IH | congruence | discriminate].
Qed.

Section NoThrow.
Context (M : MathLib) (rand : nat -> Q) (dm : DataManager).

Lemma redraw_no_throw (fuel n i : nat) (target : num) (d : nat) :
  redraw rand fuel n i target d <> TypeError.
Proof.
  revert target d. induction fuel as [|fuel IH]; intros target d;
    cbn [redraw]; destruct (strict_eq target (of_nat i)); try discriminate.
  unfold bind, randomTarget, random, bind, ret. apply IH.
Qed.

Lemma smallWorldEdge_no_throw (fuel : nat) (config : TopologyConfig)
  (n i j : nat) (st : Build) (d : nat) :
  smallWorldEdge rand fuel config n i j st d <> TypeError.
Proof.
  unfold smallWorldEdge. cbn zeta. unfold bind at 1, random at 1.
  destruct (_ <? _)%num.
  - unfold bind at 1, bind at 1, randomTarget, random, bind at 1, ret at 1.
    pose proof (redraw_no_throw fuel n i
                  (Math_floor (Fin (rand (S d)) * n)%num) (S (S d))) as H.
    destruct (redraw rand fuel n i _ (S (S d))) as [[t d']| |];
      [discriminate | congruence | discriminate].
  - discriminate.
Qed.

Lemma generateSmallWorld_no_throw (fuel : nat) (config : TopologyConfig)
  (n d : nat) :
  generateSmallWorld M rand dm fuel config n d <> TypeError.
Proof.
  unfold generateSmallWorld. cbn zeta. unfold bind at 1.
  destruct (smallWorld_nodes M rand dm config n d) as (st0 & d0 & -> & _).
  unfold bind at 1.
  match goal with
  | |- context [for_range 0 n ?body st0 d0] =>
      pose proof (forEach_no_throw body (seq 0 (n - 0))) as H
  end.
  unfold for_range at 1.
  match type of H with
  | ?P -> _ => assert (Hb : P)
  end.
  { intros i s d1. unfold for_range.
    apply forEach_no_throw. intros j s2 d2.
    apply smallWorldEdge_no_throw. }
  specialize (H Hb st0 d0).
  destruct (forEach _ _ st0 d0) as [[st d1]| |];
    [discriminate | congruence | discriminate].
Qed.

End NoThrow.

(** ** The layered generators for given layer sizes *)

Lemma Math_floor_integral (v : num) :
  v <> PInf -> v <> NInf -> integral (Math_floor v).
Proof.
  intros HP HN. destruct v as [q| | |]; try congruence.
  - right. exists (inject_Z (Qfloor q)), (Qfloor q). split; reflexivity.
  - now left.
Qed.

Lemma Math_round_integral (v : num) :
  bounded_count (Math_round v) -> integral (Math_round v).
Proof.
  intros [HP HN]. destruct v as [q| | |]; cbn in *; try congruence.
  - right. eexists _, _. split; reflexivity.
  - now left.
Qed.

Lemma Math_max_one_integral (v : num) :
  Math_max 1 (Math_floor v) <> PInf -> integral (Math_max 1 (Math_floor v)).
Proof.
  intros HP. destruct v as [q| | |].
  - cbn [Math_floor]. destruct (Math_max_integer 1 (Qfloor q)) as (r & E & H).
    right. exists r, (Z.max 1 (Qfloor q)). split; [exact E | exact H].
  - exfalso. apply HP. reflexivity.
  - right. exists (inject_Z 1), 1%Z. split; reflexivity.
  - now left.
Qed.

Lemma funnelCountDouble_integral (numLayers targetCount layer : nat) :
  funnelCountDouble numLayers targetCount layer <> PInf ->
  integral (funnelCountDouble numLayers targetCount layer).
Proof. apply Math_max_one_integral. Qed.

Lemma hourglassCountDouble_integral (config : TopologyConfig) (layer : nat) :
  bounded_count (hourglassCountDouble config layer) ->
  integral (hourglassCountDouble config layer).
Proof. apply Math_round_integral. Qed.

Section ForCounts.
Context (M : MathLib).

(** The generators of the source are the generators for the layer sizes of
    exact arithmetic. *)
Lemma generateFunnel_for (config : TopologyConfig) (targetCount : nat) :
  generateFunnel M config targetCount
  = generateFunnelFor M config
      (funnelCount (numLayers (parameters config)) targetCount).
Proof. reflexivity. Qed.

Lemma generateHourglass_for (config : TopologyConfig) (targetCount : nat) :
  generateHourglass M config targetCount
  = generateHourglassFor M config (hourglassCount config).
Proof. reflexivity. Qed.

Lemma generateFunnelFor_built (config : TopologyConfig) (count : nat -> num)
  (d : nat) :
  (forall l, l < numLayers (parameters config) -> count l <> PInf) ->
  exists r d',
    generateFunnelFor M config count d = Ok (r, d') /\
    built (fun l => tripN (count l)) (numLayers (parameters config)) r.
Proof.
  intros Hfin. unfold generateFunnelFor, bind.
  destruct (layers_loop (fun l => tripN (count l))
              (numLayers (parameters config))
              (fun layer => funnelLayerFor M (count layer) config layer) d)
    as (st & d' & E & Hw & Hd).
  - intros layer st d0 Hl Hw Hd. unfold funnelLayerFor. cbn zeta.
    apply (layer_loop (fun l => tripN (count l))); try assumption.
    + now apply Hfin.
    + reflexivity.
    + intros i s d1 Hi _ Hopen. eapply funnelNode_added; eassumption.
  - rewrite E. eexists _, d'. split; [reflexivity|]. now exists st.
Qed.

Lemma generateFunnelFor_exact (config : TopologyConfig) (count : nat -> num)
  (d : nat) :
  (forall l, l < numLayers (parameters config) ->
     count l <> PInf /\ integral (count l)) ->
  exists r,
    generateFunnelFor M config count d = Ok (r, d) /\
    fan_in_result (fun l => tripN (count l)) (lit 1 5) (funnelRole config)
      (numLayers (parameters config)) r.
Proof.
  intros Hcount. unfold generateFunnelFor, bind.
  set (cnt := fun l => tripN (count l)).
  destruct (fan_in_layers cnt (lit 1 5) (funnelRole config)
              (numLayers (parameters config))
              (fun layer => funnelLayerFor M (count layer) config layer) d)
    as (st & E & (Hmap & _) & Hc & Ht).
  - intros layer st Hl Hg Hc Ht. unfold funnelLayerFor. cbn zeta.
    destruct (Hcount layer Hl) as [Hfin Hint].
    apply (fan_in_layer cnt (lit 1 5) (funnelRole config)); try assumption.
    + reflexivity.
    + intros i s d0 Hi Hgi Hfi. unfold funnelNode. cbn zeta.
      edestruct (fan_in_node_exact cnt (lit 1 5) (funnelRole config) layer i
                   (count layer)) as (s' & E & H);
        [| exact Hi | exact Hint | reflexivity | exact Hgi | exact Hfi |].
      2:{ exists s'. split; [exact E | exact H]. }
      reflexivity.
  - rewrite E. eexists. split; [reflexivity|]. now repeat split.
Qed.

Lemma generateHourglassFor_built (config : TopologyConfig)
  (count : nat -> num) (d : nat) :
  (forall l, l < numLayers (parameters config) -> count l <> PInf) ->
  exists r d',
    generateHourglassFor M config count d = Ok (r, d') /\
    built (fun l => tripN (count l)) (numLayers (parameters config)) r.
Proof.
  intros Hfin. unfold generateHourglassFor, bind.
  destruct (layers_loop (fun l => tripN (count l))
              (numLayers (parameters config))
              (fun layer => hourglassLayerFor M (count layer) config layer) d)
    as (st & d' & E & Hw & Hd).
  - intros layer st d0 Hl Hw Hd. unfold hourglassLayerFor. cbn zeta.
    apply (layer_loop (fun l => tripN (count l))); try assumption.
    + now apply Hfin.
    + reflexivity.
    + intros i s d1 Hi _ Hopen. unfold hourglassNode. cbn zeta.
      edestruct (fan_in_node_added (lit 3 20) (fun l => tripN (count l))
                   layer i (count layer)) as (s' & E & H);
        [| exact Hi | exact Hopen |].
      2:{ exists s', d1. split; [exact E | exact H]. }
      reflexivity.
  - rewrite E. eexists _, d'. split; [reflexivity|]. now exists st.
Qed.

Lemma generateHourglassFor_exact (config : TopologyConfig)
  (count : nat -> num) (d : nat) :
  (forall l, l < numLayers (parameters config) ->
     count l <> PInf /\ integral (count l)) ->
  exists r,
    generateHourglassFor M config count d = Ok (r, d) /\
    fan_in_result (fun l => tripN (count l)) (lit 3 20)
      (hourglassRole config) (numLayers (parameters config)) r.
Proof.
  intros Hcount. unfold generateHourglassFor, bind.
  set (cnt := fun l => tripN (count l)).
  destruct (fan_in_layers cnt (lit 3 20) (hourglassRole config)
              (numLayers (parameters config))
              (fun layer => hourglassLayerFor M (count layer) config layer) d)
    as (st & E & (Hmap & _) & Hc & Ht).
  - intros layer st Hl Hg Hc Ht. unfold hourglassLayerFor. cbn zeta.
    destruct (Hcount layer Hl) as [Hfin Hint].
    apply (fan_in_layer cnt (lit 3 20) (hourglassRole config));
      try assumption.
    + reflexivity.
    + intros i s d0 Hi Hgi Hfi. unfold hourglassNode. cbn zeta.
      edestruct (fan_in_node_exact cnt (lit 3 20) (hourglassRole config)
                   layer i (count layer)) as (s' & E & H);
        [| exact Hi | exact Hint | reflexivity | exact Hgi | exact Hfi |].
      2:{ exists s'. split; [exact E | exact H]. }
      reflexivity.
  - rewrite E. eexists. split; [reflexivity|]. now repeat split.
Qed.

End ForCounts.

(** ** The layer sizes of the code *)

Lemma fan_in_result_length (cnt : nat -> nat) (step : num)
  (roles : nat -> list string) (n : nat) (r : NetworkDescription) :
  fan_in_result cnt step roles n r ->
  length (positions r) = layerStart cnt n /\
  length (connections r) = fanInTotal cnt n.
Proof.
  intros (Hmap & _ & Hc & _). split.
  - rewrite <- (length_map Position.layer), Hmap. apply length_layerOrder.
  - rewrite Hc. apply length_fanInLinks.
Qed.

(** C4 (funnel layer sizes), as the code has it.  With three layers and
    [targetCount = 10] the funnel has 1, 3 and 10 nodes on layers 0, 1 and
    2, and 14 positions in all; in general layer [L] has as many nodes as
    [max(1, floor(1 + (targetCount-1) * (L/(numLayers-1))^2))] evaluated in
    binary64, as long as no layer size is infinite. *)
Theorem funnel_layer_sizes (M : MathLib) (config : TopologyConfig) (d : nat) :
  (numLayers (parameters config) = 3 ->
   exists r d',
     generateFunnelDouble M config 10 d = Ok (r, d') /\
     nodesInLayer (positions r) 0 = 1 /\
     nodesInLayer (positions r) 1 = 3 /\
     nodesInLayer (positions r) 2 = 10 /\
     length (positions r) = 14) /\
  (forall targetCount L,
     (forall l, l < numLayers (parameters config) ->
        funnelCountDouble (numLayers (parameters config)) targetCount l
        <> PInf) ->
     L < numLayers (parameters config) ->
     exists r d',
       generateFunnelDouble M config targetCount d = Ok (r, d') /\
       nodesInLayer (positions r) L
       = tripN (funnelCountDouble (numLayers (parameters config))
                  targetCount L)).
Proof.
  split.
  - intros H3. unfold generateFunnelDouble. rewrite H3.
    assert (Hc : forall l, l < numLayers (parameters config) ->
              funnelCountDouble 3 10 l <> PInf /\
              integral (funnelCountDouble 3 10 l)).
    { intros l Hl. rewrite H3 in Hl.
      assert (Hfin : funnelCountDouble 3 10 l <> PInf).
      { do 3 (destruct l as [|l]; [vm_compute; discriminate|]). lia. }
      split; [exact Hfin | now apply funnelCountDouble_integral]. }
    destruct (generateFunnelFor_exact M config (funnelCountDouble 3 10) d Hc)
      as (r & E & Hres).
    destruct (generateFunnelFor_built M config (funnelCountDouble 3 10) d)
      as (r0 & d0 & E0 & Hb); [intros l Hl; now apply Hc|].
    rewrite E in E0. injection E0 as <- <-. rewrite H3 in Hb, Hres.
    exists r, d. split; [exact E|].
    rewrite !(built_layer_size _ _ _ _ Hb) by lia.
    destruct (fan_in_result_length _ _ _ _ _ Hres) as [Hlen _].
    rewrite Hlen. repeat split; vm_compute; reflexivity.
  - intros t L Hfin HL. unfold generateFunnelDouble.
    destruct (generateFunnelFor_built M config
                (funnelCountDouble (numLayers (parameters config)) t) d Hfin)
      as (r & d' & E & Hb).
    exists r, d'. split; [exact E|].
    exact (built_layer_size _ _ _ L Hb HL).
Qed.

Lemma funnel_layer_sizes_witness :
  (exists r d',
     generateFunnelDouble zeroMath (sampleConfig "funnel" 3 4 0) 10 0
       = Ok (r, d') /\
     nodesInLayer (positions r) 0 = 1 /\
     nodesInLayer (positions r) 1 = 3 /\
     nodesInLayer (positions r) 2 = 10 /\
     length (positions r) = 14) /\
  (exists r d',
     generateFunnelDouble zeroMath (sampleConfig "funnel" 4 4 0) 25 0
       = Ok (r, d') /\
     nodesInLayer (positions r) 2 = 11).
Proof.
  split.
  - exact (proj1 (funnel_layer_sizes zeroMath (sampleConfig "funnel" 3 4 0) 0)
             eq_refl).
  - destruct (proj2 (funnel_layer_sizes zeroMath (sampleConfig "funnel" 4 4 0)
                       0) 25 2) as (r & d' & E & H).
    + intros l Hl. cbn in Hl.
      do 4 (destruct l as [|l]; [vm_compute; discriminate|]). lia.
    + cbn. lia.
    + exists r, d'. split; [exact E|]. exact (eq_trans H eq_refl).
Defined.

(** C4, the formula in exact arithmetic fails: with eight layers and
    [targetCount = 148] layer 1 has 3 nodes, the code computing
    [1 + 147 * (1/7)^2] as [3.9999999999999996], while the formula of the
    specification gives 4. *)
Lemma funnel_layer_below_formula :
  exists r d',
    generateFunnelDouble zeroMath (sampleConfig "funnel" 8 4 0) 148 0
      = Ok (r, d') /\
    nodesInLayer (positions r) 1 = 3 /\
    funnelLayerSize 8 148 1 = 4%Z /\
    Z.of_nat (nodesInLayer (positions r) 1) <> funnelLayerSize 8 148 1.
Proof.
  destruct (generateFunnelFor_built zeroMath (sampleConfig "funnel" 8 4 0)
              (funnelCountDouble 8 148) 0) as (r & d' & E & Hb).
  { intros l Hl. cbn in Hl.
    do 8 (destruct l as [|l]; [vm_compute; discriminate|]). lia. }
  exists r, d'. split; [exact E|].
  assert (H1 : nodesInLayer (positions r) 1 = 3).
  { rewrite (built_layer_size _ _ _ 1 Hb) by (cbn; lia).
    vm_compute. reflexivity. }
  split; [exact H1|]. split; [vm_compute; reflexivity|].
  rewrite H1. vm_compute. discriminate.
Qed.

(** X1 (funnel, closed form).  As long as no layer size is infinite,
    [generateFunnel] returns and draws nothing, and its result is, for the
    layer sizes [size(L)] the code computes in binary64: the positions
    listed layer by layer; for node [i] of layer [L] the type
    [roles[i mod roles.length]] of the role list of its layer (apex, base or
    middle); and for every node [i] of a layer [L >= 1] the
    [min(3, size(L-1))] links from the nodes number
    [(floor(i * size(L-1) / size(L)) + c) mod size(L-1)] of the previous
    layer, with weights [1 - c * 0.2], in the order of [c]. *)
Theorem funnel_closed_form (M : MathLib) (config : TopologyConfig)
  (targetCount d : nat) :
  (forall l, l < numLayers (parameters config) ->
     funnelCountDouble (numLayers (parameters config)) targetCount l
     <> PInf) ->
  exists r,
    generateFunnelDouble M config targetCount d = Ok (r, d) /\
    let size l :=
      tripN (funnelCountDouble (numLayers (parameters config))
               targetCount l) in
    List.map Position.layer (positions r)
      = layerOrder size (numLayers (parameters config)) /\
    types r = cycledTypes size (funnelRole config)
                (numLayers (parameters config)) /\
    connections r = fanInLinks size (lit 1 5)
                      (numLayers (parameters config)) /\
    layers r = Some (numLayers (parameters config)).
Proof.
  intros Hfin. unfold generateFunnelDouble.
  destruct (generateFunnelFor_exact M config
              (funnelCountDouble (numLayers (parameters config)) targetCount)
              d) as (r & E & H).
  { intros l Hl. split; [now apply Hfin|].
    apply funnelCountDouble_integral. now apply Hfin. }
  exists r. split; [exact E | exact H].
Qed.

Lemma funnel_closed_form_witness :
  exists r,
    generateFunnelDouble zeroMath (sampleConfig "funnel" 8 4 0) 148 0
      = Ok (r, 0) /\
    List.map (nodesInLayer (positions r)) (seq 0 8)
      = [1; 3; 12; 27; 48; 76; 108; 148] /\
    length (connections r) = 1260.
Proof.
  assert (Hfin : forall l,
            l < numLayers (parameters (sampleConfig "funnel" 8 4 0)) ->
            funnelCountDouble
              (numLayers (parameters (sampleConfig "funnel" 8 4 0))) 148 l
            <> PInf).
  { intros l Hl. cbn in Hl.
    do 8 (destruct l as [|l]; [vm_compute; discriminate|]). lia. }
  destruct (funnel_closed_form zeroMath (sampleConfig "funnel" 8 4 0) 148 0
              Hfin) as (r & E & Hmap & Ht & Hc & Hl).
  destruct (generateFunnelFor_built zeroMath (sampleConfig "funnel" 8 4 0)
              (funnelCountDouble 8 148) 0 Hfin) as (r0 & d0 & E0 & Hb).
  unfold generateFunnelDouble in E. cbn [numLayers parameters sampleConfig] in E.
  rewrite E in E0. injection E0 as <- <-.
  exists r. split; [exact E|]. split.
  - cbn [List.map seq].
    rewrite !(built_layer_size _ _ _ _ Hb) by (cbn; lia).
    vm_compute. reflexivity.
  - rewrite Hc, length_fanInLinks. vm_compute. reflexivity.
Defined.

(** X2 (hourglass, closed form).  As long as no layer size is infinite,
    [generateHourglass] returns and draws nothing, and its result is, for
    the layer sizes [size(L)] the code computes in binary64: the positions
    listed layer by layer; for node [i] of layer [L] the type
    [roles[i mod roles.length]] of the role list of its layer (input,
    compress, center, expand or output); and the fan-in links of the funnel
    with weights [1 - c * 0.15]. *)
Theorem hourglass_closed_form (M : MathLib) (config : TopologyConfig)
  (targetCount d : nat) :
  (forall l, l < numLayers (parameters config) ->
     bounded_count (hourglassCountDouble config l)) ->
  exists r,
    generateHourglassDouble M config targetCount d = Ok (r, d) /\
    let size l := tripN (hourglassCountDouble config l) in
    List.map Position.layer (positions r)
      = layerOrder size (numLayers (parameters config)) /\
    types r = cycledTypes size (hourglassRole config)
                (numLayers (parameters config)) /\
    connections r = fanInLinks size (lit 3 20)
                      (numLayers (parameters config)) /\
    layers r = Some (numLayers (parameters config)).
Proof.
  intros Hfin. unfold generateHourglassDouble.
  destruct (generateHourglassFor_exact M config (hourglassCountDouble config)
              d) as (r & E & H).
  { intros l Hl. split; [now apply Hfin|].
    apply hourglassCountDouble_integral. now apply Hfin. }
  exists r. split; [exact E | exact H].
Qed.

Lemma hourglass_closed_form_witness :
  exists r,
    generateHourglassDouble zeroMath (sampleHourglass 44 11 0) 100 0
      = Ok (r, 0) /\
    length (connections r) = 701.
Proof.
  destruct (hourglass_closed_form zeroMath (sampleHourglass 44 11 0) 100 0)
    as (r & E & Hmap & Ht & Hc & Hl).
  { intros l Hl. cbn in Hl.
    do 44 (destruct l as [|l];
           [split; vm_compute; discriminate|]). lia. }
  exists r. split; [exact E|].
  rewrite Hc, length_fanInLinks. vm_compute. reflexivity.
Defined.

(** ** Further properties of the layered generators *)

Lemma fanInTotal_ext (cnt cnt' : nat -> nat) (n : nat) :
  (forall l, l < n -> cnt l = cnt' l) -> fanInTotal cnt n = fanInTotal cnt' n.
Proof.
  induction n as [|n IH]; intros H; [reflexivity|].
  cbn [fanInTotal]. rewrite IH by (intros l Hl; apply H; lia).
  rewrite (H n) by lia. destruct (n =? 0) eqn:E; [reflexivity|].
  apply Nat.eqb_neq in E. rewrite (H (n - 1)) by lia. reflexivity.
Qed.

(** In a fan-in result every node knows its number of incoming links. *)
Lemma fan_in_result_degree (cnt : nat -> nat) (step : num)
  (roles : nat -> list string) (n : nat) (r : NetworkDescription) :
  fan_in_result cnt step roles n r ->
  (forall l, l < n -> nodesInLayer (positions r) l = cnt l) ->
  length (connections r)
    = fanInTotal (nodesInLayer (positions r)) n /\
  forall id p l,
    positions r !! id = Some p -> Position.layer p = Some l ->
    inDegree (connections r) id
    = if l =? 0 then 0 else Nat.min 3 (nodesInLayer (positions r) (l - 1)).
Proof.
  intros (Hmap & _ & Hc & _) Hsize. split.
  - rewrite Hc, length_fanInLinks. symmetry. now apply fanInTotal_ext.
  - intros id p l Hp Hl.
    apply layer_of_position in Hp. rewrite Hmap, Hl in Hp.
    destruct (layerOrder_lookup _ _ _ _ Hp) as (l' & E & Hln & Hid).
    injection E as <-. rewrite layerStart_S in Hid.
    replace id with (layerStart cnt l + (id - layerStart cnt l)) by lia.
    rewrite Hc, inDegree_fanInLinks by lia.
    destruct (l =? 0) eqn:E0; [reflexivity|]. apply Nat.eqb_neq in E0.
    rewrite Hsize by lia. reflexivity.
Qed.

(** X4 (fan-in degree).  In the results of the funnel and of the hourglass
    a node of layer 0 has no incoming link and a node of a layer [l >= 1]
    has exactly [min(3, size of layer l-1)] incoming links; the number of
    links is the sum of these over all nodes. *)
Theorem fan_in_degree (M : MathLib) (config : TopologyConfig)
  (targetCount d : nat) :
  (exists r,
     generateFunnel M config targetCount d = Ok (r, d) /\
     length (connections r)
       = fanInTotal (nodesInLayer (positions r))
           (numLayers (parameters config)) /\
     forall id p l,
       positions r !! id = Some p -> Position.layer p = Some l ->
       inDegree (connections r) id
       = if l =? 0 then 0
         else Nat.min 3 (nodesInLayer (positions r) (l - 1))) /\
  (exists r,
     generateHourglass M config targetCount d = Ok (r, d) /\
     length (connections r)
       = fanInTotal (nodesInLayer (positions r))
           (numLayers (parameters config)) /\
     forall id p l,
       positions r !! id = Some p -> Position.layer p = Some l ->
       inDegree (connections r) id
       = if l =? 0 then 0
         else Nat.min 3 (nodesInLayer (positions r) (l - 1))).
Proof.
  split.
  - destruct (generateFunnel_exact M config targetCount d) as (r & E & H).
    destruct (generateFunnel_built M config targetCount d)
      as (r0 & d0 & E0 & Hb).
    rewrite E in E0. injection E0 as <- <-.
    exists r. split; [exact E|]. eapply fan_in_result_degree; [exact H|].
    intros l Hl. now apply (built_layer_size _ _ _ _ Hb).
  - destruct (generateHourglass_exact M config targetCount d) as (r & E & H).
    destruct (generateHourglass_built M config targetCount d)
      as (r0 & d0 & E0 & Hb).
    rewrite E in E0. injection E0 as <- <-.
    exists r. split; [exact E|]. eapply fan_in_result_degree; [exact H|].
    intros l Hl. now apply (built_layer_size _ _ _ _ Hb).
Qed.

(** X5 (no parallel links).  The funnel and the hourglass return no link
    twice: the pairs (from, to) of their links are pairwise different. *)
Theorem fan_in_links_distinct (M : MathLib) (config : TopologyConfig)
  (targetCount d : nat) :
  (exists r,
     generateFunnel M config targetCount d = Ok (r, d) /\
     NoDup (endpoints (connections r))) /\
  (exists r,
     generateHourglass M config targetCount d = Ok (r, d) /\
     NoDup (endpoints (connections r))).
Proof.
  split.
  - destruct (generateFunnel_exact M config targetCount d)
      as (r & E & _ & _ & Hc & _).
    exists r. split; [exact E|]. rewrite Hc. apply NoDup_fanInLinks.
  - destruct (generateHourglass_exact M config targetCount d)
      as (r & E & _ & _ & Hc & _).
    exists r. split; [exact E|]. rewrite Hc. apply NoDup_fanInLinks.
Qed.

Lemma fanInLinks_weight (cnt : nat -> nat) (step : num) (n : nat)
  (c : Connection.t) :
  c ∈ fanInLinks cnt step n ->
  exists k, k < 3 /\ Connection.weight c = (1 - k * step)%num.
Proof.
  intros Hc. unfold fanInLinks in Hc.
  apply list_elem_of_In, in_flat_map in Hc as (l & _ & Hc).
  apply in_flat_map in Hc as (i & _ & Hc).
  apply list_elem_of_In, fanIn_to in Hc as (_ & k & Hk & _ & _ & _ & Hw).
  eauto.
Qed.

(** X6 (fan-in weights).  In exact arithmetic every link of the funnel has
    weight 1, 0.8 or 0.6 and every link of the hourglass weight 1, 0.85 or
    0.7. *)
Theorem fan_in_weights (M : MathLib) (config : TopologyConfig)
  (targetCount d : nat) :
  (exists r,
     generateFunnel M config targetCount d = Ok (r, d) /\
     forall c, c ∈ connections r ->
       exists w, Connection.weight c = Fin w /\
                 (w == 1 \/ w == 4 # 5 \/ w == 3 # 5)%Q) /\
  (exists r,
     generateHourglass M config targetCount d = Ok (r, d) /\
     forall c, c ∈ connections r ->
       exists w, Connection.weight c = Fin w /\
                 (w == 1 \/ w == 17 # 20 \/ w == 7 # 10)%Q).
Proof.
  split.
  - destruct (generateFunnel_exact M config targetCount d)
      as (r & E & _ & _ & Hc & _).
    exists r. split; [exact E|]. intros c Hin. rewrite Hc in Hin.
    destruct (fanInLinks_weight _ _ _ _ Hin) as (k & Hk & ->).
    destruct k as [|[|[|k]]]; [| | |lia]; eexists; (split; [reflexivity|]);
      [left | right; left | right; right]; reflexivity.
  - destruct (generateHourglass_exact M config targetCount d)
      as (r & E & _ & _ & Hc & _).
    exists r. split; [exact E|]. intros c Hin. rewrite Hc in Hin.
    destruct (fanInLinks_weight _ _ _ _ Hin) as (k & Hk & ->).
    destruct k as [|[|[|k]]]; [| | |lia]; eexists; (split; [reflexivity|]);
      [left | right; left | right; right]; reflexivity.
Qed.

(** X3 (order of the positions).  The funnel, the hourglass and the onion
    list their positions layer by layer: every position carries a layer
    below [numLayers], the layers never decrease along the list, and the
    result reports [layers = numLayers]. *)
Theorem positions_listed_by_layer (M : MathLib) (rand : nat -> Q)
  (dm : DataManager) (config : TopologyConfig) (targetCount d : nat) :
  random_source rand ->
  (exists r d',
     generateFunnel M config targetCount d = Ok (r, d') /\
     layers r = Some (numLayers (parameters config)) /\
     layers_ascend (numLayers (parameters config)) (positions r)) /\
  (exists r d',
     generateOnion M rand dm config targetCount d = Ok (r, d') /\
     layers r = Some (numLayers (parameters config)) /\
     layers_ascend (numLayers (parameters config)) (positions r)) /\
  (exists r d',
     generateHourglass M config targetCount d = Ok (r, d') /\
     layers r = Some (numLayers (parameters config)) /\
     layers_ascend (numLayers (parameters config)) (positions r)).
Proof.
  intros Hr. split; [|split].
  - destruct (generateFunnel_exact M config targetCount d)
      as (r & E & Hmap & _ & _ & Hl).
    exists r, d. split; [exact E|]. split; [exact Hl|].
    eapply layerOrder_ascend, Hmap.
  - destruct (generateOnion_exact M rand dm config targetCount d Hr)
      as (r & d' & E & _ & Hmap & Hl & _).
    exists r, d'. split; [exact E|]. split; [exact Hl|].
    eapply layerOrder_ascend, Hmap.
  - destruct (generateHourglass_exact M config targetCount d)
      as (r & E & Hmap & _ & _ & Hl).
    exists r, d. split; [exact E|]. split; [exact Hl|].
    eapply layerOrder_ascend, Hmap.
Qed.

Lemma positions_listed_by_layer_witness :
  random_source sampleDraws /\
  exists r d',
    generateOnion zeroMath sampleDraws sampleData
      (sampleConfig "onion" 3 4 0) 10 0 = Ok (r, d') /\
    layers r = Some 3 /\ layers_ascend 3 (positions r).
Proof.
  split; [exact sampleDraws_source|].
  exact (proj1 (proj2
           (positions_listed_by_layer zeroMath sampleDraws sampleData
              (sampleConfig "onion" 3 4 0) 10 0 sampleDraws_source))).
Defined.

(** X7 (onion layer sizes).  Layer [L] of the onion has
    [max(1, floor(targetCount * (L + 1) / 10))] nodes, so no layer is empty
    and the sizes never decrease from one layer to the next. *)
Theorem onion_layer_sizes (M : MathLib) (rand : nat -> Q)
  (dm : DataManager) (config : TopologyConfig) (targetCount d : nat) :
  random_source rand ->
  exists r d',
    generateOnion M rand dm config targetCount d = Ok (r, d') /\
    (forall L, L < numLayers (parameters config) ->
       nodesInLayer (positions r) L
       = Nat.max 1 (targetCount * (L + 1) / 10)) /\
    (forall L L', L <= L' -> L' < numLayers (parameters config) ->
       1 <= nodesInLayer (positions r) L <= nodesInLayer (positions r) L').
Proof.
  intros Hr.
  destruct (generateOnion_exact M rand dm config targetCount d Hr)
    as (r & d' & E & Hb & _).
  exists r, d'. split; [exact E|].
  assert (Hsize : forall L, L < numLayers (parameters config) ->
            nodesInLayer (positions r) L
            = Nat.max 1 (targetCount * (L + 1) / 10)).
  { intros L HL. rewrite (built_layer_size _ _ _ L Hb HL).
    apply onionCnt_formula. }
  split; [exact Hsize|]. intros L L' HLL HL'.
  rewrite !Hsize by lia.
  assert (targetCount * (L + 1) / 10 <= targetCount * (L' + 1) / 10).
  { apply Nat.Div0.div_le_mono. apply Nat.mul_le_mono_l. lia. }
  lia.
Qed.

Lemma onion_layer_sizes_witness :
  random_source sampleDraws /\
  exists r d',
    generateOnion zeroMath sampleDraws sampleData
      (sampleConfig "onion" 3 4 0) 25 0 = Ok (r, d') /\
    (forall L, L < 3 ->
       nodesInLayer (positions r) L = Nat.max 1 (25 * (L + 1) / 10)) /\
    (forall L L', L <= L' -> L' < 3 ->
       1 <= nodesInLayer (positions r) L <= nodesInLayer (positions r) L').
Proof.
  split; [exact sampleDraws_source|].
  exact (onion_layer_sizes zeroMath sampleDraws sampleData
           (sampleConfig "onion" 3 4 0) 25 0 sampleDraws_source).
Defined.

Lemma inDegree_NoDup (cs : list Connection.t) (id : nat) :
  NoDup (List.map Connection.to cs) -> inDegree cs id <= 1.
Proof.
  unfold inDegree. induction cs as [|c cs IH]; intros Hnd; [cbn; lia|].
  cbn [List.map] in Hnd. apply NoDup_cons in Hnd as [Hc Hnd].
  cbn [List.filter]. destruct (Connection.to c) as [t|] eqn:Et.
  - destruct (t =? id) eqn:E; [|now apply IH].
    apply Nat.eqb_eq in E. subst t. cbn [length].
    enough (length (List.filter
              (fun c => match Connection.to c with
                        | Some t => t =? id
                        | None => false
                        end) cs) = 0) by lia.
    apply length_zero_iff_nil.
    destruct (List.filter _ cs) as [|c' l] eqn:Ef; [reflexivity|].
    exfalso. apply Hc.
    assert (Hin : In c' (List.filter
              (fun c => match Connection.to c with
                        | Some t => t =? id
                        | None => false
                        end) cs)) by (rewrite Ef; now left).
    apply filter_In in Hin as [Hin Hto].
    destruct (Connection.to c') as [t'|] eqn:Et'; [|discriminate].
    apply Nat.eqb_eq in Hto. subst t'. rewrite <- Et'.
    apply list_elem_of_In, in_map, Hin.
  - now apply IH.
Qed.

(** X8 (onion links).  Every link of the onion has weight 0.8 and goes
    from a node of the layer below its target; every node has at most one
    incoming link, and a node of layer 0 has none. *)
Theorem onion_links (M : MathLib) (rand : nat -> Q)
  (dm : DataManager) (config : TopologyConfig) (targetCount d : nat) :
  random_source rand ->
  exists r d',
    generateOnion M rand dm config targetCount d = Ok (r, d') /\
    (forall c, c ∈ connections r -> Connection.weight c = lit 4 5) /\
    (forall id, inDegree (connections r) id <= 1) /\
    (forall id p,
       positions r !! id = Some p -> Position.layer p = Some 0 ->
       inDegree (connections r) id = 0).
Proof.
  intros Hr.
  destruct (generateOnion_exact M rand dm config targetCount d Hr)
    as (r & d' & E & _ & Hmap & _ & Hl & Hs & _).
  exists r, d'. split; [exact E|]. rewrite Forall_forall in Hl.
  split; [|split].
  - intros c Hc. destruct (Hl c Hc) as (l & i & f & _ & _ & _ & _ & _ & Hw).
    exact Hw.
  - intros id. apply inDegree_NoDup.
    eapply sublist_NoDup; [|exact Hs].
    apply (NoDup_fmap_2 Some), NoDup_seq.
  - intros id p Hp H0. apply layer_of_position in Hp.
    rewrite Hmap, H0 in Hp.
    destruct (layerOrder_lookup _ _ _ _ Hp) as (l0 & E0 & _ & Hid).
    injection E0 as <-. cbn [layerStart] in Hid.
    unfold inDegree. apply length_zero_iff_nil.
    destruct (List.filter _ (connections r)) as [|c l] eqn:Ef; [reflexivity|].
    exfalso.
    assert (Hin : In c (List.filter
              (fun c => match Connection.to c with
                        | Some t => t =? id
                        | None => false
                        end) (connections r))) by (rewrite Ef; now left).
    apply filter_In in Hin as [Hin Hto]. apply list_elem_of_In in Hin.
    destruct (Hl c Hin) as (l' & i & f & Hpos & _ & Et & _).
    rewrite Et in Hto. apply Nat.eqb_eq in Hto.
    pose proof (layerStart_mono (onionCnt targetCount) 1 l' Hpos) as Hm.
    cbn [layerStart] in Hm. lia.
Qed.

Lemma onion_links_witness :
  random_source sampleDraws /\
  exists r d',
    generateOnion zeroMath sampleDraws sampleData
      (sampleConfig "onion" 3 4 0) 10 0 = Ok (r, d') /\
    (forall c, c ∈ connections r -> Connection.weight c = lit 4 5) /\
    (forall id, inDegree (connections r) id <= 1) /\
    (forall id p,
       positions r !! id = Some p -> Position.layer p = Some 0 ->
       inDegree (connections r) id = 0).
Proof.
  split; [exact sampleDraws_source|].
  exact (onion_links zeroMath sampleDraws sampleData
           (sampleConfig "onion" 3 4 0) 10 0 sampleDraws_source).
Defined.

(** X22 (single layer).  With [numLayers = 1] the layer size of the funnel
    and of the hourglass is computed from [0 / 0]: both return a network
    without any node, type or link, reporting one layer, for every
    [targetCount]. *)
Theorem single_layer_is_empty (M : MathLib) (config : TopologyConfig)
  (targetCount d : nat) :
  numLayers (parameters config) = 1 ->
  generateFunnel M config targetCount d
    = Ok ({| positions := []; connections := []; types := [];
             layers := Some 1 |}, d) /\
  generateHourglass M config targetCount d
    = Ok ({| positions := []; connections := []; types := [];
             layers := Some 1 |}, d).
Proof.
  intros H1. destruct config as [g [nl so k p ec cc] v]. cbn in H1. subst nl.
  split; reflexivity.
Qed.

Lemma single_layer_is_empty_witness :
  generateFunnel zeroMath (sampleConfig "funnel" 1 4 0) 10 0
    = Ok ({| positions := []; connections := []; types := [];
             layers := Some 1 |}, 0) /\
  generateHourglass zeroMath (sampleConfig "hourglass" 1 4 0) 10 0
    = Ok ({| positions := []; connections := []; types := [];
             layers := Some 1 |}, 0).
Proof.
  split.
  - exact (proj1 (single_layer_is_empty zeroMath (sampleConfig "funnel" 1 4 0)
                    10 0 eq_refl)).
  - exact (proj2 (single_layer_is_empty zeroMath
                    (sampleConfig "hourglass" 1 4 0) 10 0 eq_refl)).
Defined.

(** ** Further properties of the small world *)

(** X11 (small world, size).  Whenever the small-world generator returns,
    whatever was rewired, the result has [cocoonCount] nodes, all on layer
    0, reports one layer, and holds exactly [floor(kNeighbors / 2)] links
    leaving every node, node after node, each of weight 0.7:
    [cocoonCount * floor(kNeighbors / 2)] links in all. *)
Theorem small_world_out_degree (M : MathLib) (rand : nat -> Q)
  (dm : DataManager) (fuel : nat) (config : TopologyConfig)
  (cocoonCount d : nat) (r : NetworkDescription) (d' : nat) :
  generateSmallWorld M rand dm fuel config cocoonCount d = Ok (r, d') ->
  length (positions r) = cocoonCount /\
  (forall id p, positions r !! id = Some p -> Position.layer p = Some 0) /\
  layers r = Some 1 /\
  List.map Connection.from (connections r)
    = outLinks cocoonCount (kNeighbors (parameters config) / 2) /\
  length (connections r)
    = cocoonCount * (kNeighbors (parameters config) / 2) /\
  (forall c, c ∈ connections r -> Connection.weight c = lit 7 10).
Proof.
  intros E.
  destruct (generateSmallWorld_links M rand dm fuel config cocoonCount d r d' E)
    as (Hn & Hl & Hly & Hm & Hw).
  split; [exact Hn|]. split; [exact Hl|]. split; [exact Hly|].
  split; [exact Hm|]. split.
  - rewrite <- (length_map Connection.from), Hm. apply length_outLinks.
  - now apply Forall_forall.
Qed.

Lemma small_world_out_degree_witness :
  exists r d',
    generateSmallWorld zeroMath sampleDraws sampleData 8
      (sampleConfig "smallworld" 1 4 (1 # 2)) 6 0 = Ok (r, d') /\
    length (positions r) = 6 /\
    length (connections r) = 6 * (4 / 2).
Proof.
  destruct (generateSmallWorld zeroMath sampleDraws sampleData 8
              (sampleConfig "smallworld" 1 4 (1 # 2)) 6 0)
    as [[r d']| |] eqn:E; [|vm_compute in E; discriminate..].
  exists r, d'. split; [reflexivity|].
  destruct (small_world_out_degree zeroMath sampleDraws sampleData 8
              (sampleConfig "smallworld" 1 4 (1 # 2)) 6 0 r d' E)
    as (Hn & _ & _ & _ & Hc & _).
  split; [exact Hn | exact Hc].
Defined.





(** X13 (small world, one node).  With [cocoonCount = 1] every redraw
    yields node 0 again: as soon as the first link is rewired (the draw
    after the three of the node's position is below [rewireProb], and
    [kNeighbors >= 2]) the generator never returns, whatever the number of
    redraws allowed. *)
Theorem small_world_single_node_hangs (M : MathLib) (rand : nat -> Q)
  (dm : DataManager) (config : TopologyConfig) (d : nat) :
  random_source rand ->
  2 <= kNeighbors (parameters config) ->
  (rand (d + 3)%nat < rewireProb (parameters config))%Q ->
  forall fuel,
    generateSmallWorld M rand dm fuel config 1 d = Timeout.
Proof.
  intros Hr Hk Hp fuel. now apply generateSmallWorld_stuck.
Qed.

Lemma small_world_single_node_hangs_witness :
  random_source sampleDraws /\
  forall fuel,
    generateSmallWorld zeroMath sampleDraws sampleData fuel
      (sampleConfig "smallworld" 1 4 (1 # 2)) 1 0 = Timeout.
Proof.
  split; [exact sampleDraws_source|].
  apply (small_world_single_node_hangs zeroMath sampleDraws sampleData
           (sampleConfig "smallworld" 1 4 (1 # 2)) 0 sampleDraws_source).
  - cbn. lia.
  - reflexivity.
Defined.

(** ** Further properties of the structure generators and the dispatchers *)

(** X14 (structure links).  Both structure generators add their links in
    the order of the double loop over the pairs [i < j]: the list of
    (from, to) is a sublist of the list of all pairs, so no pair is linked
    twice and there are at most [nodeCount * (nodeCount - 1) / 2] links. *)
Theorem structure_links_in_pair_order (M : MathLib) (rand : nat -> Q)
  (config : StructureConfig) (nodeCount d : nat) :
  (exists r d',
     generateSphereSurface M rand config nodeCount d = Ok (r, d') /\
     sublist (endpoints (Structure.connections r)) (allPairs nodeCount) /\
     NoDup (endpoints (Structure.connections r)) /\
     2 * length (Structure.connections r) <= nodeCount * (nodeCount - 1)) /\
  (exists r d',
     generateRandomGraph rand config nodeCount d = Ok (r, d') /\
     sublist (endpoints (Structure.connections r)) (allPairs nodeCount) /\
     NoDup (endpoints (Structure.connections r)) /\
     2 * length (Structure.connections r) <= nodeCount * (nodeCount - 1)).
Proof.
  split.
  - destruct (generateSphereSurface_exact M rand config nodeCount d)
      as (r & d' & E & _ & _ & Hs).
    exists r, d'. split; [exact E|]. split; [exact Hs|].
    now apply sorted_pairs.
  - destruct (generateRandomGraph_exact rand config nodeCount d)
      as (r & d' & E & _ & _ & Hs).
    exists r, d'. split; [exact E|]. split; [exact Hs|].
    now apply sorted_pairs.
Qed.

(** The heights of the sphere in the arithmetic of [num], which does not
    round: [3 - 6 * i / (nodeCount - 1)].  The doubles of the code can
    differ from it in the last place (node 2 of 4 is at
    [-0.9999999999999998]). *)
Lemma sphere_heights_unrounded (M : MathLib) (rand : nat -> Q)
  (config : StructureConfig) (nodeCount d : nat) :
  2 <= nodeCount ->
  exists r d',
    generateSphereSurface M rand config nodeCount d = Ok (r, d') /\
    forall i p, Structure.positions r !! i = Some p ->
      exists q, Position.y p = Fin q /\
                (q == 3 - 6 * inject_Z (Z.of_nat i)
                          / inject_Z (Z.of_nat (nodeCount - 1)))%Q /\
                (-3 <= q)%Q /\ (q <= 3)%Q.
Proof.
  intros H2.
  destruct (generateSphereSurface_exact M rand config nodeCount d)
    as (r & d' & E & Hlen & Hy & _).
  exists r, d'. split; [exact E|]. intros i p Hp.
  pose proof (lookup_lt_Some _ _ _ Hp) as Hi. rewrite Hlen in Hi.
  rewrite (Hy i p Hp). unfold of_nat, of_Z. cbn [sub neg add].
  assert (Hm : (0 < inject_Z (Z.of_nat (nodeCount - 1)))%Q).
  { change 0%Q with (inject_Z 0). rewrite <- Zlt_Qlt. lia. }
  assert (Hn : (inject_Z (Z.of_nat nodeCount) + - inject_Z (Z.of_nat 1)
                == inject_Z (Z.of_nat (nodeCount - 1)))%Q).
  { rewrite <- inject_Z_opp, <- inject_Z_plus. apply inject_Z_injective. lia. }
  cbn [div]. rewrite Qeq_bool_false by (rewrite Hn; lra).
  cbn [mul add neg sub]. eexists. split; [reflexivity|].
  assert (Hi0 : (0 <= inject_Z (Z.of_nat i))%Q).
  { change 0%Q with (inject_Z 0). rewrite <- Zle_Qle. lia. }
  assert (Hi1 : (inject_Z (Z.of_nat i) <= inject_Z (Z.of_nat (nodeCount - 1)))%Q).
  { rewrite <- Zle_Qle. lia. }
  rewrite Hn.
  change (inject_Z (Z.of_nat 1)) with 1%Q.
  change (inject_Z (Z.of_nat 2)) with 2%Q.
  change (inject_Z (Z.of_nat 3)) with 3%Q.
  set (a := inject_Z (Z.of_nat i)) in *.
  set (m := inject_Z (Z.of_nat (nodeCount - 1))) in *.
  assert (Hr0 : (0 <= a / m)%Q).
  { unfold Qdiv. pose proof (Qinv_lt_0_compat _ Hm). nra. }
  assert (Hr1 : (a / m <= 1)%Q).
  { apply Qle_shift_div_r; [exact Hm | lra]. }
  split; [|split].
  - field. lra.
  - lra.
  - lra.
Qed.

(** X15 (sphere heights).  With at least two nodes the heights of the
    nodes of the sphere surface lie between -3 and 3, the first node at 3
    and the last at -3, and the height never increases from one node to the
    next. *)
Theorem sphere_height_bounds (M : MathLib) (rand : nat -> Q)
  (config : StructureConfig) (nodeCount d : nat) :
  2 <= nodeCount ->
  exists r d',
    generateSphereSurface M rand config nodeCount d = Ok (r, d') /\
    (forall i p, Structure.positions r !! i = Some p ->
       exists q, Position.y p = Fin q /\ (-3 <= q)%Q /\ (q <= 3)%Q) /\
    (forall p, Structure.positions r !! 0 = Some p ->
       exists q, Position.y p = Fin q /\ (q == 3)%Q) /\
    (forall p, Structure.positions r !! (nodeCount - 1) = Some p ->
       exists q, Position.y p = Fin q /\ (q == -3)%Q) /\
    (forall i j pi pj qi qj,
       i <= j ->
       Structure.positions r !! i = Some pi ->
       Structure.positions r !! j = Some pj ->
       Position.y pi = Fin qi -> Position.y pj = Fin qj ->
       (qj <= qi)%Q).
Proof.
  intros H2.
  destruct (sphere_heights_unrounded M rand config nodeCount d H2)
    as (r & d' & E & Hy).
  assert (Hm : (0 < inject_Z (Z.of_nat (nodeCount - 1)))%Q).
  { change 0%Q with (inject_Z 0). rewrite <- Zlt_Qlt. lia. }
  exists r, d'. split; [exact E|]. split; [|split; [|split]].
  - intros i p Hp. destruct (Hy i p Hp) as (q & Eq & _ & Hlo & Hhi). eauto.
  - intros p Hp. destruct (Hy 0 p Hp) as (q & Eq & Hq & _).
    exists q. split; [exact Eq|]. rewrite Hq.
    change (inject_Z (Z.of_nat 0)) with 0%Q. field. lra.
  - intros p Hp. destruct (Hy _ p Hp) as (q & Eq & Hq & _).
    exists q. split; [exact Eq|]. rewrite Hq. field. lra.
  - intros i j pi pj qi qj Hij Hi Hj Ei Ej.
    destruct (Hy i pi Hi) as (q1 & E1 & Hq1 & _).
    destruct (Hy j pj Hj) as (q2 & E2 & Hq2 & _).
    rewrite Ei in E1. injection E1 as <-.
    rewrite Ej in E2. injection E2 as <-.
    rewrite Hq1, Hq2.
    assert (Hle : (inject_Z (Z.of_nat i) <= inject_Z (Z.of_nat j))%Q).
    { rewrite <- Zle_Qle. lia. }
    pose proof (Qinv_lt_0_compat _ Hm) as Him. unfold Qdiv.
    set (a := inject_Z (Z.of_nat i)) in *.
    set (b := inject_Z (Z.of_nat j)) in *.
    set (im := (/ inject_Z (Z.of_nat (nodeCount - 1)))%Q) in *.
    nra.
Qed.

Lemma sphere_height_bounds_witness :
  exists r d',
    generateSphereSurface zeroMath sampleDraws
      (sampleStructure "fibonacci_sphere") 5 0 = Ok (r, d') /\
    forall i p, Structure.positions r !! i = Some p ->
      exists q, Position.y p = Fin q /\ (-3 <= q)%Q /\ (q <= 3)%Q.
Proof.
  destruct (sphere_height_bounds zeroMath sampleDraws
              (sampleStructure "fibonacci_sphere") 5 0) as (r & d' & E & H & _).
  - lia.
  - exists r, d'. split; [exact E | exact H].
Defined.

(** X16 (sphere of one node).  With [nodeCount = 1] the height of the only
    node is [1 - (0 / 0) * 2 = NaN]. *)
Theorem sphere_single_node_nan (M : MathLib) (rand : nat -> Q)
  (config : StructureConfig) (d : nat) :
  exists r d' p,
    generateSphereSurface M rand config 1 d = Ok (r, d') /\
    Structure.positions r = [p] /\ Position.y p = NaN /\
    Structure.connections r = [].
Proof.
  eexists _, _, _. split; [reflexivity|]. split; [reflexivity|].
  split; reflexivity.
Qed.

(** X17 (random graph, positions).  Every coordinate of every node of the
    random graph lies in the half-open interval [[-3, 3)]. *)
Theorem random_graph_in_cube (rand : nat -> Q) (config : StructureConfig)
  (nodeCount d : nat) :
  random_source rand ->
  exists r d',
    generateRandomGraph rand config nodeCount d = Ok (r, d') /\
    length (Structure.positions r) = nodeCount /\
    forall i p, Structure.positions r !! i = Some p ->
      in_cube (Position.x p) /\ in_cube (Position.y p) /\
      in_cube (Position.z p).
Proof.
  intros Hr.
  destruct (generateRandomGraph_exact rand config nodeCount d)
    as (r & d' & E & Hlen & Hc & _).
  exists r, d'. split; [exact E|]. split; [exact Hlen|]. now apply Hc.
Qed.

Lemma random_graph_in_cube_witness :
  random_source sampleDraws /\
  exists r d',
    generateRandomGraph sampleDraws (sampleStructure "random") 12 0
      = Ok (r, d') /\
    length (Structure.positions r) = 12 /\
    forall i p, Structure.positions r !! i = Some p ->
      in_cube (Position.x p) /\ in_cube (Position.y p) /\
      in_cube (Position.z p).
Proof.
  split; [exact sampleDraws_source|].
  exact (random_graph_in_cube sampleDraws (sampleStructure "random") 12 0
           sampleDraws_source).
Defined.

(** X18 ([generateInternalStructure]).  The dispatcher of the structure
    generators reads the name from a plain object and never fails to end.
    For a known name it returns [nodeCount] nodes, 50 when the argument is
    left out, tagged by the rule of the generators, with links between
    nodes of the result and no pair linked twice.  For a name that is no
    key of the catalogue it throws when the name is a member of
    [Object.prototype] (such as "constructor") and returns the empty
    structure, drawing nothing, otherwise. *)
Theorem internal_structure_contract (M : MathLib) (rand : nat -> Q)
  (dm : DataManager) (structureName : string) (nodeCount : option nat)
  (d : nat) :
  match structures dm !! structureName with
  | Some _ =>
      exists r d',
        generateInternalStructure M rand dm structureName nodeCount d
          = Ok (r, d') /\
        tags_follow_rule (default 50 nodeCount) (Structure.positions r) /\
        indices_valid (Structure.positions r) (Structure.connections r) /\
        NoDup (endpoints (Structure.connections r))
  | None =>
      (structureName ∈ objectPrototypeNames ->
       generateInternalStructure M rand dm structureName nodeCount d
         = TypeError) /\
      (structureName ∉ objectPrototypeNames ->
       generateInternalStructure M rand dm structureName nodeCount d
         = Ok (emptyStructure, d))
  end.
Proof.
  unfold generateInternalStructure, getStructure. cbn zeta.
  destruct (structures dm !! structureName) as [config|] eqn:Ename.
  2:{ split; intros Hin.
      - now rewrite (getProperty_inherited _ _ Ename Hin).
      - now rewrite (getProperty_absent _ _ Ename Hin). }
  unfold getProperty. rewrite Ename.
  destruct (String.eqb (nodeDistribution config) "fibonacci_sphere").
  - destruct (generateSphereSurface_spec M rand config
                (default 50 nodeCount) d) as (r & d' & E & Hs).
    destruct (generateSphereSurface_exact M rand config
                (default 50 nodeCount) d) as (r2 & d2 & E2 & _ & _ & Hsub).
    rewrite E in E2. injection E2 as <- <-.
    exists r, d'. split; [exact E|]. split; [now apply structure_tags|].
    split; [now apply (structure_valid (default 50 nodeCount))|].
    now apply (sorted_pairs (default 50 nodeCount)).
  - destruct (generateRandomGraph_spec rand config
                (default 50 nodeCount) d) as (r & d' & E & Hs).
    destruct (generateRandomGraph_exact rand config
                (default 50 nodeCount) d) as (r2 & d2 & E2 & _ & _ & Hsub).
    rewrite E in E2. injection E2 as <- <-.
    exists r, d'. split; [exact E|]. split; [now apply structure_tags|].
    split; [now apply (structure_valid (default 50 nodeCount))|].
    now apply (sorted_pairs (default 50 nodeCount)).
Qed.

(** X19 ([generateTopology], outcomes).  Whatever the catalogue, the name
    and the count, [generateTopology] returns a network whose links join
    nodes of the result, or throws, or does not return.  It throws only for
    a name that is no key of the catalogue but a member of
    [Object.prototype]; it fails to return only for a config of type
    'smallworld'. *)
Theorem topology_outcomes (M : MathLib) (rand : nat -> Q)
  (dm : DataManager) (fuel : nat) (B : Type) (topologyName : string)
  (cocoonCount : nat) (structure : B) (d : nat) :
  random_source rand ->
  match generateTopology M rand dm fuel topologyName cocoonCount structure d
  with
  | Ok (r, _) => indices_valid (positions r) (connections r)
  | TypeError =>
      topologies dm !! topologyName = None /\
      topologyName ∈ objectPrototypeNames
  | Timeout =>
      exists config,
        topologies dm !! topologyName = Some config /\
        generator_type config = "smallworld"
  end.
Proof.
  intros Hr. unfold generateTopology, getTopology, getProperty.
  destruct (topologies dm !! topologyName) as [config|] eqn:Ename.
  2:{ destruct (inherited topologyName) eqn:Ei.
      - cbn. split; [reflexivity | now apply inherited_spec].
      - cbn. intros c Hc. now apply not_elem_of_nil in Hc. }
  destruct (String.eqb (generator_type config) "funnel").
  { destruct (generateFunnel_built M config cocoonCount d)
      as (r & d' & -> & Hb).
    eapply built_valid, Hb. }
  destruct (String.eqb (generator_type config) "onion").
  { destruct (generateOnion_built M rand dm config cocoonCount d Hr)
      as (r & d' & -> & Hb).
    eapply built_valid, Hb. }
  destruct (String.eqb (generator_type config) "smallworld") eqn:Esw.
  { apply String.eqb_eq in Esw.
    pose proof (generateSmallWorld_no_throw M rand dm fuel config
                  cocoonCount d) as Hn.
    destruct (generateSmallWorld M rand dm fuel config cocoonCount d)
      as [[r d']| |] eqn:E.
    - now destruct (smallWorld_valid M rand dm fuel config cocoonCount d
                      r d' Hr E).
    - congruence.
    - now exists config. }
  destruct (String.eqb (generator_type config) "hourglass").
  { destruct (generateHourglass_built M config cocoonCount d)
      as (r & d' & -> & Hb).
    eapply built_valid, Hb. }
  cbn. intros c Hc. now apply not_elem_of_nil in Hc.
Qed.

Lemma topology_outcomes_witness :
  random_source sampleDraws /\
  exists r d',
    generateTopology zeroMath sampleDraws sampleData 8 "onion" 12 tt 0
      = Ok (r, d') /\
    indices_valid (positions r) (connections r).
Proof.
  split; [exact sampleDraws_source|].
  pose proof (topology_outcomes zeroMath sampleDraws sampleData 8 unit
                "onion" 12 tt 0 sampleDraws_source) as H.
  destruct (generateTopology zeroMath sampleDraws sampleData 8 "onion" 12 tt 0)
    as [[r d']| |] eqn:E; [|vm_compute in E; discriminate..].
  exists r, d'. split; [reflexivity | exact H].
Defined.

Lemma firstFour_named (names : list string) (t : NodeType) :
  4 <= length names -> firstFour names t -> exists s, t = Some s /\ s ∈ names.
Proof.
  intros Hlen (k & Hk & ->).
  destruct (lookup_lt_is_Some_2 names k) as [s Es]; [lia|].
  exists s. split; [exact Es|]. eapply list_elem_of_lookup_2, Es.
Qed.

(** X20 (random types).  The types the onion and the small world draw are
    [typeNames[0..3]], whatever the length of the catalogue: every type of
    the onion is one of the first four names, every type of the small world
    one of them, 'sensor' or 'processor'; with at least four names in the
    catalogue no type of the onion is undefined. *)
Theorem random_types_first_four (M : MathLib) (rand : nat -> Q)
  (dm : DataManager) :
  random_source rand ->
  (forall config targetCount d, exists r d',
     generateOnion M rand dm config targetCount d = Ok (r, d') /\
     (forall t, t ∈ types r -> firstFour (typeNames dm) t) /\
     (4 <= length (typeNames dm) ->
      forall t, t ∈ types r -> exists s, t = Some s /\ s ∈ typeNames dm)) /\
  (forall fuel config cocoonCount d r d',
     generateSmallWorld M rand dm fuel config cocoonCount d = Ok (r, d') ->
     forall t, t ∈ types r ->
       t = Some "sensor" \/ t = Some "processor" \/
       firstFour (typeNames dm) t).
Proof.
  intros Hr. split.
  - intros config t d.
    destruct (generateOnion_exact M rand dm config t d Hr)
      as (r & d' & E & _ & _ & _ & _ & _ & Ht).
    exists r, d'. split; [exact E|]. rewrite Forall_forall in Ht.
    split; [exact Ht|]. intros H4 ty Hty.
    apply (firstFour_named _ _ H4), Ht, Hty.
  - intros fuel config n d r d' E ty Hty.
    destruct (generateSmallWorld_inv M rand dm fuel config n d r d' Hr E)
      as (st0 & st & (_ & Hlen & _ & _ & Htypes) & (_ & Ht & _) & ->).
    cbn [types topologyResult] in Hty. rewrite Ht in Hty.
    apply list_elem_of_lookup_1 in Hty as [i Hi].
    pose proof (lookup_lt_Some _ _ _ Hi) as Hlt.
    unfold NodeType in *. rewrite Hlen in Hlt.
    destruct (Htypes i Hlt) as (t' & Ht' & Hs).
    rewrite Hi in Ht'. injection Ht' as <-.
    unfold smallWorldType in Hs.
    destruct (10 * i <? n); [now left|].
    destruct (9 * n <? 10 * i); [right; now left|].
    destruct Hs as (m & ->). right. right.
    destruct (Hr m) as [H0 H1].
    destruct (draw_index (rand m) 4 H0 H1) as (k & Hk & Ek); [lia|].
    exists k. split; [exact Hk|]. rewrite Ek.
    unfold subscript. now rewrite index_of_nat.
Qed.

Lemma random_types_first_four_witness :
  random_source sampleDraws /\
  exists r d',
    generateOnion zeroMath sampleDraws sampleData
      (sampleConfig "onion" 3 4 0) 10 0 = Ok (r, d') /\
    forall t, t ∈ types r -> firstFour (typeNames sampleData) t.
Proof.
  split; [exact sampleDraws_source|].
  destruct (proj1 (random_types_first_four zeroMath sampleDraws sampleData
                     sampleDraws_source)
              (sampleConfig "onion" 3 4 0) 10 0) as (r & d' & E & H & _).
  exists r, d'. split; [exact E | exact H].
Defined.

Lemma self_loops_only_on_short_rings_witness :
  random_source sampleDraws /\
  exists r d',
    generateOnion zeroMath sampleDraws sampleData
      (sampleConfig "onion" 3 4 0) 10 0 = Ok (r, d') /\
    forall c, c ∈ connections r -> Connection.from c <> Connection.to c.
Proof.
  split; [exact sampleDraws_source|].
  exact (proj1 (proj2
           (self_loops_only_on_short_rings zeroMath sampleDraws sampleData
              sampleDraws_source))
           (sampleConfig "onion" 3 4 0) 10 0).
Defined.
